(** * Recipe-Video-Translator: the API's extraction-and-synthesis pipeline

    A shallow embedding of [src/api/src/routes/api.ts]: the text heuristics
    ([extractSteps], [extractIngredients], [synthesizeRecipe]), the two
    renderers, the page and caption scrapers and the in-memory job store
    behind the [/create-upload], [/start-job] and [/get-recipe] routes,
    and the event stream with its two timers.

    Conventions of the embedding.
    - A JavaScript string is the list of its UTF-16 code units
      ([jsstring], a [list N]); none of the regular expressions of the
      source carries the [u] flag, so they all work on code units.
    - Every regular expression of the source is written out as the
      matcher it denotes, next to the function that uses it; its text is
      quoted in the comment above the matcher.
    - What belongs to the platform and not to the repository is an
      argument of the definitions that use it: the Unicode upper-casing
      table ([toUpperCase]), the printing of a double ([numberToString])
      and the JSON parser ([JSON_parse]). The network is a script of
      outcomes, one per call of [fetch], over which the statements
      quantify.
    - A number is a binary64: [Number] rounds the decimal it reads to
      the nearest one, and a quantity is that value, or [Infinity].
    - The values follow the TypeScript types that the source declares for
      them, except where a scraped value may escape its declared type:
      the title of a page is kept as the value it is, up to the stored
      recipe and its printing, and a description that is no string is
      told apart where the source first uses it. *)

From Stdlib Require Import List NArith ZArith QArith Qabs Qreduction Lia String Ascii
  Bool DecimalString.
From stdpp Require Import gmap.
Import ListNotations.

Abbreviation jsstring := (list N).

(** A literal of the source, as code units (literals of the source with
    characters above U+00FF are given by their code points instead). *)
Definition u16 (s : string) : jsstring :=
  List.map N_of_ascii (list_ascii_of_string s).

(** ** Character classes of the regular expressions *)

Module Char.
Local Open Scope N_scope.

(** [\s], and what [String.prototype.trim] strips: WhiteSpace and
    LineTerminator of ECMAScript. *)
Definition is_ws (c : N) : bool :=
  ((9 <=? c) && (c <=? 13)) || (c =? 32) || (c =? 160) || (c =? 5760)
  || ((8192 <=? c) && (c <=? 8202)) || (c =? 8232) || (c =? 8233)
  || (c =? 8239) || (c =? 8287) || (c =? 12288) || (c =? 65279).

(** What [.] refuses: LF, CR, U+2028, U+2029. *)
Definition is_line_terminator (c : N) : bool :=
  (c =? 10) || (c =? 13) || (c =? 8232) || (c =? 8233).

(** [\d] and [[0-9]]. *)
Definition is_digit (c : N) : bool := (48 <=? c) && (c <=? 57).
(** [[a-z]], [[A-Z]], [[a-zA-Z]]. *)
Definition is_lower (c : N) : bool := (97 <=? c) && (c <=? 122).
Definition is_upper (c : N) : bool := (65 <=? c) && (c <=? 90).
Definition is_alpha (c : N) : bool := is_lower c || is_upper c.
(** [\w], which decides [\b]: without the [u] flag the [i] flag adds
    nothing to it. *)
Definition is_word (c : N) : bool := is_alpha c || is_digit c || (c =? 95).

(** Case folding of the [i] flag on a pattern of ASCII characters: without
    the [u] flag a code unit above 127 never folds onto an ASCII one, so a
    pattern letter matches exactly its two ASCII cases. *)
Definition lower (c : N) : N := if is_upper c then c + 32 else c.
Definition upper (c : N) : N := if is_lower c then c - 32 else c.
Definition eq_ci (a b : N) : bool := lower a =? lower b.
End Char.
Import Char.

(** ** String helpers shared by the heuristics *)

Fixpoint trimStart (s : jsstring) : jsstring :=
  match s with
  | c :: r => if is_ws c then trimStart r else s
  | [] => []
  end.
Definition trimEnd (s : jsstring) : jsstring := rev (trimStart (rev s)).
(** [s.trim()] *)
Definition trim (s : jsstring) : jsstring := trimEnd (trimStart s).

(** Truthiness of a string: [filter(Boolean)], [x || y], [!x]. *)
Definition truthy (s : jsstring) : bool :=
  match s with [] => false | _ => true end.
Definition or_else (a b : jsstring) : jsstring := if truthy a then a else b.

(** A pattern of literal characters at the head of [s], under the [i] flag. *)
Fixpoint starts_with_ci (p s : jsstring) : bool :=
  match p, s with
  | [], _ => true
  | a :: p', b :: s' => eq_ci a b && starts_with_ci p' s'
  | _ :: _, [] => false
  end.
(** The same without the flag. *)
Fixpoint starts_with (p s : jsstring) : bool :=
  match p, s with
  | [], _ => true
  | a :: p', b :: s' => N.eqb a b && starts_with p' s'
  | _ :: _, [] => false
  end.

Fixpoint takeWhile (f : N -> bool) (s : jsstring) : jsstring :=
  match s with
  | c :: r => if f c then c :: takeWhile f r else []
  | [] => []
  end.
Fixpoint dropWhile (f : N -> bool) (s : jsstring) : jsstring :=
  match s with
  | c :: r => if f c then dropWhile f r else s
  | [] => []
  end.

(** [a.join(sep)] on strings. *)
Fixpoint join (sep : jsstring) (l : list jsstring) : jsstring :=
  match l with
  | [] => []
  | [x] => x
  | x :: r => x ++ sep ++ join sep r
  end.

(** ** Step extraction: [extractSteps], [capitalize] *)

(** [text.replace(/\s+/g, ' ')]: every maximal run of white space becomes
    one space; [in_run] says the previous code unit was white space. *)
Fixpoint replace_ws_runs (in_run : bool) (s : jsstring) : jsstring :=
  match s with
  | [] => []
  | c :: r =>
      if is_ws c then
        if in_run then replace_ws_runs true r
        else 32%N :: replace_ws_runs true r
      else c :: replace_ws_runs false r
  end.

(** [[.!?]] *)
Definition is_sentence_end (c : N) : bool :=
  N.eqb c 46 || N.eqb c 33 || N.eqb c 63.

(** [.split(/(?<=[.!?])\s+/)]: the separator is a maximal run of white
    space that follows one of [. ! ?]. [after_end] says the previous code
    unit is one of them, [in_sep] that the scan is inside a separator, and
    [cur] holds the piece being read, reversed. The piece after the last
    separator is always pushed, empty or not, as [split] does. *)
Fixpoint split_sentences (after_end in_sep : bool) (cur s : jsstring)
  : list jsstring :=
  match s with
  | [] => [rev cur]
  | c :: r =>
      if is_ws c then
        if in_sep then split_sentences false true [] r
        else if after_end then rev cur :: split_sentences false true [] r
        else split_sentences false false (c :: cur) r
      else split_sentences (is_sentence_end c) false (c :: cur) r
  end.

(** The [sentences] of [extractSteps]: normalise, split, trim, drop the
    empty pieces. *)
Definition sentences_of (text : jsstring) : list jsstring :=
  List.filter truthy
    (List.map trim (split_sentences false false [] (replace_ws_runs false text))).

(** The words of the [cues] expression,
    [/(add|mix|stir|combine|cook|bake|boil|simmer|fry|heat|season|chop|slice|blend|pour|spread|press|marinate|assemble|serve)/i] *)
Definition cue_words : list jsstring :=
  List.map u16
    ["add"; "mix"; "stir"; "combine"; "cook"; "bake"; "boil"; "simmer"; "fry";
     "heat"; "season"; "chop"; "slice"; "blend"; "pour"; "spread"; "press";
     "marinate"; "assemble"; "serve"]%string.

(** One of the cue words at the head of [s]. *)
Definition cue_here (s : jsstring) : bool :=
  existsb (fun w => starts_with_ci w s) cue_words.

(** [cues.test(s)]: the expression is not anchored, a cue word anywhere in
    [s] will do. *)
Fixpoint cues_test (s : jsstring) : bool :=
  cue_here s || match s with [] => false | _ :: r => cues_test r end.

(** [s.replace(/^\d+[:\.)]\s*/, '')]: a leading run of digits, one of
    [: . )], and the white space after it. The run of digits is maximal: a
    shorter one is followed by a digit, never by the punctuation. *)
Definition strip_numbering (s : jsstring) : jsstring :=
  match takeWhile is_digit s, dropWhile is_digit s with
  | _ :: _, c :: r =>
      if N.eqb c 58 || N.eqb c 46 || N.eqb c 41 then trimStart r else s
  | _, _ => s
  end.

Section Steps.
(** [String.prototype.toUpperCase], the platform's. *)
Variable toUpperCase : jsstring -> jsstring.

(** [s.charAt(0).toUpperCase() + s.slice(1)] *)
Definition capitalize (s : jsstring) : jsstring :=
  toUpperCase (firstn 1 s) ++ skipn 1 s.

(** [s.replace(/^([a-z])/, (m) => m.toUpperCase())] *)
Definition upcase_initial (s : jsstring) : jsstring :=
  match s with
  | c :: r => if is_lower c then toUpperCase [c] ++ r else s
  | [] => []
  end.

(** The [for] loop of [extractSteps]: the test of the cap comes after
    every sentence, kept or not. *)
Fixpoint pick_loop (sentences picked : list jsstring) : list jsstring :=
  match sentences with
  | [] => picked
  | s :: rest =>
      let picked' :=
        if cues_test s then picked ++ [capitalize (strip_numbering s)]
        else picked in
      if 12 <=? length picked' then picked' else pick_loop rest picked'
  end.

(** What becomes of a sentence that the loop keeps: line 263 pushes it
    without its numbering and capitalised, line 267 maps the initial once
    more. *)
Definition step_of_sentence (s : jsstring) : jsstring :=
  upcase_initial (capitalize (strip_numbering s)).

Definition review_placeholder : jsstring :=
  u16 "Review ingredients and steps from the video.".
Definition follow_placeholder : jsstring := u16 "Follow the video steps.".

Definition extractSteps (text : jsstring) : list jsstring :=
  if negb (truthy text) then [review_placeholder]
  else
    let sentences := sentences_of text in
    let picked := pick_loop sentences [] in
    let picked :=
      match picked with
      | [] => [or_else (hd [] sentences) follow_placeholder]
      | _ => picked
      end in
    List.map upcase_initial picked.
End Steps.

(** ** Ingredient extraction: [extractIngredients] *)

(** A JavaScript number is a binary64. The ones that [Number] gives on a
    run of digits, with or without a fraction, are not negative: a finite
    binary64, kept by its exact value in lowest terms, or [Infinity]. *)
Inductive number :=
| Finite (q : Q)
| Infinity.

Record Ingredient := {
  quantity : option number;
  unit : option jsstring;
  item : jsstring
}.

(** [.split(/\r?\n/)]: the separator is LF, with the CR before it when there
    is one. [cur] holds the line being read, reversed; the piece after the
    last separator is always pushed (the empty string splits into one empty
    line). *)
Fixpoint split_lines (cur s : jsstring) : list jsstring :=
  match s with
  | [] => [rev cur]
  | c :: r =>
      if N.eqb c 10 then rev cur :: split_lines [] r
      else
        match r with
        | c' :: r' =>
            if N.eqb c 13 && N.eqb c' 10 then rev cur :: split_lines [] r'
            else split_lines (c :: cur) r
        | [] => split_lines (c :: cur) r
        end
  end.

(** The [lines] of [extractIngredients]; [(description || '')] is
    [description] itself on a string. *)
Definition lines_of (description : jsstring) : list jsstring :=
  List.filter truthy (List.map trim (split_lines [] description)).

(** [\b] after a pattern that ends in a letter: the next code unit is no
    word character, or the input ends. *)
Definition boundary (rest : jsstring) : bool :=
  match rest with [] => true | c :: _ => negb (is_word c) end.

(** A word of the pattern at the head of [s], under [i], then [\b]. *)
Definition word_here (w s : jsstring) : bool :=
  starts_with_ci w s && boundary (skipn (length w) s).

(** [/^ingredients\b|^ingredientes\b/i.test(l)] *)
Definition is_ingredients_header (l : jsstring) : bool :=
  word_here (u16 "ingredients") l || word_here (u16 "ingredientes") l.

(** [/^\s*-{2,}\s*$/.test(line)]: the runs are maximal, the three classes
    being disjoint. *)
Definition is_separator (line : jsstring) : bool :=
  let r := dropWhile is_ws line in
  (2 <=? length (takeWhile (N.eqb 45) r))
  && negb (truthy (dropWhile is_ws (dropWhile (N.eqb 45) r))).

(** [/^\s*(instructions|method|directions)\b/i.test(line)] *)
Definition instruction_words : list jsstring :=
  List.map u16 ["instructions"; "method"; "directions"]%string.
Definition is_instructions_header (line : jsstring) : bool :=
  existsb (fun w => word_here w (dropWhile is_ws line)) instruction_words.

(** [/[a-zA-Z]/.test(line)] *)
Definition has_letter (line : jsstring) : bool := existsb is_alpha line.

(** [lines.findIndex(p)], [None] for -1. *)
Fixpoint findIndex {A} (p : A -> bool) (l : list A) : option nat :=
  match l with
  | [] => None
  | x :: r => if p x then Some 0 else option_map S (findIndex p r)
  end.

(** *** The quantity-unit-item pattern

    [/^([0-9]+(?:\.[0-9]+)?)\s*([a-zA-Zµμ]+)?\s*(.+)$/], followed in the
    order in which the backtracking matcher explores it: every greedy
    quantifier first takes all it can and then gives back one code unit at a
    time, and an optional group is tried before it is skipped. *)

(** The alternatives of a greedy quantifier that must keep one code unit at
    least: [f k], [f (k-1)], ..., [f 1]; the first that succeeds wins. *)
Fixpoint try_desc {A} (k : nat) (f : nat -> option A) : option A :=
  match k with
  | 0 => None
  | S k' => match f k with Some x => Some x | None => try_desc k' f end
  end.

(** The same for a quantifier that may end up empty ([*]). *)
Definition try_star {A} (k : nat) (f : nat -> option A) : option A :=
  match try_desc k f with Some x => Some x | None => f 0 end.

(** [[a-zA-Zµμ]]: U+00B5 (micro sign) and U+03BC (Greek mu). *)
Definition is_unit_char (c : N) : bool :=
  is_alpha c || N.eqb c 181 || N.eqb c 956.

(** [(.+)$]: one code unit at least, none of them a line terminator, up to
    the end of the line. *)
Definition match_item (s : jsstring) : option jsstring :=
  match s with
  | [] => None
  | _ => if forallb (fun c => negb (is_line_terminator c)) s then Some s else None
  end.

(** [\s*(.+)$] *)
Definition match_ws_item (s : jsstring) : option jsstring :=
  try_star (length (takeWhile is_ws s)) (fun k => match_item (skipn k s)).

(** [([a-zA-Zµμ]+)?\s*(.+)$]: the unit captured, if the group took part. *)
Definition match_unit_item (s : jsstring) : option (option jsstring * jsstring) :=
  match
    try_desc (length (takeWhile is_unit_char s))
      (fun k => option_map (fun it => (Some (firstn k s), it))
                  (match_ws_item (skipn k s)))
  with
  | Some r => Some r
  | None => option_map (fun it => (None, it)) (match_ws_item s)
  end.

(** [\s*([a-zA-Zµμ]+)?\s*(.+)$] *)
Definition match_ws_unit_item (s : jsstring) : option (option jsstring * jsstring) :=
  try_star (length (takeWhile is_ws s)) (fun k => match_unit_item (skipn k s)).

(** The whole pattern: the three captures [m[1]], [m[2]], [m[3]]. *)
Definition match_line (s : jsstring)
  : option (jsstring * option jsstring * jsstring) :=
  try_desc (length (takeWhile is_digit s)) (fun d =>
    let rest := skipn d s in
    let no_fraction :=
      option_map (fun ui => (firstn d s, fst ui, snd ui)) (match_ws_unit_item rest) in
    match rest with
    | c :: rest' =>
        if N.eqb c 46 then
          match
            try_desc (length (takeWhile is_digit rest')) (fun f =>
              option_map (fun ui => (firstn (d + 1 + f) s, fst ui, snd ui))
                (match_ws_unit_item (skipn f rest')))
          with
          | Some r => Some r
          | None => no_fraction
          end
        else no_fraction
    | [] => no_fraction
    end).

(** The value of a run of decimal digits. *)
Definition digits_value (ds : jsstring) : N :=
  fold_left (fun a c => (10 * a + (c - 48))%N) ds 0%N.

(** The binary64 nearest to [n / d], for [0 <= n] and [0 < d], as
    round-to-nearest with ties to the even significand gives it. [l] is the
    binary exponent of [n / d]; [e] is the exponent of the last place of
    its significand of 53 bits, never below the one of the subnormal
    numbers; [m] is [n / d] in units of [2^e], rounded to an integer. A
    result of [2^1024] or more is [Infinity]. *)
Definition binary64 (n d : Z) : number :=
  if (n =? 0)%Z then Finite 0
  else
    let l0 := (Z.log2 n - Z.log2 d)%Z in
    let l :=
      if (if 0 <=? l0 then d * 2 ^ l0 <=? n else d <=? n * 2 ^ (- l0))%Z
      then l0 else (l0 - 1)%Z in
    let e := Z.max (l - 52) (-1074) in
    let a := (if 0 <=? e then n else n * 2 ^ (- e))%Z in
    let b := (if 0 <=? e then d * 2 ^ e else d)%Z in
    let m :=
      match (2 * (a mod b) ?= b)%Z with
      | Lt => (a / b)%Z
      | Gt => (a / b + 1)%Z
      | Eq => if Z.even (a / b) then (a / b)%Z else (a / b + 1)%Z
      end in
    if (0 <=? e)%Z then
      if (2 ^ 1024 <=? m * 2 ^ e)%Z then Infinity
      else Finite (inject_Z (m * 2 ^ e))
    else Finite (Qred (Qmake m (Z.to_pos (2 ^ (- e))))).

(** [Number(m[1])] on a capture of [[0-9]+(?:\.[0-9]+)?]: the binary64
    nearest to the decimal that the capture writes. The engine of Node
    rounds so whatever the number of digits; the standard asks for this up
    to twenty significant digits. *)
Definition Number (lexeme : jsstring) : number :=
  let ip := takeWhile is_digit lexeme in
  let fp := match dropWhile is_digit lexeme with 46%N :: f => f | _ => [] end in
  binary64 (Z.of_N (digits_value (ip ++ fp))) (10 ^ Z.of_nat (length fp)).

(** [line.replace(/^[\-•\*]\s*/, '')]: U+2022 is the bullet. *)
Definition strip_bullet (line : jsstring) : jsstring :=
  match line with
  | c :: r => if N.eqb c 45 || N.eqb c 8226 || N.eqb c 42 then trimStart r else line
  | [] => []
  end.

(** What the loop pushes for a line it keeps; [m[2] || null] is [m[2]]
    itself, a capture that took part being non-empty. *)
Definition ingredient_of_line (line : jsstring) : Ingredient :=
  match match_line line with
  | Some (q, u, it) => {| quantity := Some (Number q); unit := u; item := it |}
  | None => {| quantity := None; unit := None; item := strip_bullet line |}
  end.

(** The lines that the loop turns into an ingredient: neither skipped nor
    the end of the section. *)
Definition kept_line (line : jsstring) : bool :=
  negb (is_separator line) && negb (is_instructions_header line) && has_letter line.

(** The [for] loop of [extractIngredients]. *)
Fixpoint ingredients_loop (candidates : list jsstring) (items : list Ingredient)
  : list Ingredient :=
  match candidates with
  | [] => items
  | line :: rest =>
      if is_separator line then ingredients_loop rest items
      else if is_instructions_header line then items
      else if negb (has_letter line) then ingredients_loop rest items
      else
        let items' := items ++ [ingredient_of_line line] in
        if 50 <=? length items' then items' else ingredients_loop rest items'
  end.

Definition extractIngredients (description : jsstring) : list Ingredient :=
  let lines := lines_of description in
  let candidates :=
    match findIndex is_ingredients_header lines with
    | Some startIdx => skipn (startIdx + 1) lines
    | None => lines
    end in
  ingredients_loop candidates [].

(** ** JSON values and the values of untyped code *)

(** How a JavaScript evaluation ends: with a value, or with an exception
    (a rejected promise, for an [async] function). *)
Inductive completion (A : Type) : Type :=
| Returns (a : A)
| Throws.
Arguments Returns {A} a.
Arguments Throws {A}.

(** A value that [JSON.parse] gives. [JNum q]: a number whose text denotes
    the rational [q]; what the platform makes of it (its binary64, its
    printing) is the platform's. [JObj] lists the members in the order of
    the text. *)
#[warnings="-register-all"]
Inductive json :=
| JNull
| JBool (b : bool)
| JNum (q : Q)
| JStr (s : jsstring)
| JArr (l : list json)
| JObj (members : list (jsstring * json)).

(** A JavaScript value of the scrapers: a JSON value or [undefined]
    ([None]). *)
Abbreviation jsval := (option json).

Definition jsstring_eqb (a b : jsstring) : bool :=
  if List.list_eq_dec N.eq_dec a b then true else false.

(** The value of an own property; of two members with one key the later
    wins. None of the names that the source reads ([videoDetails], [title],
    [baseUrl], ...) is a property of a prototype, so a value that is not an
    object has none of them. *)
Fixpoint member (k : jsstring) (ms : list (jsstring * json)) : jsval :=
  match ms with
  | [] => None
  | (k', v) :: r =>
      match member k r with
      | Some v' => Some v'
      | None => if jsstring_eqb k k' then Some v else None
      end
  end.
Definition property (k : jsstring) (v : json) : jsval :=
  match v with JObj ms => member k ms | _ => None end.

(** [v.k]: a [TypeError] on [null] and [undefined]. *)
Definition get (v : jsval) (k : jsstring) : completion jsval :=
  match v with
  | None | Some JNull => Throws
  | Some x => Returns (property k x)
  end.
(** [v?.k] *)
Definition opt_get (v : jsval) (k : jsstring) : jsval :=
  match v with
  | None | Some JNull => None
  | Some x => property k x
  end.

(** [ToBoolean]. A number is falsy when its binary64 is zero: when its
    magnitude is at most 2^-1075, which rounds to zero. *)
Definition to_boolean (v : jsval) : bool :=
  match v with
  | None | Some JNull => false
  | Some (JBool b) => b
  | Some (JNum q) => negb (Qle_bool (Qabs q) (1 # 2 ^ 1075))
  | Some (JStr s) => truthy s
  | Some (JArr _) | Some (JObj _) => true
  end.
(** [a || b] on values. *)
Definition or_val (a b : jsval) : jsval := if to_boolean a then a else b.
(** [a || b] with a default [b] that is there. *)
Definition or_default (a : jsval) (b : json) : json :=
  match a with
  | Some v => if to_boolean a then v else b
  | None => b
  end.
(** A string as a value. *)
Definition str (s : jsstring) : jsval := Some (JStr s).

Section Dynamic.
(** [Number.prototype.toString], the platform's. *)
Variable numberToString : Q -> jsstring.

(** [ToString] on a JSON value. An array prints its elements joined by
    commas, [null] as nothing; an object prints as [[object Object]], unless
    it has a member [toString] of its own, which is not callable and leaves
    nothing to call: a [TypeError]. *)
Fixpoint to_string (v : json) : completion jsstring :=
  match v with
  | JNull => Returns (u16 "null")
  | JBool true => Returns (u16 "true")
  | JBool false => Returns (u16 "false")
  | JNum q => Returns (numberToString q)
  | JStr s => Returns s
  | JArr l =>
      (fix elements (l : list json) : completion jsstring :=
         match l with
         | [] => Returns []
         | x :: r =>
             match (match x with JNull => Returns [] | _ => to_string x end) with
             | Throws => Throws
             | Returns sx =>
                 match r with
                 | [] => Returns sx
                 | _ =>
                     match elements r with
                     | Throws => Throws
                     | Returns sr => Returns (sx ++ u16 "," ++ sr)
                     end
                 end
             end
         end) l
  | JObj ms =>
      match member (u16 "toString") ms with
      | Some _ => Throws
      | None => Returns (u16 "[object Object]")
      end
  end.

(** [ToString] on a value: [undefined] prints as such. *)
Definition to_string_val (v : jsval) : completion jsstring :=
  match v with None => Returns (u16 "undefined") | Some x => to_string x end.
End Dynamic.

(** ** The recipe: [synthesizeRecipe], [fallbackRecipe] *)

Record Step := { n : nat; text : jsstring }.
Record Time := { total : jsstring; active : jsstring }.
(** [title] is a string by its declared type only: the Source Resolver
    hands on what the page holds, and the field keeps that value. *)
Record Recipe := {
  title : json;
  servings : nat;
  time : Time;
  ingredients : list Ingredient;
  equipment : list jsstring;
  steps : list Step;
  notes : list jsstring;
  allergens : list jsstring
}.

(** The em dash of the [time] fields, U+2014. *)
Definition dash : jsstring := [8212%N].

(** [steps.map((t, idx) => ({ n: idx + 1, text: t }))], from index [idx]. *)
Fixpoint number_steps (idx : nat) (l : list jsstring) : list Step :=
  match l with
  | [] => []
  | t :: r => {| n := idx + 1; text := t |} :: number_steps (S idx) r
  end.

Definition fallbackRecipe (message : jsstring) : Recipe :=
  {| title := JStr (u16 "Recipe");
     servings := 2;
     time := {| total := dash; active := dash |};
     ingredients := [];
     equipment := [];
     steps := [{| n := 1; text := message |}];
     notes := [];
     allergens := [] |}.

Section Synthesis.
Variable toUpperCase : jsstring -> jsstring.

(** The argument object [{ title, description, transcriptText }], field by
    field. [title_] is any value, as the caller passes it; [description] is
    the text that [extractIngredients] splits and [extractSteps] reads, see
    [description_text]. *)
Definition synthesizeRecipe (title_ : jsval) (description transcriptText : jsstring)
  : Recipe :=
  {| title := or_default title_ (JStr (u16 "Recipe"));
     servings := 4;
     time := {| total := dash; active := dash |};
     ingredients := extractIngredients description;
     equipment := [];
     steps := number_steps 0 (extractSteps toUpperCase (or_else transcriptText description));
     notes := [];
     allergens := [] |}.
End Synthesis.

(** ** Renderers: [renderMarkdown], [renderTxt] *)

(** A number that is a small natural ([servings], [n]) prints as its
    decimal digits. *)
Definition show_nat (k : nat) : jsstring :=
  u16 (NilZero.string_of_uint (Nat.to_uint k)).

Definition LF : jsstring := [10%N].

Section Render.
(** [Number.prototype.toString], the platform's, on the finite binary64
    nearest to its argument. *)
Variable numberToString : Q -> jsstring.

(** A [quantity] in a template: a finite number as the platform prints
    it, [Infinity] by its name. *)
Definition print_number (x : number) : jsstring :=
  match x with
  | Finite q => numberToString q
  | Infinity => u16 "Infinity"
  end.

(** [`- ${i.quantity ?? ''} ${i.unit ?? ''} ${i.item}`.trim()] *)
Definition render_ingredient (i : Ingredient) : jsstring :=
  trim (u16 "- "
        ++ match quantity i with Some q => print_number q | None => [] end
        ++ u16 " "
        ++ match unit i with Some u => u | None => [] end
        ++ u16 " " ++ item i).

(** [`${s.n}. ${s.text}`] *)
Definition render_step (s : Step) : jsstring :=
  show_nat (n s) ++ u16 ". " ++ text s.

(** [`# ${r.title}...`]: the template prints the title, which fails on
    a value without a printing. *)
Definition renderMarkdown (r : Recipe) : completion jsstring :=
  let ing := join LF (List.map render_ingredient (ingredients r)) in
  let steps_ := join LF (List.map render_step (steps r)) in
  match to_string numberToString (title r) with
  | Throws => Throws
  | Returns title_text =>
      Returns (u16 "# " ++ title_text ++ LF ++ LF
               ++ u16 "**Servings:** " ++ show_nat (servings r) ++ LF ++ LF ++ LF
               ++ u16 "## Ingredients" ++ LF ++ ing ++ LF ++ LF
               ++ u16 "## Instructions" ++ LF ++ steps_ ++ LF)
  end.

Definition renderTxt (r : Recipe) : completion jsstring :=
  let ing := join LF (List.map render_ingredient (ingredients r)) in
  let steps_ := join LF (List.map render_step (steps r)) in
  match to_string numberToString (title r) with
  | Throws => Throws
  | Returns title_text =>
      Returns (title_text ++ LF
               ++ u16 "Servings: " ++ show_nat (servings r) ++ LF ++ LF
               ++ u16 "Ingredients" ++ LF ++ ing ++ LF ++ LF
               ++ u16 "Instructions" ++ LF ++ steps_ ++ LF)
  end.
End Render.

(** ** The platform: completions, the network, JSON values *)

(** A [Response]: its [ok] flag and what [text()] gives, [None] when
    reading the body fails. *)
Record Response := { ok : bool; body : option jsstring }.

(** A call of [fetch]: the URL and the [accept-language] header, if set. *)
Record Request := { req_url : jsstring; accept_language : option jsstring }.

(** The network. What it answers is not the program's to decide: [pending]
    scripts the outcomes of the calls of [fetch] to come, in order ([None]:
    the promise is rejected; so is every call past the end of the script),
    and [log] keeps the requests made so far. Every behaviour of a real
    network towards one run is one such script. *)
Record World := { pending : list (option Response); log : list Request }.

(** Awaited code: it reads and changes the world, and returns or throws. *)
Definition Js (A : Type) : Type := World -> completion A * World.

Definition ret {A} (a : A) : Js A := fun w => (Returns a, w).
Definition throw {A} : Js A := fun w => (Throws, w).
Definition bind {A B} (m : Js A) (k : A -> Js B) : Js B :=
  fun w => match m w with
           | (Returns a, w') => k a w'
           | (Throws, w') => (Throws, w')
           end.
(** [try { m } catch { h }] *)
Definition try_catch {A} (m h : Js A) : Js A :=
  fun w => match m w with
           | (Returns a, w') => (Returns a, w')
           | (Throws, w') => h w'
           end.
(** A pure evaluation that may throw, inside awaited code. *)
Definition lift {A} (c : completion A) : Js A := fun w => (c, w).

Notation "x <- m ;; k" := (bind m (fun x => k))
  (at level 100, m at next level, right associativity).

(** The world after one more request. *)
Definition advance (r : Request) (w : World) : World :=
  {| pending := tl (pending w); log := log w ++ [r] |}.

(** [await fetch(url, ...)] *)
Definition fetch (r : Request) : Js Response :=
  fun w =>
    match pending w with
    | Some resp :: _ => (Returns resp, advance r w)
    | _ => (Throws, advance r w)
    end.

(** A network on which every request fails from now on. *)
Definition silent (w : World) : Prop :=
  List.Forall (fun o => o = None) (pending w).

(** [await resp.text()] *)
Definition text_of (resp : Response) : Js jsstring :=
  match body resp with Some s => ret s | None => throw end.

(** ** Regular expressions over a whole text *)

(** [s.match(re)] without the [g] flag: the match at the leftmost position
    that has one; [m] is the expression anchored at the head of its
    argument. *)
Fixpoint match_first {A} (m : jsstring -> option A) (s : jsstring) : option A :=
  match m s with
  | Some x => Some x
  | None => match s with [] => None | _ :: r => match_first m r end
  end.

(** [re.test(s)] for an expression that is not anchored. *)
Definition test_anywhere (m : jsstring -> bool) (s : jsstring) : bool :=
  match match_first (fun t => if m t then Some tt else None) s with
  | Some _ => true
  | None => false
  end.

(** A lazy [[\s\S]*?] before a continuation: the shortest prefix after
    which [stop] holds. *)
Fixpoint lazy_until (stop : jsstring -> bool) (s : jsstring) : option jsstring :=
  if stop s then Some []
  else match s with
       | [] => None
       | c :: r => option_map (cons c) (lazy_until stop r)
       end.

(** [s.matchAll(re)] and [s.replace(re, by)] with the [g] flag, for an
    expression that matches no empty string: [m] gives what a match at the
    head yields and how many code units it takes; the scan resumes after the
    match, [skip] counting the code units of it still to pass. *)
Fixpoint match_all {A} (m : jsstring -> option (A * nat)) (skip : nat) (s : jsstring)
  : list A :=
  match s with
  | [] => []
  | _ :: r =>
      match skip with
      | S k => match_all m k r
      | 0 =>
          match m s with
          | Some (x, len) => x :: match_all m (len - 1) r
          | None => match_all m 0 r
          end
      end
  end.

Fixpoint replace_all (m : jsstring -> option nat) (by_ : jsstring) (skip : nat)
    (s : jsstring) : jsstring :=
  match s with
  | [] => []
  | c :: r =>
      match skip with
      | S k => replace_all m by_ k r
      | 0 =>
          match m s with
          | Some len => by_ ++ replace_all m by_ (len - 1) r
          | None => c :: replace_all m by_ 0 r
          end
      end
  end.

(** A literal pattern, as [replace_all] wants it. *)
Definition literal (p : jsstring) (s : jsstring) : option nat :=
  if starts_with p s then Some (length p) else None.

(** ** Text utilities: [decodeHtml], [vttToPlainText], [safeJson] *)

Definition quote : jsstring := [34%N].

Definition decodeHtml (s : jsstring) : jsstring :=
  let s := replace_all (literal (u16 "&amp;")) (u16 "&") 0 s in
  let s := replace_all (literal (u16 "&lt;")) (u16 "<") 0 s in
  let s := replace_all (literal (u16 "&gt;")) (u16 ">") 0 s in
  let s := replace_all (literal (u16 "&quot;")) quote 0 s in
  replace_all (literal (u16 "&#39;")) (u16 "'") 0 s.

Definition not_gt (c : N) : bool := negb (N.eqb c 62).

(** [<[^>]+>] at the head: the run of [[^>]] is maximal, and must be
    followed by [>]. *)
Definition tag_here (s : jsstring) : option nat :=
  match s with
  | c :: r =>
      if N.eqb c 60 then
        match takeWhile not_gt r, dropWhile not_gt r with
        | (_ :: _) as run, _ :: _ => Some (1 + length run + 1)
        | _, _ => None
        end
      else None
  | [] => None
  end.

(** The lines that [vttToPlainText] drops:
    [!line || /^WEBVTT/i.test(line) || /-->/.test(line) || /^\d+$/.test(line)] *)
Definition vtt_noise (line : jsstring) : bool :=
  negb (truthy line)
  || starts_with_ci (u16 "WEBVTT") line
  || test_anywhere (starts_with (u16 "-->")) line
  || (truthy line && forallb is_digit line).

Definition vttToPlainText (vtt : jsstring) : jsstring :=
  join (u16 " ")
    (List.map (fun line => replace_all tag_here [] 0 line)
       (List.filter (fun line => negb (vtt_noise line)) (split_lines [] vtt))).

(** [items.join(' ').replace(/\s+/g, ' ').trim()] *)
Definition join_items (items : list jsstring) : jsstring :=
  trim (replace_ws_runs false (join (u16 " ") items)).

(** [<text[^>]*>([\s\S]*?)<\/text>] at the head: the capture, and the
    length of the match. *)
Definition text_item_here (s : jsstring) : option (jsstring * nat) :=
  if starts_with (u16 "<text") s then
    let r := skipn 5 s in
    match dropWhile not_gt r with
    | _ :: r' =>
        match lazy_until (starts_with (u16 "</text>")) r' with
        | Some g => Some (g, 5 + length (takeWhile not_gt r) + 1 + length g + 7)
        | None => None
        end
    | [] => None
    end
  else None.

(** [Array.from(xml.matchAll(...)).map(m => decodeHtml(m[1] ?? ''))] *)
Definition text_items (xml : jsstring) : list jsstring :=
  List.map decodeHtml (match_all text_item_here 0 xml).

(** [/ytInitialPlayerResponse\s*=\s*(\{[\s\S]*?\});/] at the head: the
    capture. *)
Definition player_response_here (s : jsstring) : option jsstring :=
  if starts_with (u16 "ytInitialPlayerResponse") s then
    match dropWhile is_ws (skipn 23 s) with
    | c :: r =>
        if N.eqb c 61 then
          match dropWhile is_ws r with
          | c' :: r' =>
              if N.eqb c' 123 then
                option_map (fun x => 123%N :: x ++ [125%N])
                  (lazy_until (starts_with [125%N; 59%N]) r')
              else None
          | [] => None
          end
        else None
    | [] => None
    end
  else None.

Section Scrapers.
(** [JSON.parse], the platform's: [None] when it throws. *)
Variable JSON_parse : jsstring -> option json.
Variable numberToString : Q -> jsstring.

Definition safeJson (s : jsstring) : json :=
  match JSON_parse s with Some v => v | None => JNull end.

(** [prMatch && prMatch[1] ? safeJson(prMatch[1]) : null] *)
Definition player_response (html : jsstring) : json :=
  match match_first player_response_here html with
  | Some g => if truthy g then safeJson g else JNull
  | None => JNull
  end.

(** ** The Source Resolver: [fetchYouTubePage] *)

Definition og_property : jsstring :=
  u16 "property=" ++ quote ++ u16 "og:title" ++ quote.
Definition og_content : jsstring := u16 "content=" ++ quote.
Definition not_quote (c : N) : bool := negb (N.eqb c 34).

(** [/<meta\s+property=Qog:titleQ\s+content=Q([^Q]+)Q/i] at the head, [Q]
    standing for the double quote in this comment and the next ones. *)
Definition og_title_here (s : jsstring) : option jsstring :=
  if starts_with_ci (u16 "<meta") s then
    let r := skipn 5 s in
    if truthy (takeWhile is_ws r) && starts_with_ci og_property (dropWhile is_ws r) then
      let r := skipn (length og_property) (dropWhile is_ws r) in
      if truthy (takeWhile is_ws r) && starts_with_ci og_content (dropWhile is_ws r) then
        let r := skipn (length og_content) (dropWhile is_ws r) in
        match takeWhile not_quote r, dropWhile not_quote r with
        | (_ :: _) as g, _ :: _ => Some g
        | _, _ => None
        end
      else None
    else None
  else None.

(** [Q\s*,\s*QisCrawlableQ] at the head: what must follow the lazy capture
    of the description. *)
Definition crawlable_next (s : jsstring) : bool :=
  match s with
  | c :: r =>
      N.eqb c 34
      && match dropWhile is_ws r with
         | c' :: r' =>
             N.eqb c' 44
             && starts_with (quote ++ u16 "isCrawlable" ++ quote) (dropWhile is_ws r')
         | [] => false
         end
  | [] => false
  end.

Definition short_description_key : jsstring :=
  quote ++ u16 "shortDescription" ++ quote ++ u16 ":" ++ quote.

(** [/QshortDescriptionQ:Q([\s\S]*?)Q\s*,\s*QisCrawlableQ/] at the head. *)
Definition short_description_here (s : jsstring) : option jsstring :=
  if starts_with short_description_key s then
    lazy_until crawlable_next (skipn (length short_description_key) s)
  else None.

(** The two [replace] calls on the capture: backslash-n becomes a line
    feed, backslash-quote a quote. *)
Definition unescape_description (s : jsstring) : jsstring :=
  replace_all (literal [92%N; 34%N]) quote 0
    (replace_all (literal [92%N; 110%N]) LF 0 s).

(** The body of [fetchYouTubePage] once the page is read. The values are
    what the page gives: [title] and [description] are strings by their
    declared type only. *)
Definition page_details (html : jsstring) : completion (jsval * jsval) :=
  let pr := Some (player_response html) in
  let title0 := or_val (opt_get (opt_get pr (u16 "videoDetails")) (u16 "title"))
                  (Some (JStr [])) in
  let description0 :=
    or_val (opt_get (opt_get pr (u16 "videoDetails")) (u16 "shortDescription"))
      (Some (JStr [])) in
  let title1 :=
    if negb (to_boolean title0) then
      match match_first og_title_here html with
      | Some g => Some (JStr g)
      | None => Some (JStr (u16 "Recipe"))
      end
    else title0 in
  if negb (to_boolean description0) then
    match match_first short_description_here html with
    | Some g =>
        if truthy g then
          match JSON_parse (quote ++ unescape_description g ++ quote) with
          | Some v => Returns (title1, Some v)
          | None => Throws
          end
        else Returns (title1, description0)
    | None => Returns (title1, description0)
    end
  else Returns (title1, description0).

Definition fetchYouTubePage (url_ : jsstring) : Js (jsval * jsval) :=
  resp <- fetch {| req_url := url_; accept_language := Some (u16 "en") |} ;;
  html <- text_of resp ;;
  lift (page_details html).

(** ** The Transcript Retriever: [tryFetchYouTubeTranscript] *)

(** [[a-zA-Z0-9_-]] *)
Definition is_id_char (c : N) : bool :=
  is_alpha c || is_digit c || N.eqb c 95 || N.eqb c 45.

(** [/[?&]v=([a-zA-Z0-9_-]{6,})/] at the head. *)
Definition video_id_here (s : jsstring) : option jsstring :=
  match s with
  | c :: r =>
      if (N.eqb c 63 || N.eqb c 38) && starts_with (u16 "v=") r then
        let g := takeWhile is_id_char (skipn 2 r) in
        if 6 <=? length g then Some g else None
      else None
  | [] => None
  end.

(** [tracks.find(p)]: the first element that [p] accepts; an exception of
    [p] ends the search. *)
Fixpoint find (p : json -> completion bool) (l : list json) : completion jsval :=
  match l with
  | [] => Returns None
  | t :: r =>
      match p t with
      | Throws => Throws
      | Returns true => Returns (Some t)
      | Returns false => find p r
      end
  end.

(** [t => /^(en|en-)/i.test(t.languageCode)], and the same for [es]: the
    second alternative adds nothing to the first. *)
Definition language_is (prefix : jsstring) (t : json) : completion bool :=
  match get (Some t) (u16 "languageCode") with
  | Throws => Throws
  | Returns v =>
      match to_string_val numberToString v with
      | Throws => Throws
      | Returns s => Returns (starts_with_ci prefix s)
      end
  end.

(** [b.includes('?')]: of a string, of an array; anything else has no such
    method. *)
Definition includes_question (b : jsval) : completion bool :=
  match b with
  | Some (JStr s) => Returns (existsb (N.eqb 63) s)
  | Some (JArr l) =>
      Returns (existsb (fun x => match x with
                                 | JStr [c] => N.eqb c 63
                                 | _ => false
                                 end) l)
  | _ => Throws
  end.

Definition watch_url (videoId : jsstring) : jsstring :=
  u16 "https://www.youtube.com/watch?v=" ++ videoId.

(** [encodeURIComponent] leaves the five language codes as they are. *)
Definition timedtext_url (lang videoId : jsstring) : jsstring :=
  u16 "https://www.youtube.com/api/timedtext?lang=" ++ lang ++ u16 "&v=" ++ videoId.

Definition plain (u : jsstring) : Request :=
  {| req_url := u; accept_language := None |}.

(** The first [try] block. [Some s]: the block returns [s] from the
    function; [None]: control leaves the block at its end. *)
Definition caption_tracks_attempt (videoId : jsstring) : Js (option jsstring) :=
  resp <- fetch {| req_url := watch_url videoId; accept_language := Some (u16 "en") |} ;;
  watchHtml <- text_of resp ;;
  let pr := Some (player_response watchHtml) in
  let tracks :=
    opt_get (opt_get (opt_get pr (u16 "captions"))
               (u16 "playerCaptionsTracklistRenderer")) (u16 "captionTracks") in
  match tracks with
  | Some (JArr (t0 :: ts)) =>
      en <- lift (find (language_is (u16 "en")) (t0 :: ts)) ;;
      preferred <-
        (if to_boolean en then ret en
         else es <- lift (find (language_is (u16 "es")) (t0 :: ts)) ;;
              ret (or_val es (Some t0))) ;;
      let baseUrl := opt_get preferred (u16 "baseUrl") in
      if to_boolean baseUrl then
        has_query <- lift (includes_question baseUrl) ;;
        base <- lift (to_string_val numberToString baseUrl) ;;
        let vttUrl := base ++ (if has_query then u16 "&" else u16 "?") ++ u16 "fmt=vtt" in
        vttResp <- fetch (plain vttUrl) ;;
        from_vtt <-
          (if ok vttResp then
             vtt <- text_of vttResp ;;
             let merged := vttToPlainText vtt in
             ret (if truthy (trim merged) then Some merged else None)
           else ret None) ;;
        match from_vtt with
        | Some merged => ret (Some merged)
        | None =>
            xmlResp <- fetch (plain base) ;;
            if ok xmlResp then
              xml <- text_of xmlResp ;;
              let items := text_items xml in
              ret (match items with [] => None | _ => Some (join_items items) end)
            else ret None
        end
      else ret None
  | _ => ret None
  end.

(** One turn of the [for] loop over the language codes: [Some s] returns
    [s] from the function, [None] goes on to the next code. *)
Definition timedtext_attempt (videoId lang : jsstring) : Js (option jsstring) :=
  r <- fetch (plain (timedtext_url lang videoId)) ;;
  if negb (ok r) then ret None
  else
    xml <- text_of r ;;
    if negb (test_anywhere (starts_with (u16 "<text")) xml) then ret None
    else
      let items := text_items xml in
      ret (match items with [] => None | _ => Some (join_items items) end).

Definition langs : list jsstring :=
  List.map u16 ["en"; "en-US"; "en-GB"; "es"; "es-419"]%string.

Fixpoint timedtext_loop (videoId : jsstring) (codes : list jsstring) : Js jsstring :=
  match codes with
  | [] => ret []
  | lang :: rest =>
      r <- try_catch (timedtext_attempt videoId lang) (ret None) ;;
      match r with
      | Some s => ret s
      | None => timedtext_loop videoId rest
      end
  end.

Definition tryFetchYouTubeTranscript (url_ : jsstring) : Js jsstring :=
  match match_first video_id_here url_ with
  | None => ret []
  | Some videoId =>
      r <- try_catch (caption_tracks_attempt videoId) (ret None) ;;
      match r with
      | Some s => ret s
      | None => timedtext_loop videoId langs
      end
  end.
End Scrapers.

(** ** The in-memory state and the routes [/start-job], [/get-recipe] *)

Inductive SourceType := file | url.

Record UploadRecord := {
  source_type : SourceType;
  source_url : option jsstring;
  filename : jsstring;
  size_bytes : Z
}.

Record JobResult := {
  recipe_json : Recipe;
  markdown : jsstring;
  txt : jsstring
}.

(** The two module-level [Map]s. *)
Record Store := {
  uploads : gmap jsstring UploadRecord;
  jobResults : gmap jsstring JobResult
}.

(** [jobResults.set(job_id, r)] *)
Definition set_result (job_id : jsstring) (r : JobResult) (st : Store) : Store :=
  {| uploads := uploads st; jobResults := <[job_id := r]> (jobResults st) |}.

(** What the handler stores at once for a file upload and for an unknown
    upload id. *)
Definition not_implemented_result : JobResult :=
  {| recipe_json := fallbackRecipe (u16 "File processing not implemented");
     markdown := u16 "# Pending";
     txt := u16 "Pending" |}.

(** What the [catch] of the background work stores. *)
Definition failed_result : JobResult :=
  {| recipe_json := fallbackRecipe (u16 "Failed to extract content");
     markdown := u16 "# Error";
     txt := u16 "Error" |}.

(** The answer of [/start-job] and what it leaves behind: the store, and the
    URL of the background work it has launched, if any. *)
Inductive StartJob :=
| StartJobInvalid                       (* 400 invalid_request *)
| StartJobOk (job_id sse_url : jsstring) (st : Store) (launched : option jsstring).

(** [router.post('/start-job', ...)]. [upload_id] is the field of the body
    when it is a string ([StartJobReq] refuses anything else, and the empty
    string); [uuid] is the value of [randomUUID()]. *)
Definition start_job (st : Store) (upload_id : option jsstring) (uuid : jsstring)
  : StartJob :=
  match upload_id with
  | None | Some [] => StartJobInvalid
  | Some id =>
      let job_id := u16 "job_" ++ uuid in
      let sse_url := u16 "/api/jobs/" ++ job_id ++ u16 "/events" in
      match uploads st !! id with
      | Some {| source_type := url; source_url := Some (c :: u) |} =>
          StartJobOk job_id sse_url st (Some (c :: u))
      | _ =>
          StartJobOk job_id sse_url (set_result job_id not_implemented_result st) None
      end
  end.

(** The answer of [/get-recipe]. *)
Inductive GetRecipe :=
| GetRecipeInvalid                      (* 400 invalid_request *)
| GetRecipeNotReady                     (* 425 not_ready *)
| GetRecipeOk (r : JobResult).          (* 200, the stored result *)

(** [router.get('/get-recipe', ...)]; [job_id] is [req.query.job_id]. *)
Definition get_recipe (st : Store) (job_id : option jsstring) : GetRecipe :=
  match job_id with
  | None | Some [] => GetRecipeInvalid
  | Some id =>
      match jobResults st !! id with
      | None => GetRecipeNotReady
      | Some r => GetRecipeOk r
      end
  end.

(** ** The background work of [/start-job] *)

(** [(description || '')] as [extractIngredients] uses it, and
    [input.transcriptText || input.description] as [extractSteps] does when
    there is no transcript: a string is itself; any other value that is
    falsy acts as the empty string in both places; a value that is neither
    has no [split], and [None] stands for the [TypeError] of the call. *)
Definition description_text (d : jsval) : option jsstring :=
  match d with
  | Some (JStr s) => Some s
  | _ => if to_boolean d then None else Some []
  end.

Section Job.
Variable toUpperCase : jsstring -> jsstring.
Variable JSON_parse : jsstring -> option json.
Variable numberToString : Q -> jsstring.

(** The [async] closure of [/start-job], from its launch to its one write:
    the store and the network that it leaves; [st] is the store at the time
    of the write. Whatever throws inside the [try] (the two scrapers, the
    [split] of a description that is no string, the printing of the title
    in a renderer) ends in the write of the [catch]. *)
Definition run_job (source_url_ job_id : jsstring) (st : Store) (w : World)
  : Store * World :=
  match fetchYouTubePage JSON_parse source_url_ w with
  | (Throws, w1) => (set_result job_id failed_result st, w1)
  | (Returns (t, d), w1) =>
      match tryFetchYouTubeTranscript JSON_parse numberToString source_url_ w1 with
      | (Throws, w2) => (set_result job_id failed_result st, w2)
      | (Returns transcriptText, w2) =>
          match description_text d with
          | None => (set_result job_id failed_result st, w2)
          | Some description =>
              let recipe := synthesizeRecipe toUpperCase t description transcriptText in
              match renderMarkdown numberToString recipe,
                    renderTxt numberToString recipe with
              | Returns md, Returns txt_ =>
                  (set_result job_id
                     {| recipe_json := recipe; markdown := md; txt := txt_ |} st, w2)
              | _, _ => (set_result job_id failed_result st, w2)
              end
          end
      end
  end.
End Job.

(** ** A reader of JSON string literals

    [JSON.parse] on a text that is one string literal, between optional
    white space: the characters are taken as they are, a quote ends them, a
    backslash starts one of the escapes of JSON, and a control character
    (below U+0020) is refused. On any other text this reader gives [None]:
    it stands for the platform's parser on string literals only. *)

Definition hex_value (c : N) : option N :=
  if is_digit c then Some (c - 48)%N
  else if ((97 <=? c) && (c <=? 102))%N then Some (c - 87)%N
  else if ((65 <=? c) && (c <=? 70))%N then Some (c - 55)%N
  else None.

Definition hex4 (a b c d : N) : option N :=
  match hex_value a, hex_value b, hex_value c, hex_value d with
  | Some x, Some y, Some z, Some t => Some (((x * 16 + y) * 16 + z) * 16 + t)%N
  | _, _, _, _ => None
  end.

Definition simple_escape (c : N) : option N :=
  if N.eqb c 34 then Some 34%N          (* quote *)
  else if N.eqb c 92 then Some 92%N     (* backslash *)
  else if N.eqb c 47 then Some 47%N     (* slash *)
  else if N.eqb c 98 then Some 8%N      (* b *)
  else if N.eqb c 102 then Some 12%N    (* f *)
  else if N.eqb c 110 then Some 10%N    (* n *)
  else if N.eqb c 114 then Some 13%N    (* r *)
  else if N.eqb c 116 then Some 9%N     (* t *)
  else None.

(** The characters of a literal after its opening quote: the string, and
    what follows the closing quote. *)
Fixpoint literal_chars (s : jsstring) : option (jsstring * jsstring) :=
  match s with
  | [] => None
  | c :: r =>
      if N.eqb c 34 then Some ([], r)
      else if N.eqb c 92 then
        match r with
        | e :: r' =>
            if N.eqb e 117 then
              match r' with
              | h1 :: h2 :: h3 :: h4 :: r'' =>
                  match hex4 h1 h2 h3 h4, literal_chars r'' with
                  | Some u, Some (v, rest) => Some (u :: v, rest)
                  | _, _ => None
                  end
              | _ => None
              end
            else
              match simple_escape e, literal_chars r' with
              | Some u, Some (v, rest) => Some (u :: v, rest)
              | _, _ => None
              end
        | [] => None
        end
      else if (c <? 32)%N then None
      else
        match literal_chars r with
        | Some (v, rest) => Some (c :: v, rest)
        | None => None
        end
  end.

(** The white space of JSON: tab, line feed, carriage return, space. *)
Definition is_json_ws (c : N) : bool :=
  N.eqb c 9 || N.eqb c 10 || N.eqb c 13 || N.eqb c 32.

Definition json_string_literal (s : jsstring) : option json :=
  match dropWhile is_json_ws s with
  | c :: r =>
      if N.eqb c 34 then
        match literal_chars r with
        | Some (v, rest) =>
            match dropWhile is_json_ws rest with
            | [] => Some (JStr v)
            | _ => None
            end
        | None => None
        end
      else None
  | [] => None
  end.

(** The ASCII rows of the upper-casing table; every platform's table has
    them. *)
Definition ascii_rows (toUpperCase : jsstring -> jsstring) : Prop :=
  forall c, (c < 128)%N -> toUpperCase [c] = [upper c].

(** A table with these rows only, to run the definitions on ASCII text. *)
Definition asciiUpperCase (s : jsstring) : jsstring := List.map upper s.

(** ** The route [/create-upload] *)

(** The body of the request as [CreateUploadReq] reads it: each field when
    it is there and of the type that both members of the union ask for (a
    string; an integer number for [size_bytes]), [None] otherwise. *)
Record UploadBody := {
  body_filename : option jsstring;
  body_size_bytes : option Z;
  body_source_type : option jsstring;
  body_source_url : option jsstring
}.

(** The answer of [/create-upload]: the upload id, the key of the mocked
    storage fields and the store with the new record. *)
Inductive CreateUpload :=
| CreateUploadInvalid                   (* 400 invalid_request *)
| CreateUploadOk (upload_id key : jsstring) (st : Store).

Section CreateUploadRoute.
(** The check behind [z.string().url()], the validation library's. *)
Variable is_url : jsstring -> bool.

(** [CreateUploadReq.safeParse(req.body)]: the first member of the union
    wants a file of positive size and keeps the three fields it names (an
    object schema drops the others); the second wants a URL source of
    non-negative size with a well-formed [source_url]. *)
Definition CreateUploadReq (b : UploadBody) : option UploadRecord :=
  match body_filename b, body_size_bytes b, body_source_type b with
  | Some f, Some size, Some ty =>
      if jsstring_eqb ty (u16 "file") && (0 <? size)%Z then
        Some {| source_type := file; source_url := None;
                filename := f; size_bytes := size |}
      else if jsstring_eqb ty (u16 "url") && (0 <=? size)%Z then
        match body_source_url b with
        | Some u =>
            if is_url u then
              Some {| source_type := url; source_url := Some u;
                      filename := f; size_bytes := size |}
            else None
        | None => None
        end
      else None
  | _, _, _ => None
  end.

(** [router.post('/create-upload', ...)]; [uuid] is the value of
    [randomUUID()]. *)
Definition create_upload (st : Store) (b : UploadBody) (uuid : jsstring)
  : CreateUpload :=
  match CreateUploadReq b with
  | None => CreateUploadInvalid
  | Some r =>
      let upload_id := u16 "upl_" ++ uuid in
      CreateUploadOk upload_id (u16 "uploads/" ++ upload_id)
        {| uploads := <[upload_id := r]> (uploads st);
           jobResults := jobResults st |}
  end.
End CreateUploadRoute.

(** ** The event stream [/jobs/:job_id/events] *)

Definition states : list jsstring :=
  List.map u16
    ["queued"; "extracting"; "transcribing"; "understanding"; "synthesizing";
     "validating"; "completed"]%string.

(** The two chunks that one turn of the timer writes for a state:
    [event: s] and a line feed, then [data: {QstateQ:QsQ}] and two line
    feeds, [Q] standing for the double quote. *)
Definition frame (s : jsstring) : list jsstring :=
  [ u16 "event: " ++ s ++ LF;
    u16 "data: {" ++ quote ++ u16 "state" ++ quote ++ u16 ":" ++ quote ++ s ++ quote
    ++ u16 "}" ++ LF ++ LF ].

(** One subscription, with its two timers. [clock] is the time in
    milliseconds since the handler returned; [sent] is the counter [i] of
    the handler; [chunks] are the writes so far; [interval] is the time
    until the next callback of the interval timer, [None] once the timer is
    cleared; [end_timer] is the time until the pending [res.end()], [None]
    when none is pending; [ended] says that the response has been ended. *)
Record Stream := {
  clock : nat;
  sent : nat;
  chunks : list jsstring;
  interval : option nat;
  end_timer : option nat;
  ended : bool
}.

(** The stream as the handler leaves it: [setInterval(..., 600)]. *)
Definition open_stream : Stream :=
  {| clock := 0; sent := 0; chunks := []; interval := Some 600;
     end_timer := None; ended := false |}.

(** [req.on('close', () => clearInterval(interval))]: the listener runs
    when the subscriber goes away, and when the response is ended, which
    completes the request. *)
Definition close (s : Stream) : Stream :=
  {| clock := clock s; sent := sent s; chunks := chunks s; interval := None;
     end_timer := end_timer s; ended := ended s |}.

(** The callback of [setInterval]. *)
Definition callback (s : Stream) : Stream :=
  match nth_error states (sent s) with
  | None =>                             (* i >= states.length: clearInterval *)
      {| clock := clock s; sent := sent s; chunks := chunks s; interval := None;
         end_timer := end_timer s; ended := ended s |}
  | Some st =>
      {| clock := clock s; sent := sent s + 1;
         chunks := chunks s ++ frame st;
         interval := interval s;
         end_timer :=
           if sent s + 1 =? length states then Some 300 (* setTimeout(..., 300) *)
           else end_timer s;
         ended := ended s |}
  end.

(** The callback of [setTimeout]: [res.end()], and the [close] that the
    platform emits on the request that this completes. *)
Definition end_response (s : Stream) : Stream :=
  close {| clock := clock s; sent := sent s; chunks := chunks s;
           interval := interval s; end_timer := None; ended := true |}.

(** Time passes until the next timer comes due, and its callback runs;
    the interval timer is set again for 600 ms before its callback runs.
    With no timer left nothing happens any more. The two timers never come
    due together: the timeout is set by a callback of the interval, for
    half the time to the next one. *)
Definition next (s : Stream) : Stream :=
  match interval s, end_timer s with
  | None, None => s
  | Some a, None =>
      callback {| clock := clock s + a; sent := sent s; chunks := chunks s;
                  interval := Some 600; end_timer := None; ended := ended s |}
  | None, Some b =>
      end_response {| clock := clock s + b; sent := sent s; chunks := chunks s;
                      interval := None; end_timer := None; ended := ended s |}
  | Some a, Some b =>
      if b <? a then
        end_response {| clock := clock s + b; sent := sent s; chunks := chunks s;
                        interval := Some (a - b); end_timer := None;
                        ended := ended s |}
      else
        callback {| clock := clock s + a; sent := sent s; chunks := chunks s;
                    interval := Some 600; end_timer := Some (b - a);
                    ended := ended s |}
  end.

(** ** Shapes of input that the statements below speak of *)

(** Text made of one class of code units. *)
Definition all_of (f : N -> bool) (s : jsstring) : Prop :=
  List.Forall (fun c => f c = true) s.

(** A number as the lines of a description write it: digits [ip], then
    nothing or a point and more digits ([fr]). *)
Definition number_lexeme (ip fr : jsstring) : Prop :=
  ip <> [] /\ all_of is_digit ip
  /\ (fr = [] \/ exists fp, fr = 46%N :: fp /\ fp <> [] /\ all_of is_digit fp).

(** A run of [f] ends where the text ends or [f] fails. *)
Definition stops (f : N -> bool) (b : jsstring) : Prop :=
  match b with [] => True | c :: _ => f c = false end.

(** What the quantity-unit-item pattern says of a line and its three
    captures: the line is a number, white space, the unit if there is one
    (letters and the two micro signs), white space, and an item of one code
    unit at least without a line terminator. *)
Definition unit_text (u : option jsstring) : jsstring :=
  match u with Some x => x | None => [] end.
Definition decomposes (line q : jsstring) (u : option jsstring) (it : jsstring) : Prop :=
  exists ip fr w1 w2,
    q = ip ++ fr /\ number_lexeme ip fr
    /\ all_of is_ws w1 /\ all_of is_ws w2
    /\ match u with Some x => x <> [] /\ all_of is_unit_char x | None => True end
    /\ it <> [] /\ all_of (fun c => negb (is_line_terminator c)) it
    /\ line = q ++ w1 ++ unit_text u ++ w2 ++ it.

(** The elements of a list before the first one that [p] accepts. *)
Fixpoint before_first {A} (p : A -> bool) (l : list A) : list A :=
  match l with
  | [] => []
  | x :: r => if p x then [] else x :: before_first p r
  end.

(** The [candidates] of [extractIngredients]. *)
Definition candidates_of (description : jsstring) : list jsstring :=
  match findIndex is_ingredients_header (lines_of description) with
  | Some startIdx => skipn (startIdx + 1) (lines_of description)
  | None => lines_of description
  end.

(** Awaited code that makes [k] requests at most, whatever the network
    answers, and uses up one scripted outcome for each request it makes. *)
Definition requests_at_most {A} (k : nat) (m : Js A) : Prop :=
  forall w, exists extra,
    log (snd (m w)) = log w ++ extra
    /\ length extra <= k
    /\ pending (snd (m w)) = skipn (length extra) (pending w).

(** Every code unit but the ampersand. *)
Definition no_amp (c : N) : bool := negb (N.eqb c 38).

(** Text in which white space is single spaces only: every white-space
    code unit is U+0020, and no two of them are neighbours. *)
Definition single_spaced (s : jsstring) : Prop :=
  (forall c, In c s -> is_ws c = true -> c = 32%N)
  /\ (forall a x y b, s = a ++ x :: y :: b -> is_ws x = true -> is_ws y = false).

(** The same as a test, [prev] saying that white space comes just before. *)
Fixpoint single_spaced_from (prev : bool) (s : jsstring) : bool :=
  match s with
  | [] => true
  | c :: r =>
      if is_ws c then N.eqb c 32 && negb prev && single_spaced_from true r
      else single_spaced_from false r
  end.

(** Text that neither begins nor ends with white space. *)
Definition trimmed (s : jsstring) : Prop := stops is_ws s /\ stops is_ws (rev s).

(** Awaited code whose result, when it returns, satisfies [P]. *)
Definition yields {A} (P : A -> Prop) (m : Js A) : Prop :=
  forall w a w', m w = (Returns a, w') -> P a.

(** [: . )], the marks that end the numbering of a sentence. *)
Definition is_numbering_mark (c : N) : bool :=
  N.eqb c 58 || N.eqb c 46 || N.eqb c 41.

(** A text that begins with a numbering: digits, then a mark. *)
Definition numbered (s : jsstring) : Prop :=
  exists ds p rest,
    s = ds ++ p :: rest /\ ds <> [] /\ all_of is_digit ds
    /\ is_numbering_mark p = true.

(** [body] is [s] without its numbering: without the digits, the mark and
    the white space after the mark when [s] begins with a numbering, and
    [s] itself when it does not. *)
Definition without_numbering (s body : jsstring) : Prop :=
  (exists ds p ws,
      s = ds ++ p :: ws ++ body /\ ds <> [] /\ all_of is_digit ds
      /\ is_numbering_mark p = true /\ all_of is_ws ws /\ stops is_ws body)
  \/ (~ numbered s /\ body = s).

(** A text with its initial in upper case, by the ASCII table. *)
Definition initial_upper (s : jsstring) : jsstring :=
  match s with c :: r => upper c :: r | [] => [] end.

(** Every code unit but white space. *)
Definition not_ws (c : N) : bool := negb (is_ws c).

(** How the pattern cuts a word, a text without white space, that stands
    at the end of a line after a number: into the unit, when there is one,
    and the item. A word of two or more letters (ASCII letters and the two
    micro signs) gives its last letter to the item; a word of one letter is
    the item; a word that goes on after its leading letters has these as
    the unit and the rest as the item; a word that begins with anything
    else is the item. *)
Inductive word_parts : jsstring -> option jsstring -> jsstring -> Prop :=
| letters_at_least_two (w : jsstring) (z : N) :
    w <> [] -> all_of is_unit_char (w ++ [z]) ->
    word_parts (w ++ [z]) (Some w) [z]
| one_letter (z : N) :
    is_unit_char z = true ->
    word_parts [z] None [z]
| letters_and_more (u r : jsstring) :
    u <> [] -> all_of is_unit_char u ->
    r <> [] -> stops is_unit_char r -> all_of not_ws r ->
    word_parts (u ++ r) (Some u) r
| no_letter_first (r : jsstring) :
    r <> [] -> stops is_unit_char r -> all_of not_ws r ->
    word_parts r None r.

(** What follows a number and is none of its digits: no digit, no point. *)
Definition ends_number (c : N) : bool := is_digit c || N.eqb c 46.

(** A line: text without a line feed. *)
Definition no_LF (l : jsstring) : Prop := List.Forall (fun c => c <> 10%N) l.

(** What an attempt hands back: nothing, or text without a line feed. *)
Definition one_line (r : option jsstring) : Prop :=
  match r with Some s => no_LF s | None => True end.

(** ** Sample values for the worked examples *)

Definition empty_store : Store := {| uploads := ∅; jobResults := ∅ |}.

Definition file_upload : UploadRecord :=
  {| source_type := file; source_url := None;
     filename := u16 "cake.mp4"; size_bytes := 1024 |}.

(** A page without player response, whose description holds one escaped
    line feed: [QshortDescriptionQ:Qa\nbQ,QisCrawlableQ], with [Q] for the
    double quote and a backslash and an [n] between [a] and [b]. *)
Definition page_with_escaped_line_feed : jsstring :=
  short_description_key ++ [97; 92; 110; 98]%N ++ quote ++ u16 ","
  ++ quote ++ u16 "isCrawlable" ++ quote.

(** A number printer for the examples: it prints nothing. The recipes of
    the examples that are rendered have no ingredients. *)
Definition print_nothing (q : Q) : jsstring := [].

(** A stand-in for the URL check of the validation library: it accepts
    what starts with [https://]. *)
Definition sample_is_url (u : jsstring) : bool := starts_with (u16 "https://") u.

Definition sample_file_body : UploadBody :=
  {| body_filename := Some (u16 "cake.mp4"); body_size_bytes := Some 1024%Z;
     body_source_type := Some (u16 "file"); body_source_url := None |}.

Definition sample_url_body : UploadBody :=
  {| body_filename := Some (u16 "url.mp4"); body_size_bytes := Some 0%Z;
     body_source_type := Some (u16 "url");
     body_source_url := Some (u16 "https://www.youtube.com/watch?v=dQw4w9WgXcQ") |}.

(** One registered file upload, and one job already answered. *)
(** A network that fails the request for the watch page and answers the
    first request to the legacy endpoint with one caption of two lines. *)
Definition captions_on_second_request : World :=
  {| pending :=
       [ None;
         Some {| ok := true;
                 body := Some (u16 "<text>Add" ++ LF ++ u16 " salt</text>") |} ];
     log := [] |}.

(** A page with an [og:title] and nothing else, and a network that
    answers the first request with it and fails every other one. *)
Definition cake_page : jsstring :=
  u16 "<meta property=" ++ quote ++ u16 "og:title" ++ quote
  ++ u16 " content=" ++ quote ++ u16 "Cake" ++ quote ++ u16 ">".
Definition cake_network : World :=
  {| pending := [Some {| ok := true; body := Some cake_page |}]; log := [] |}.

Definition sample_store : Store :=
  {| uploads := {[ u16 "upl_1" := file_upload ]};
     jobResults := {[ u16 "job_7" := not_implemented_result ]} |}.

(** * Worked examples *)

Example extractSteps_keeps_preheat :
  extractSteps asciiUpperCase
    (u16 "Preheat the oven. Add flour and stir gently. Serve warm.")
  = [u16 "Preheat the oven."; u16 "Add flour and stir gently."; u16 "Serve warm."].
Proof. vm_compute. reflexivity. Qed.

Example sentences_of_example :
  sentences_of (u16 "Wash rice.  1) add water!   then boil it")
  = [u16 "Wash rice."; u16 "1) add water!"; u16 "then boil it"].
Proof. vm_compute. reflexivity. Qed.

Example ingredient_of_line_examples :
  List.map ingredient_of_line [u16 "2.5 kg"; u16 "3x"; u16 "* a pinch of salt"]
  = [ {| quantity := Some (Finite (5 # 2)); unit := Some (u16 "k"); item := u16 "g" |};
      {| quantity := Some (Finite 3); unit := None; item := u16 "x" |};
      {| quantity := None; unit := None; item := u16 "a pinch of salt" |} ].
Proof. vm_compute. reflexivity. Qed.

(** * The route handlers *)

(** C6, as stated, fails on a request whose upload id is the empty string:
    it matches no record, and the handler answers 400 and stores nothing. *)
Lemma C6_empty_upload_id_is_rejected :
  uploads empty_store !! ([] : jsstring) = None
  /\ start_job empty_store (Some []) (u16 "0") = StartJobInvalid.
Proof. split; reflexivity. Qed.

(** C6, amended: a start-job request with a non-empty upload id, whose upload
    record describes a file or whose upload id matches no record, is answered
    with the store already holding, under the new job id, a result whose
    recipe has exactly one step, the not-implemented message; no background
    work is launched. *)
Theorem C6_file_or_unknown_upload (st : Store) (id uuid : jsstring) :
  id <> [] ->
  (uploads st !! id = None
   \/ exists r, uploads st !! id = Some r /\ source_type r = file) ->
  exists job_id sse_url st',
    start_job st (Some id) uuid = StartJobOk job_id sse_url st' None
    /\ st' = set_result job_id not_implemented_result st
    /\ jobResults st' !! job_id = Some not_implemented_result
    /\ steps (recipe_json not_implemented_result)
       = [{| n := 1; text := u16 "File processing not implemented" |}].
Proof.
  intros Hid Hrec.
  exists (u16 "job_" ++ uuid), (u16 "/api/jobs/" ++ (u16 "job_" ++ uuid) ++ u16 "/events").
  eexists. split; [|split; [reflexivity|split; [|reflexivity]]].
  - destruct id as [|c id]; [congruence|]. unfold start_job.
    destruct Hrec as [-> | (r & -> & Hfile)]; [reflexivity|].
    destruct r as [ty su fn sz]; simpl in Hfile; subst ty. reflexivity.
  - unfold set_result; simpl. apply lookup_insert_eq.
Qed.

Lemma C6_file_or_unknown_upload_witness :
  exists job_id sse_url st',
    start_job sample_store (Some (u16 "upl_1")) (u16 "8")
    = StartJobOk job_id sse_url st' None
    /\ st' = set_result job_id not_implemented_result sample_store
    /\ jobResults st' !! job_id = Some not_implemented_result
    /\ steps (recipe_json not_implemented_result)
       = [{| n := 1; text := u16 "File processing not implemented" |}].
Proof.
  apply C6_file_or_unknown_upload.
  - discriminate.
  - right. exists file_upload. split; [apply lookup_singleton_eq | reflexivity].
Defined.

(** C7, as stated, fails on the empty job id: no result is stored under it,
    and the handler answers 400 invalid_request, not 425 not_ready. *)
Lemma C7_empty_job_id_is_invalid :
  jobResults empty_store !! ([] : jsstring) = None
  /\ get_recipe empty_store (Some []) = GetRecipeInvalid.
Proof. split; reflexivity. Qed.

(** C7, amended: for a non-empty job id, retrieval answers not-ready when no
    result is stored under the id, whatever the reason (never created, or
    not finished yet), and answers with the stored result once there is
    one; it has no other answer. *)
Theorem C7_not_ready_or_stored (st : Store) (job_id : jsstring) :
  job_id <> [] ->
  get_recipe st (Some job_id)
  = match jobResults st !! job_id with
    | None => GetRecipeNotReady
    | Some r => GetRecipeOk r
    end.
Proof.
  intros Hid. destruct job_id as [|c job_id]; [congruence|]. reflexivity.
Qed.

Lemma C7_not_ready_or_stored_witness :
  u16 "job_8" <> []
  /\ get_recipe sample_store (Some (u16 "job_8")) = GetRecipeNotReady
  /\ get_recipe sample_store (Some (u16 "job_7")) = GetRecipeOk not_implemented_result.
Proof.
  split; [discriminate|]. split.
  - rewrite C7_not_ready_or_stored by discriminate. reflexivity.
  - rewrite C7_not_ready_or_stored by discriminate. reflexivity.
Defined.

(** * Step extraction *)

Lemma asciiUpperCase_rows : ascii_rows asciiUpperCase.
Proof. intros c _. reflexivity. Qed.

(** C1, as stated, fails: the first sentence holds the cue [heat] inside
    [Preheat], and is kept. *)
Lemma C1_two_steps_refuted :
  List.map text
    (steps (synthesizeRecipe asciiUpperCase (str []) []
              (u16 "Preheat the oven. Add flour and stir gently. Serve warm.")))
  <> [u16 "Add flour and stir gently."; u16 "Serve warm."].
Proof. vm_compute. discriminate. Qed.

(** C1, amended: with empty title and description, the transcript
    "Preheat the oven. Add flour and stir gently. Serve warm." yields three
    steps, one per sentence, the first one kept for the cue [heat] that
    [Preheat] contains. *)
Theorem C1_three_steps (toUpperCase : jsstring -> jsstring) :
  ascii_rows toUpperCase ->
  cues_test (u16 "Preheat the oven.") = true
  /\ steps (synthesizeRecipe toUpperCase (str []) []
              (u16 "Preheat the oven. Add flour and stir gently. Serve warm."))
     = [ {| n := 1; text := u16 "Preheat the oven." |};
         {| n := 2; text := u16 "Add flour and stir gently." |};
         {| n := 3; text := u16 "Serve warm." |} ].
Proof.
  intros Hup. split; [reflexivity|].
  assert (HP : toUpperCase [80%N] = [80%N]) by (apply (Hup 80%N); reflexivity).
  assert (HA : toUpperCase [65%N] = [65%N]) by (apply (Hup 65%N); reflexivity).
  assert (HS : toUpperCase [83%N] = [83%N]) by (apply (Hup 83%N); reflexivity).
  assert (Hs : sentences_of
                 (u16 "Preheat the oven. Add flour and stir gently. Serve warm.")
               = [u16 "Preheat the oven."; u16 "Add flour and stir gently.";
                  u16 "Serve warm."])
    by (vm_compute; reflexivity).
  unfold synthesizeRecipe. cbn [steps].
  change (or_else (u16 "Preheat the oven. Add flour and stir gently. Serve warm.") [])
    with (u16 "Preheat the oven. Add flour and stir gently. Serve warm.").
  unfold extractSteps.
  change (negb (truthy (u16 "Preheat the oven. Add flour and stir gently. Serve warm.")))
    with false.
  cbv iota zeta. rewrite Hs.
  vm_compute. rewrite HP, HA, HS. reflexivity.
Qed.

Lemma C1_three_steps_witness :
  ascii_rows asciiUpperCase
  /\ cues_test (u16 "Preheat the oven.") = true
  /\ steps (synthesizeRecipe asciiUpperCase (str []) []
              (u16 "Preheat the oven. Add flour and stir gently. Serve warm."))
     = [ {| n := 1; text := u16 "Preheat the oven." |};
         {| n := 2; text := u16 "Add flour and stir gently." |};
         {| n := 3; text := u16 "Serve warm." |} ].
Proof.
  split; [exact asciiUpperCase_rows|].
  exact (C1_three_steps asciiUpperCase asciiUpperCase_rows).
Defined.

(** C9: with an empty transcript and an empty description the recipe has
    exactly one step, the placeholder that sends the reader back to the
    video, whatever the title. *)
Theorem C9_review_placeholder (toUpperCase : jsstring -> jsstring) (title_ : jsval) :
  steps (synthesizeRecipe toUpperCase title_ [] [])
  = [ {| n := 1; text := u16 "Review ingredients and steps from the video." |} ].
Proof. unfold synthesizeRecipe, extractSteps, or_else. simpl. reflexivity. Qed.

(** ** The loop and the numbering *)

Section StepFacts.
Variable toUpperCase : jsstring -> jsstring.

(** The loop keeps the first twelve sentences that pass the cue test. *)
Lemma pick_loop_firstn (sentences picked : list jsstring) :
  length picked < 12 ->
  pick_loop toUpperCase sentences picked
  = firstn 12 (picked ++ List.map (fun s => capitalize toUpperCase (strip_numbering s))
                           (List.filter cues_test sentences)).
Proof.
  revert picked. induction sentences as [|s rest IH]; intros picked Hlen.
  - simpl. rewrite app_nil_r. symmetry. apply firstn_all2. lia.
  - cbn [pick_loop List.filter]. destruct (cues_test s) eqn:Hcue.
    + set (x := capitalize toUpperCase (strip_numbering s)).
      cbn [List.map]. fold x.
      set (tl := List.map _ _) in *.
      destruct (12 <=? length (picked ++ [x])) eqn:Hfull.
      * apply Nat.leb_le in Hfull. rewrite length_app in Hfull. simpl in Hfull.
        change (picked ++ x :: tl) with (picked ++ [x] ++ tl).
        rewrite app_assoc, firstn_app.
        replace (12 - length (picked ++ [x])) with 0
          by (rewrite length_app; simpl; lia).
        rewrite firstn_O, app_nil_r. symmetry. apply firstn_all2.
        rewrite length_app. simpl. lia.
      * apply Nat.leb_gt in Hfull. rewrite IH by exact Hfull.
        rewrite <- app_assoc. reflexivity.
    + destruct (12 <=? length picked) eqn:Hfull.
      * apply Nat.leb_le in Hfull. lia.
      * apply IH. exact Hlen.
Qed.

Lemma number_steps_length (l : list jsstring) (idx : nat) :
  length (number_steps idx l) = length l.
Proof. revert idx. induction l as [|t r IH]; intros idx; simpl; auto. Qed.

Lemma number_steps_text (l : list jsstring) (idx : nat) :
  List.map text (number_steps idx l) = l.
Proof. revert idx. induction l as [|t r IH]; intros idx; simpl; f_equal; auto. Qed.

Lemma number_steps_n (l : list jsstring) (idx i : nat) (st : Step) :
  nth_error (number_steps idx l) i = Some st -> n st = idx + i + 1.
Proof.
  revert idx i. induction l as [|t r IH]; intros idx i H.
  - destruct i; discriminate.
  - destruct i as [|i]; simpl in H.
    + injection H as <-. simpl. lia.
    + apply IH in H. lia.
Qed.

Lemma filter_sublist (f : jsstring -> bool) (l : list jsstring) :
  sublist (List.filter f l) l.
Proof.
  induction l as [|x l IH]; simpl.
  - constructor.
  - destruct (f x); constructor; exact IH.
Qed.
End StepFacts.

(** ** The cue test survives the clean-up of a kept sentence *)

Lemma cue_words_start_lower :
  Forall (fun w => exists a w', w = a :: w' /\ is_lower a = true) cue_words.
Proof. repeat constructor; eexists; eexists; split; reflexivity. Qed.

Lemma eq_ci_lower_alpha (a c : N) :
  is_lower a = true -> eq_ci a c = true -> is_alpha c = true.
Proof.
  unfold eq_ci, lower, is_alpha, is_lower, is_upper.
  intros Ha H.
  apply andb_true_iff in Ha as [Ha1 Ha2].
  apply N.leb_le in Ha1, Ha2.
  destruct ((65 <=? a)%N && (a <=? 90)%N) eqn:Hua.
  { apply andb_true_iff in Hua as [_ Hua]. apply N.leb_le in Hua. lia. }
  destruct ((65 <=? c)%N && (c <=? 90)%N) eqn:Huc; [apply orb_true_r|].
  apply N.eqb_eq in H. subst c.
  rewrite orb_false_r. apply andb_true_iff. split; apply N.leb_le; lia.
Qed.

Lemma cue_here_alpha (c : N) (r : jsstring) :
  cue_here (c :: r) = true -> is_alpha c = true.
Proof.
  unfold cue_here. intros H. apply existsb_exists in H as (w & Hw & Hs).
  destruct (proj1 (List.Forall_forall _ _) cue_words_start_lower w Hw)
    as (a & w' & -> & Ha).
  simpl in Hs. apply andb_true_iff in Hs as [Hs _].
  eapply eq_ci_lower_alpha; eauto.
Qed.

Lemma cue_here_nil : cue_here [] = false.
Proof. reflexivity. Qed.

Lemma starts_with_ci_fold (w : jsstring) (c c' : N) (r : jsstring) :
  lower c = lower c' -> starts_with_ci w (c :: r) = starts_with_ci w (c' :: r).
Proof. intros H. destruct w as [|a w]; simpl; [reflexivity|]. unfold eq_ci. rewrite H. reflexivity. Qed.

Lemma cue_here_fold (c c' : N) (r : jsstring) :
  lower c = lower c' -> cue_here (c :: r) = cue_here (c' :: r).
Proof.
  intros H. unfold cue_here. induction cue_words as [|w ws IH]; simpl; [reflexivity|].
  rewrite (starts_with_ci_fold w c c' r H), IH. reflexivity.
Qed.

Lemma lower_upper (c : N) : lower (upper c) = lower c.
Proof.
  unfold lower, upper, is_lower, is_upper.
  destruct ((97 <=? c)%N && (c <=? 122)%N) eqn:Hl.
  - apply andb_true_iff in Hl as [H1 H2]. apply N.leb_le in H1, H2.
    replace ((65 <=? c - 32)%N && (c - 32 <=? 90)%N) with true
      by (symmetry; apply andb_true_iff; split; apply N.leb_le; lia).
    replace ((65 <=? c)%N && (c <=? 90)%N) with false
      by (symmetry; apply andb_false_iff; right; apply N.leb_gt; lia).
    lia.
  - reflexivity.
Qed.

Lemma alpha_is_ascii (c : N) : is_alpha c = true -> (c < 128)%N.
Proof.
  unfold is_alpha, is_lower, is_upper. intros H.
  apply orb_true_iff in H as [H|H]; apply andb_true_iff in H as [_ H];
    apply N.leb_le in H; lia.
Qed.

Lemma cues_test_cons (c : N) (r : jsstring) :
  cues_test (c :: r) = cue_here (c :: r) || cues_test r.
Proof. reflexivity. Qed.

Lemma cues_test_app_r (a b : jsstring) :
  cues_test b = true -> cues_test (a ++ b) = true.
Proof.
  intros H. induction a as [|c a IH]; [exact H|].
  change ((c :: a) ++ b) with (c :: (a ++ b)).
  rewrite cues_test_cons, IH. apply orb_true_r.
Qed.

Lemma cues_test_skip (c : N) (r : jsstring) :
  is_alpha c = false -> cues_test (c :: r) = cues_test r.
Proof.
  intros H. rewrite cues_test_cons.
  destruct (cue_here (c :: r)) eqn:Hc; [|reflexivity].
  apply cue_here_alpha in Hc. congruence.
Qed.

Lemma ws_not_alpha (c : N) : is_ws c = true -> is_alpha c = false.
Proof.
  unfold is_ws, is_alpha, is_lower, is_upper. intros H.
  destruct ((97 <=? c)%N && (c <=? 122)%N) eqn:Hl;
    [apply andb_true_iff in Hl as [H1 H2]; apply N.leb_le in H1, H2|];
  (destruct ((65 <=? c)%N && (c <=? 90)%N) eqn:Hu;
    [apply andb_true_iff in Hu as [H3 H4]; apply N.leb_le in H3, H4|]);
  try reflexivity; exfalso;
  repeat (apply orb_true_iff in H as [H|H]);
  try (apply andb_true_iff in H as [Ha Hb]; apply N.leb_le in Ha, Hb);
  try apply N.eqb_eq in H; lia.
Qed.

Lemma digit_not_alpha (c : N) : is_digit c = true -> is_alpha c = false.
Proof.
  unfold is_digit, is_alpha, is_lower, is_upper. intros H.
  apply andb_true_iff in H as [H1 H2]. apply N.leb_le in H1, H2.
  apply orb_false_iff. split; apply andb_false_iff.
  - left. apply N.leb_gt. lia.
  - left. apply N.leb_gt. lia.
Qed.

Lemma cues_test_trimStart (s : jsstring) : cues_test (trimStart s) = cues_test s.
Proof.
  induction s as [|c r IH]; [reflexivity|].
  cbn [trimStart]. destruct (is_ws c) eqn:Hw; [|reflexivity].
  rewrite IH. symmetry. apply cues_test_skip, ws_not_alpha, Hw.
Qed.

Lemma cues_test_drop_digits (s : jsstring) :
  cues_test (dropWhile is_digit s) = cues_test s.
Proof.
  induction s as [|c r IH]; [reflexivity|].
  cbn [dropWhile]. destruct (is_digit c) eqn:Hd; [|reflexivity].
  rewrite IH. symmetry. apply cues_test_skip, digit_not_alpha, Hd.
Qed.

Lemma cues_test_strip_numbering (s : jsstring) :
  cues_test (strip_numbering s) = cues_test s.
Proof.
  unfold strip_numbering.
  destruct (takeWhile is_digit s) as [|d ds]; [reflexivity|].
  destruct (dropWhile is_digit s) as [|c r] eqn:Hdrop; [reflexivity|].
  destruct (N.eqb c 58 || N.eqb c 46 || N.eqb c 41) eqn:Hp; [|reflexivity].
  rewrite cues_test_trimStart, <- (cues_test_drop_digits s), Hdrop.
  symmetry. apply cues_test_skip.
  unfold is_alpha, is_lower, is_upper.
  repeat (apply orb_true_iff in Hp as [Hp|Hp]); apply N.eqb_eq in Hp; subst c; reflexivity.
Qed.

Section CuePreserved.
Variable toUpperCase : jsstring -> jsstring.
Hypothesis rows : ascii_rows toUpperCase.

Lemma cues_test_upper_head (c : N) (r : jsstring) :
  cues_test (c :: r) = true -> cues_test (upper c :: r) = true.
Proof.
  rewrite !cues_test_cons. intros H.
  apply orb_true_iff in H as [H|H]; [|rewrite H; apply orb_true_r].
  rewrite (cue_here_fold (upper c) c r (lower_upper c)), H. reflexivity.
Qed.

Lemma cues_test_capitalize (s : jsstring) :
  cues_test s = true -> cues_test (capitalize toUpperCase s) = true.
Proof.
  destruct s as [|c r]; [discriminate|]. intros H.
  change (capitalize toUpperCase (c :: r)) with (toUpperCase [c] ++ r).
  rewrite cues_test_cons in H. apply orb_true_iff in H as [H|H].
  - rewrite rows by (apply alpha_is_ascii; eapply cue_here_alpha; exact H).
    apply cues_test_upper_head. rewrite cues_test_cons, H. reflexivity.
  - apply cues_test_app_r, H.
Qed.

Lemma cues_test_upcase_initial (s : jsstring) :
  cues_test s = true -> cues_test (upcase_initial toUpperCase s) = true.
Proof.
  destruct s as [|c r]; [discriminate|]. intros H.
  unfold upcase_initial. destruct (is_lower c) eqn:Hl; [|exact H].
  rewrite rows by (apply alpha_is_ascii; unfold is_alpha; rewrite Hl; reflexivity).
  apply cues_test_upper_head, H.
Qed.
End CuePreserved.

(** ** The steps of a transcript *)

Lemma number_steps_Forall (P : jsstring -> Prop) (l : list jsstring) (idx : nat) :
  List.Forall P l -> List.Forall (fun st => P (text st)) (number_steps idx l).
Proof.
  intros H. revert idx. induction H as [|t r Ht Hr IH]; intros idx; simpl.
  - constructor.
  - constructor; [exact Ht | apply IH].
Qed.

Lemma firstn_filter_Forall (f : jsstring -> bool) (k : nat) (l : list jsstring) :
  List.Forall (fun s => f s = true) (firstn k (List.filter f l)).
Proof.
  apply Forall_take.
  induction l as [|x l IH]; simpl; [constructor|].
  destruct (f x) eqn:Hx; [constructor; assumption | exact IH].
Qed.

Lemma run_split (f : N -> bool) (s : jsstring) :
  s = takeWhile f s ++ dropWhile f s
  /\ all_of f (takeWhile f s) /\ stops f (dropWhile f s).
Proof.
  induction s as [|c r (IH1 & IH2 & IH3)]; [repeat split; constructor|].
  cbn [takeWhile dropWhile]. destruct (f c) eqn:E.
  - cbn [app]. repeat split; [congruence | constructor; assumption | assumption].
  - repeat split; [constructor | exact E].
Qed.

Lemma trimStart_stops (s : jsstring) : stops is_ws (trimStart s).
Proof.
  induction s as [|c r IH]; [exact I|]. cbn [trimStart].
  destruct (is_ws c) eqn:E; [exact IH | exact E].
Qed.

Lemma trimStart_suffix (s : jsstring) :
  exists w, s = w ++ trimStart s /\ all_of is_ws w.
Proof.
  induction s as [|c r (w & Hw & Hall)]; [exists []; split; [reflexivity | constructor]|].
  cbn [trimStart]. destruct (is_ws c) eqn:E.
  - exists (c :: w). split; [cbn; congruence | constructor; assumption].
  - exists []. split; [reflexivity | constructor].
Qed.

Lemma takeWhile_app (f : N -> bool) (a b : jsstring) :
  all_of f a -> stops f b -> takeWhile f (a ++ b) = a.
Proof.
  intros Ha Hb. induction Ha as [|c a Hc Ha IH].
  - destruct b as [|c b]; [reflexivity|]. cbn in *. rewrite Hb. reflexivity.
  - cbn [app takeWhile]. rewrite Hc, IH. reflexivity.
Qed.

Lemma dropWhile_app (f : N -> bool) (a b : jsstring) :
  all_of f a -> stops f b -> dropWhile f (a ++ b) = b.
Proof.
  intros Ha Hb. induction Ha as [|c a Hc Ha IH].
  - destruct b as [|c b]; [reflexivity|]. cbn in *. rewrite Hb. reflexivity.
  - cbn [app dropWhile]. rewrite Hc. exact IH.
Qed.

Lemma mark_not_digit (p : N) : is_numbering_mark p = true -> is_digit p = false.
Proof.
  unfold is_numbering_mark. intros H.
  apply orb_true_iff in H as [H|H]; [apply orb_true_iff in H as [H|H]|];
    apply N.eqb_eq in H; subst p; reflexivity.
Qed.

(** [strip_numbering] takes the numbering off a text that has one, and
    leaves any other text as it is. *)
Lemma strip_numbering_spec (s : jsstring) : without_numbering s (strip_numbering s).
Proof.
  unfold strip_numbering.
  destruct (run_split is_digit s) as (Hsplit & Hdig & Hstop).
  assert (Hnot : forall ds p rest,
             s = ds ++ p :: rest -> ds <> [] -> all_of is_digit ds ->
             is_numbering_mark p = true ->
             takeWhile is_digit s = ds /\ dropWhile is_digit s = p :: rest).
  { intros ds p rest -> _ Hds Hp. apply mark_not_digit in Hp.
    split; [apply takeWhile_app | apply dropWhile_app]; assumption. }
  destruct (takeWhile is_digit s) as [|d ds] eqn:Ht.
  { right. split; [|reflexivity].
    intros (ds & p & rest & E & Hne & Hds & Hp).
    destruct (Hnot ds p rest E Hne Hds Hp) as [E1 _]. congruence. }
  destruct (dropWhile is_digit s) as [|c r] eqn:Hd.
  { right. split; [|reflexivity].
    intros (ds' & p & rest & E & Hne & Hds & Hp).
    destruct (Hnot ds' p rest E Hne Hds Hp) as [_ E2]. discriminate. }
  fold (is_numbering_mark c). destruct (is_numbering_mark c) eqn:Hc.
  - left. destruct (trimStart_suffix r) as (ws & Hws & Hall).
    exists (d :: ds), c, ws. rewrite <- Hws.
    repeat split; [exact Hsplit | discriminate | exact Hdig | exact Hc | exact Hall
                  | apply trimStart_stops].
  - right. split; [|reflexivity].
    intros (ds' & p & rest & E & Hne & Hds & Hp).
    destruct (Hnot ds' p rest E Hne Hds Hp) as [_ E2]. congruence.
Qed.

Lemma upper_not_lower (c : N) : is_lower (upper c) = false.
Proof.
  unfold upper. destruct (is_lower c) eqn:E; [|exact E].
  unfold is_lower in *. apply andb_true_iff in E as [E1 E2].
  apply N.leb_le in E1, E2. apply andb_false_iff. left. apply N.leb_gt. lia.
Qed.

Lemma Forall2_map_of {A B} (R : A -> B -> Prop) (f : A -> B) (l : list A) :
  List.Forall (fun x => R x (f x)) l -> List.Forall2 R l (List.map f l).
Proof. induction 1; cbn; constructor; assumption. Qed.

Section StepShape.
Variable toUpperCase : jsstring -> jsstring.
Hypothesis rows : ascii_rows toUpperCase.

Lemma upcase_initial_upper (s : jsstring) :
  upcase_initial toUpperCase s = initial_upper s.
Proof.
  destruct s as [|c r]; [reflexivity|]. unfold upcase_initial, initial_upper.
  destruct (is_lower c) eqn:E.
  - rewrite rows by (apply alpha_is_ascii; unfold is_alpha; rewrite E; reflexivity).
    reflexivity.
  - unfold upper. rewrite E. reflexivity.
Qed.

Lemma step_of_body (c : N) (r : jsstring) :
  (c < 128)%N ->
  upcase_initial toUpperCase (capitalize toUpperCase (c :: r)) = upper c :: r.
Proof.
  intros Hc. change (capitalize toUpperCase (c :: r)) with (toUpperCase [c] ++ r).
  rewrite rows by exact Hc. cbn [app]. unfold upcase_initial.
  rewrite upper_not_lower. reflexivity.
Qed.
End StepShape.

(** C4, as stated, fails twice: a kept sentence is rewritten (here its
    initial is capitalised), so the steps are no subsequence of the
    sentences; and when no sentence holds a cue, the first sentence becomes
    the only step, without a cue. *)
Lemma C4_steps_rewritten_or_without_cue :
  ~ sublist
      (List.map text (steps (synthesizeRecipe asciiUpperCase (str []) [] (u16 "add flour."))))
      (sentences_of (u16 "add flour."))
  /\ steps (synthesizeRecipe asciiUpperCase (str []) [] (u16 "Wash rice."))
     = [ {| n := 1; text := u16 "Wash rice." |} ]
  /\ cues_test (u16 "Wash rice.") = false.
Proof.
  split; [|split; vm_compute; reflexivity].
  intros H. vm_compute in H.
  inversion H as [| x l1 l2 H1 | x l1 l2 H1]; subst.
  inversion H1.
Qed.

(** C4, amended: for a non-empty transcript, the sentences that the loop
    keeps are a subsequence of the sentence-split transcript: the first
    twelve at most that hold a cue word. When there is one, the steps are
    these sentences in order, each without its numbering (leading digits,
    one of [: . )] and the white space after it) and, when what is left
    begins with an ASCII code unit, with that initial in upper case; each
    step still holds a cue word. When there is none, the only step is the
    first sentence (or a placeholder) with its initial in upper case, cue or
    no cue. There are never more than twelve steps, and [n] is the 1-based
    position. *)
Theorem C4_steps_of_cue_sentences
    (toUpperCase : jsstring -> jsstring) (title_ : jsval)
    (description transcript : jsstring) :
  ascii_rows toUpperCase ->
  transcript <> [] ->
  let sentences := sentences_of transcript in
  let kept := firstn 12 (List.filter cues_test sentences) in
  let result := steps (synthesizeRecipe toUpperCase title_ description transcript) in
  sublist kept sentences
  /\ List.Forall (fun s => cues_test s = true) kept
  /\ length result <= 12
  /\ (forall i st, nth_error result i = Some st -> n st = i + 1)
  /\ (kept <> [] ->
        List.map text result = List.map (step_of_sentence toUpperCase) kept
        /\ List.Forall2
             (fun s t =>
                exists body,
                  without_numbering s body
                  /\ forall c r, body = c :: r -> (c < 128)%N -> t = upper c :: r)
             kept (List.map text result)
        /\ List.Forall (fun st => cues_test (text st) = true) result)
  /\ (kept = [] ->
        List.map text result
        = [initial_upper (or_else (hd [] sentences) follow_placeholder)]).
Proof.
  intros rows Hne sentences kept result.
  assert (Hres : result
                 = number_steps 0
                     (List.map (upcase_initial toUpperCase)
                        match List.map (fun s => capitalize toUpperCase (strip_numbering s)) kept with
                        | [] => [or_else (hd [] sentences) follow_placeholder]
                        | p :: ps => p :: ps
                        end)).
  { subst result. unfold synthesizeRecipe. cbn [steps].
    destruct transcript as [|c t]; [congruence|].
    change (or_else (c :: t) description) with (c :: t).
    unfold extractSteps. change (negb (truthy (c :: t))) with false. cbv iota zeta.
    fold sentences. rewrite pick_loop_firstn by (simpl; lia).
    change ([] ++ ?l) with l. rewrite firstn_map. fold kept.
    destruct (List.map _ kept); reflexivity. }
  assert (Hkept : List.Forall (fun s => cues_test s = true) kept)
    by apply firstn_filter_Forall.
  split; [|split; [exact Hkept|]].
  { transitivity (List.filter cues_test sentences);
      [apply sublist_take | apply filter_sublist]. }
  split.
  { rewrite Hres, number_steps_length, length_map.
    destruct kept as [|k ks] eqn:Hk; [simpl; lia|].
    change (length (List.map (fun s => capitalize toUpperCase (strip_numbering s)) (k :: ks)) <= 12).
    rewrite length_map, <- Hk. apply firstn_le_length. }
  split.
  { intros i st Hst. rewrite Hres in Hst. apply number_steps_n in Hst. lia. }
  split.
  - intros Hk.
    assert (Htexts : List.map text result = List.map (step_of_sentence toUpperCase) kept).
    { rewrite Hres. destruct kept as [|k ks]; [congruence|]. cbn [List.map].
      rewrite number_steps_text. cbn [List.map]. unfold step_of_sentence.
      f_equal. rewrite map_map. reflexivity. }
    split; [exact Htexts|]. split.
    + rewrite Htexts. apply Forall2_map_of.
      apply List.Forall_forall. intros s _.
      exists (strip_numbering s). split; [apply strip_numbering_spec|].
      intros c r E Hc. unfold step_of_sentence. rewrite E.
      apply step_of_body; assumption.
    + rewrite Hres. destruct kept as [|k ks]; [congruence|]. cbn [List.map].
      apply (number_steps_Forall (fun t => cues_test t = true)).
      change (List.Forall (fun t => cues_test t = true)
                (List.map (upcase_initial toUpperCase)
                   (List.map (fun s => capitalize toUpperCase (strip_numbering s)) (k :: ks)))).
      rewrite map_map. apply List.Forall_map.
      eapply List.Forall_impl; [|exact Hkept].
      intros s Hs. cbv beta.
      apply cues_test_upcase_initial; [exact rows|].
      apply cues_test_capitalize; [exact rows|].
      rewrite cues_test_strip_numbering. exact Hs.
  - intros Hk. rewrite Hres, Hk. cbn [List.map].
    rewrite number_steps_text, (upcase_initial_upper toUpperCase rows). reflexivity.
Qed.

Lemma C4_steps_of_cue_sentences_witness :
  ascii_rows asciiUpperCase
  /\ u16 "wash rice. 12) add water! Then boil it." <> []
  /\ List.map text
       (steps (synthesizeRecipe asciiUpperCase (str []) []
                 (u16 "wash rice. 12) add water! Then boil it.")))
     = [u16 "Add water!"; u16 "Then boil it."]
  /\ List.map text
       (steps (synthesizeRecipe asciiUpperCase (str []) [] (u16 "wash rice. dry it.")))
     = [u16 "Wash rice."].
Proof.
  split; [exact asciiUpperCase_rows|]. split; [discriminate|]. split.
  - destruct (C4_steps_of_cue_sentences asciiUpperCase (str []) []
                (u16 "wash rice. 12) add water! Then boil it.")
                asciiUpperCase_rows ltac:(discriminate))
      as (_ & _ & _ & _ & Hcue & _).
    destruct Hcue as (Htexts & _ & _); [vm_compute; discriminate|].
    rewrite Htexts. vm_compute. reflexivity.
  - destruct (C4_steps_of_cue_sentences asciiUpperCase (str []) []
                (u16 "wash rice. dry it.")
                asciiUpperCase_rows ltac:(discriminate))
      as (_ & _ & _ & _ & _ & Hnone).
    rewrite Hnone by (vm_compute; reflexivity). vm_compute. reflexivity.
Defined.

(** * Ingredient extraction *)

(** ** Trimming and splitting *)

Lemma trimStart_app (a b : jsstring) :
  trimStart (a ++ b)
  = match trimStart a with [] => trimStart b | _ => trimStart a ++ b end.
Proof.
  induction a as [|c a IH]; [reflexivity|].
  cbn [app trimStart]. destruct (is_ws c); [exact IH | reflexivity].
Qed.

Lemma trim_app_ws (a : jsstring) (w : N) :
  is_ws w = true -> trim (a ++ [w]) = trim a.
Proof.
  intros Hw. unfold trim, trimEnd. rewrite trimStart_app.
  destruct (trimStart a) as [|c t] eqn:Ha.
  - cbn [trimStart]. rewrite Hw. reflexivity.
  - rewrite rev_app_distr. cbn [rev app trimStart]. rewrite Hw. reflexivity.
Qed.

(** Up to the next line feed the splitter reads one line; the piece it
    pushes is the line, less a final CR. *)
Lemma split_lines_line (l cur rest : jsstring) :
  no_LF l ->
  exists p, split_lines cur (l ++ 10%N :: rest) = p :: split_lines [] rest
            /\ trim p = trim (rev cur ++ l).
Proof.
  intros Hl. revert cur. induction Hl as [|c l Hc Hl IH]; intros cur.
  - exists (rev cur). split; [reflexivity | now rewrite app_nil_r].
  - cbn [app split_lines]. apply N.eqb_neq in Hc. rewrite Hc.
    destruct l as [|c' l'].
    + cbn [app]. rewrite N.eqb_refl, andb_true_r.
      destruct (N.eqb c 13) eqn:Hcr.
      * apply N.eqb_eq in Hcr. subst c. exists (rev cur). split; [reflexivity|].
        symmetry. apply trim_app_ws. reflexivity.
      * exists (rev (c :: cur)). split; [reflexivity|]. cbn [rev]. reflexivity.
    + cbn [app]. inversion Hl as [|? ? Hc' _]; subst.
      apply N.eqb_neq in Hc'. rewrite Hc', andb_false_r.
      destruct (IH (c :: cur)) as (p & Hp & Ht). exists p. split; [exact Hp|].
      rewrite Ht. cbn [rev]. rewrite <- app_assoc. reflexivity.
Qed.

Lemma split_lines_last (l cur : jsstring) :
  no_LF l -> split_lines cur l = [rev cur ++ l].
Proof.
  intros Hl. revert cur. induction Hl as [|c l Hc Hl IH]; intros cur.
  - cbn. now rewrite app_nil_r.
  - cbn [split_lines]. apply N.eqb_neq in Hc. rewrite Hc.
    assert (Hgo : split_lines (c :: cur) l = [rev cur ++ c :: l]).
    { rewrite IH. cbn [rev]. rewrite <- app_assoc. reflexivity. }
    destruct l as [|c' l']; [exact Hgo|].
    inversion Hl as [|? ? Hc' _]; subst.
    apply N.eqb_neq in Hc'. rewrite Hc', andb_false_r. exact Hgo.
Qed.

(** The lines of a description written line by line. *)
Lemma lines_of_join (ls : list jsstring) :
  List.Forall no_LF ls ->
  lines_of (join LF ls) = List.filter truthy (List.map trim ls).
Proof.
  unfold lines_of. intros H.
  induction H as [|l ls Hl Hls IH]; [reflexivity|].
  destruct ls as [|l' ls'].
  - cbn [join]. rewrite split_lines_last by exact Hl. reflexivity.
  - change (join LF (l :: l' :: ls')) with (l ++ 10%N :: join LF (l' :: ls')).
    destruct (split_lines_line l [] (join LF (l' :: ls')) Hl) as (p & -> & Hp).
    cbn [List.map List.filter]. rewrite Hp. cbn [rev app]. rewrite IH. reflexivity.
Qed.

(** ** Headers and the loop *)

Lemma starts_with_ci_alpha (a : N) (w r : jsstring) :
  is_lower a = true -> starts_with_ci (a :: w) r = true ->
  exists c r', r = c :: r' /\ is_alpha c = true.
Proof.
  intros Ha H. destruct r as [|c r']; [discriminate|].
  cbn [starts_with_ci] in H. apply andb_true_iff in H as [H _].
  exists c, r'. split; [reflexivity|]. eapply eq_ci_lower_alpha; eauto.
Qed.

Lemma instruction_words_start_lower :
  List.Forall (fun w => exists a w', w = a :: w' /\ is_lower a = true) instruction_words.
Proof. repeat constructor; eexists; eexists; split; reflexivity. Qed.

Lemma alpha_not_dash (c : N) : is_alpha c = true -> N.eqb 45 c = false.
Proof.
  intros H. apply N.eqb_neq. intros <-. discriminate.
Qed.

Lemma instructions_header_not_separator (line : jsstring) :
  is_instructions_header line = true -> is_separator line = false.
Proof.
  unfold is_instructions_header, is_separator. intros H.
  apply existsb_exists in H as (w & Hw & H).
  destruct (proj1 (List.Forall_forall _ _) instruction_words_start_lower w Hw)
    as (a & w' & -> & Ha).
  unfold word_here in H. apply andb_true_iff in H as [H _].
  destruct (starts_with_ci_alpha a w' _ Ha H) as (c & r' & -> & Hc).
  cbn [takeWhile]. rewrite (alpha_not_dash c Hc). reflexivity.
Qed.

Lemma has_letter_truthy (l : jsstring) : has_letter l = true -> truthy l = true.
Proof. destruct l; [discriminate | reflexivity]. Qed.

Lemma kept_line_truthy (l : jsstring) : kept_line l = true -> truthy l = true.
Proof.
  unfold kept_line. intros H. apply andb_true_iff in H as [_ H].
  apply has_letter_truthy, H.
Qed.

Lemma filter_truthy_id (l : list jsstring) :
  List.Forall (fun x => truthy x = true) l -> List.filter truthy l = l.
Proof.
  induction 1 as [|x l Hx Hl IH]; [reflexivity|].
  cbn [List.filter]. rewrite Hx, IH. reflexivity.
Qed.

Lemma findIndex_first {A} (p : A -> bool) (pre : list A) (h : A) (rest : list A) :
  List.Forall (fun x => p x = false) pre -> p h = true ->
  findIndex p (pre ++ h :: rest) = Some (length pre).
Proof.
  intros Hpre Hh. induction Hpre as [|x pre Hx Hpre IH]; cbn [app findIndex length].
  - rewrite Hh. reflexivity.
  - rewrite Hx, IH. reflexivity.
Qed.

Lemma skipn_past {A} (pre : list A) (h : A) (rest : list A) :
  skipn (length pre + 1) (pre ++ h :: rest) = rest.
Proof. induction pre as [|x pre IH]; [reflexivity | exact IH]. Qed.

(** The loop turns the kept lines before the closing header into
    ingredients, up to the cap, and stops at the header. *)
Lemma ingredients_loop_section
    (body : list jsstring) (ins : jsstring) (post : list jsstring)
    (items : list Ingredient) :
  List.Forall (fun l => kept_line l = true) body ->
  is_instructions_header ins = true ->
  length items < 50 ->
  ingredients_loop (body ++ ins :: post) items
  = firstn 50 (items ++ List.map ingredient_of_line body).
Proof.
  intros Hbody Hins. revert items.
  induction Hbody as [|l body Hl Hbody IH]; intros items Hlen.
  - cbn [app ingredients_loop List.map].
    rewrite (instructions_header_not_separator ins Hins), Hins, app_nil_r.
    symmetry. apply firstn_all2. lia.
  - cbn [app ingredients_loop List.map].
    unfold kept_line in Hl.
    apply andb_true_iff in Hl as [Hl Hletter].
    apply andb_true_iff in Hl as [Hsep Hhdr].
    apply negb_true_iff in Hsep, Hhdr. rewrite Hsep, Hhdr, Hletter. cbn [negb].
    set (x := ingredient_of_line l). set (tl := List.map ingredient_of_line body).
    destruct (50 <=? length (items ++ [x])) eqn:Hfull.
    + apply Nat.leb_le in Hfull. rewrite length_app in Hfull. simpl in Hfull.
      change (items ++ x :: tl) with (items ++ [x] ++ tl).
      rewrite app_assoc, firstn_app.
      replace (50 - length (items ++ [x])) with 0
        by (rewrite length_app; simpl; lia).
      rewrite firstn_O, app_nil_r. symmetry. apply firstn_all2.
      rewrite length_app. simpl. lia.
    + apply Nat.leb_gt in Hfull. rewrite IH by exact Hfull.
      rewrite <- app_assoc. reflexivity.
Qed.

Lemma ingredients_header_truthy (l : jsstring) :
  is_ingredients_header l = true -> truthy l = true.
Proof. destruct l; [intros H; vm_compute in H; discriminate | reflexivity]. Qed.

Lemma instructions_header_truthy (l : jsstring) :
  is_instructions_header l = true -> truthy l = true.
Proof. destruct l; [intros H; vm_compute in H; discriminate | reflexivity]. Qed.

Lemma Forall_filter_map_trim (p : jsstring -> bool) (ls : list jsstring) :
  List.Forall (fun l => p (trim l) = false) ls ->
  List.Forall (fun x => p x = false) (List.filter truthy (List.map trim ls)).
Proof.
  induction 1 as [|l ls Hl Hls IH]; cbn [List.map List.filter]; [constructor|].
  destruct (truthy (trim l)); [constructor; assumption | exact IH].
Qed.

(** The lines of a description with an ingredients section: what comes
    before the header, the header, the section, the closing header, the
    rest. *)
Lemma lines_of_section (pre body post : list jsstring) (hdr ins : jsstring) :
  List.Forall no_LF (pre ++ hdr :: body ++ ins :: post) ->
  is_ingredients_header (trim hdr) = true ->
  List.Forall (fun l => kept_line (trim l) = true) body ->
  is_instructions_header (trim ins) = true ->
  lines_of (join LF (pre ++ hdr :: body ++ ins :: post))
  = List.filter truthy (List.map trim pre)
    ++ trim hdr :: (List.map trim body
    ++ trim ins :: List.filter truthy (List.map trim post)).
Proof.
  intros Hlines Hhdr Hbody Hins.
  rewrite lines_of_join by exact Hlines.
  rewrite map_app, List.filter_app. f_equal.
  cbn [List.map List.filter]. rewrite (ingredients_header_truthy _ Hhdr). f_equal.
  rewrite map_app, List.filter_app. f_equal.
  - apply filter_truthy_id, List.Forall_map.
    eapply List.Forall_impl; [|exact Hbody].
    intros l Hl. apply kept_line_truthy, Hl.
  - cbn [List.map List.filter]. rewrite (instructions_header_truthy _ Hins). reflexivity.
Qed.

(** C5: for a description given line by line, whose first ingredients
    header is followed by lines that the loop keeps and then by an
    instructions header, extraction returns one ingredient per line between
    the two headers, in order, for the first fifty of them; and the
    description of the example yields the two ingredients that the
    specification lists. *)
Theorem C5_ingredients_between_headers
    (pre body post : list jsstring) (hdr ins : jsstring) :
  List.Forall no_LF (pre ++ hdr :: body ++ ins :: post) ->
  List.Forall (fun l => is_ingredients_header (trim l) = false) pre ->
  is_ingredients_header (trim hdr) = true ->
  List.Forall (fun l => kept_line (trim l) = true) body ->
  is_instructions_header (trim ins) = true ->
  extractIngredients (join LF (pre ++ hdr :: body ++ ins :: post))
  = List.map ingredient_of_line (firstn 50 (List.map trim body))
  /\ extractIngredients
       (u16 "Ingredients" ++ LF ++ u16 "2 cups flour" ++ LF ++ u16 "1 tsp salt" ++ LF
        ++ u16 "Instructions" ++ LF ++ u16 "Mix.")
     = [ {| quantity := Some (Finite 2); unit := Some (u16 "cups"); item := u16 "flour" |};
         {| quantity := Some (Finite 1); unit := Some (u16 "tsp"); item := u16 "salt" |} ].
Proof.
  intros Hlines Hpre Hhdr Hbody Hins. split; [|vm_compute; reflexivity].
  unfold extractIngredients.
  rewrite lines_of_section by assumption.
  rewrite (findIndex_first is_ingredients_header)
    by (try apply Forall_filter_map_trim; assumption).
  rewrite skipn_past.
  rewrite ingredients_loop_section; [| |exact Hins|simpl; lia].
  - cbn [app]. apply firstn_map.
  - apply List.Forall_map. exact Hbody.
Qed.

Lemma C5_ingredients_between_headers_witness :
  extractIngredients
    (join LF ([] ++ u16 "Ingredients" :: [u16 "2 cups flour"; u16 "1 tsp salt"]
                 ++ u16 "Instructions" :: [u16 "Mix."]))
  = List.map ingredient_of_line
      (firstn 50 (List.map trim [u16 "2 cups flour"; u16 "1 tsp salt"])).
Proof.
  refine (proj1 (C5_ingredients_between_headers
                   [] [u16 "2 cups flour"; u16 "1 tsp salt"] [u16 "Mix."]
                   (u16 "Ingredients") (u16 "Instructions") _ _ _ _ _)).
  - repeat constructor; discriminate.
  - constructor.
  - vm_compute. reflexivity.
  - repeat constructor.
  - vm_compute. reflexivity.
Defined.

(** ** The quantity-unit-item pattern on a number and one word *)



Lemma skipn_length_app {A} (a b : list A) : skipn (length a) (a ++ b) = b.
Proof. induction a; [reflexivity | assumption]. Qed.


Lemma alpha_not_ws (c : N) : is_alpha c = true -> is_ws c = false.
Proof.
  intros H. destruct (is_ws c) eqn:Hw; [|reflexivity].
  apply ws_not_alpha in Hw. congruence.
Qed.

Lemma alpha_not_digit (c : N) : is_alpha c = true -> is_digit c = false.
Proof.
  intros H. destruct (is_digit c) eqn:Hd; [|reflexivity].
  apply digit_not_alpha in Hd. congruence.
Qed.

Lemma alpha_not_terminator (c : N) : is_alpha c = true -> is_line_terminator c = false.
Proof.
  intros H. apply alpha_not_ws in H. unfold is_line_terminator.
  destruct (N.eqb_spec c 10); [subst; discriminate|].
  destruct (N.eqb_spec c 13); [subst; discriminate|].
  destruct (N.eqb_spec c 8232); [subst; discriminate|].
  destruct (N.eqb_spec c 8233); [subst; discriminate|].
  reflexivity.
Qed.

Lemma ws_not_digit (c : N) : is_ws c = true -> is_digit c = false.
Proof.
  intros H. unfold is_digit.
  destruct ((48 <=? c)%N && (c <=? 57)%N) eqn:Hd; [|reflexivity].
  apply andb_true_iff in Hd as [H1 H2]. apply N.leb_le in H1, H2.
  exfalso. unfold is_ws in H.
  repeat (apply orb_true_iff in H as [H|H]);
  try (apply andb_true_iff in H as [Ha Hb]; apply N.leb_le in Ha, Hb);
  try apply N.eqb_eq in H; lia.
Qed.

(** ** A description of one such line *)

Lemma digit_not_ws (d : N) : is_digit d = true -> is_ws d = false.
Proof.
  intros H. destruct (is_ws d) eqn:Hw; [|reflexivity].
  apply ws_not_digit in Hw. congruence.
Qed.

Lemma word_here_digit (wd : jsstring) (d : N) (r : jsstring) :
  (exists a w', wd = a :: w' /\ is_lower a = true) ->
  is_digit d = true -> word_here wd (d :: r) = false.
Proof.
  intros (a & w' & -> & Ha) Hd. unfold word_here.
  destruct (starts_with_ci (a :: w') (d :: r)) eqn:Hs; [|reflexivity].
  destruct (starts_with_ci_alpha a w' _ Ha Hs) as (c & r' & E & Hc).
  injection E as <- _. apply digit_not_alpha in Hd. congruence.
Qed.

Lemma trim_kept (c z : N) (b : jsstring) :
  is_ws c = false -> is_ws z = false -> trim (c :: b ++ [z]) = c :: b ++ [z].
Proof.
  intros Hc Hz. unfold trim, trimEnd. cbn [trimStart]. rewrite Hc.
  change (c :: b ++ [z]) with ((c :: b) ++ [z]).
  rewrite rev_unit. cbn [trimStart]. rewrite Hz.
  change (rev (z :: rev (c :: b))) with (rev (rev (c :: b)) ++ [z]).
  rewrite rev_involutive. reflexivity.
Qed.



(** * The scrapers *)

(** ** The Source Resolver *)

(** C2, on the failing page: the description fallback hands its capture to
    [JSON.parse] with the escaped line feed already turned into a raw one,
    which no JSON string may hold; [JSON.parse] throws, nothing catches it,
    and [fetchYouTubePage] fails although the page was fetched. *)
Theorem C2_escaped_line_feed_throws (JSON_parse : jsstring -> option json) :
  JSON_parse (quote ++ [97; 10; 98]%N ++ quote) = None ->
  page_details JSON_parse page_with_escaped_line_feed = Throws
  /\ forall (url_ : jsstring) (w : World) (rest : list (option Response)),
       pending w = Some {| ok := true; body := Some page_with_escaped_line_feed |} :: rest ->
       fst (fetchYouTubePage JSON_parse url_ w) = Throws.
Proof.
  intros Hparse.
  assert (Hpage : page_details JSON_parse page_with_escaped_line_feed = Throws).
  { assert (Hcapture : match_first short_description_here page_with_escaped_line_feed
                       = Some [97; 92; 110; 98]%N) by (vm_compute; reflexivity).
    assert (Hraw : unescape_description [97; 92; 110; 98]%N = [97; 10; 98]%N)
      by (vm_compute; reflexivity).
    vm_compute in Hparse. vm_compute. rewrite Hparse. reflexivity. }
  split; [exact Hpage|].
  intros url_ w rest Hw. unfold fetchYouTubePage, bind, fetch.
  rewrite Hw. unfold text_of. cbn [body]. unfold ret, lift.
  rewrite Hpage. reflexivity.
Qed.

Lemma C2_escaped_line_feed_throws_witness :
  json_string_literal (quote ++ [97; 10; 98]%N ++ quote) = None
  /\ page_details json_string_literal page_with_escaped_line_feed = Throws.
Proof.
  split; [reflexivity|].
  exact (proj1 (C2_escaped_line_feed_throws json_string_literal eq_refl)).
Defined.

(** ** The Transcript Retriever *)

Section Transcript.
Variable JSON_parse : jsstring -> option json.
Variable numberToString : Q -> jsstring.

Lemma try_catch_returns {A} (m : Js (option A)) (w : World) :
  exists r w', try_catch m (ret None) w = (Returns r, w').
Proof.
  unfold try_catch, ret. destruct (m w) as [[a|] w']; eauto.
Qed.

Lemma timedtext_loop_returns (videoId : jsstring) (codes : list jsstring) (w : World) :
  exists s w', timedtext_loop videoId codes w = (Returns s, w').
Proof.
  revert w. induction codes as [|lang rest IH]; intros w.
  - exists [], w. reflexivity.
  - cbn [timedtext_loop]. unfold bind.
    destruct (try_catch_returns (timedtext_attempt videoId lang) w) as (r & w' & ->).
    destruct r as [s|]; [exists s, w'; reflexivity | apply IH].
Qed.

(** An attempt that throws is an attempt that found nothing. *)
Lemma timedtext_loop_after_throw
    (videoId lang : jsstring) (rest : list jsstring) (w w1 : World) :
  timedtext_attempt videoId lang w = (Throws, w1) ->
  timedtext_loop videoId (lang :: rest) w = timedtext_loop videoId rest w1.
Proof.
  intros H. cbn [timedtext_loop]. unfold bind, try_catch. rewrite H. reflexivity.
Qed.

Lemma fetch_rejected (r : Request) (w : World) :
  silent w -> fetch r w = (Throws, advance r w) /\ silent (advance r w).
Proof.
  unfold silent, fetch. intros H. destruct (pending w) as [|o rest] eqn:E.
  - split; [reflexivity|]. unfold advance. rewrite E. constructor.
  - inversion H as [|? ? Ho Hrest]; subst. split; [reflexivity|].
    unfold advance. rewrite E. exact Hrest.
Qed.

Lemma timedtext_loop_silent (videoId : jsstring) (codes : list jsstring) (w : World) :
  silent w ->
  exists w',
    timedtext_loop videoId codes w = (Returns [], w')
    /\ log w' = log w ++ List.map (fun lang => plain (timedtext_url lang videoId)) codes.
Proof.
  revert w. induction codes as [|lang rest IH]; intros w Hw.
  - exists w. split; [reflexivity | now rewrite app_nil_r].
  - destruct (fetch_rejected (plain (timedtext_url lang videoId)) w Hw) as [Hf Hw'].
    destruct (IH _ Hw') as (w' & Hloop & Hlog).
    exists w'. split.
    + rewrite (timedtext_loop_after_throw videoId lang rest w
                 (advance (plain (timedtext_url lang videoId)) w)); [exact Hloop|].
      unfold timedtext_attempt, bind. rewrite Hf. reflexivity.
    + rewrite Hlog. cbn [advance log List.map]. rewrite <- app_assoc. reflexivity.
Qed.

(** A string that the loop returns is empty or comes from one attempt. *)
Lemma timedtext_loop_origin
    (videoId : jsstring) (codes : list jsstring) (w w' : World) (s : jsstring) :
  timedtext_loop videoId codes w = (Returns s, w') ->
  s = []
  \/ exists lang w0 w1,
       In lang codes /\ timedtext_attempt videoId lang w0 = (Returns (Some s), w1).
Proof.
  revert w. induction codes as [|lang rest IH]; intros w H.
  - injection H as <- _. left. reflexivity.
  - cbn [timedtext_loop] in H. unfold bind, try_catch in H.
    destruct (timedtext_attempt videoId lang w) as [[[s0|]|] w1] eqn:E.
    + injection H as <- _. right. exists lang, w, w1. split; [left; reflexivity | exact E].
    + destruct (IH _ H) as [-> | (l & w0 & w2 & Hin & Ha)]; [left; reflexivity|].
      right. exists l, w0, w2. split; [right; exact Hin | exact Ha].
    + destruct (IH _ H) as [-> | (l & w0 & w2 & Hin & Ha)]; [left; reflexivity|].
      right. exists l, w0, w2. split; [right; exact Hin | exact Ha].
Qed.

(** C8: transcript retrieval always returns a string. Without a video
    identifier in the URL it returns the empty string at once, without a
    request. An exception in the caption-track attempt or in an attempt on
    the legacy endpoint only ends that attempt, and the next one is made.
    The string returned is the empty one unless one of the attempts
    returned it. When every request fails, the page and then the five
    language codes [en], [en-US], [en-GB], [es], [es-419] are tried in this
    order, and the result is the empty string. *)
Theorem C8_transcript_never_fails (url_ : jsstring) (w : World) :
  (exists s w',
      tryFetchYouTubeTranscript JSON_parse numberToString url_ w = (Returns s, w'))
  /\ (match_first video_id_here url_ = None ->
      tryFetchYouTubeTranscript JSON_parse numberToString url_ w = (Returns [], w))
  /\ (forall videoId w1,
        match_first video_id_here url_ = Some videoId ->
        caption_tracks_attempt JSON_parse numberToString videoId w = (Throws, w1) ->
        tryFetchYouTubeTranscript JSON_parse numberToString url_ w
        = timedtext_loop videoId langs w1)
  /\ (forall videoId lang rest w0 w1,
        timedtext_attempt videoId lang w0 = (Throws, w1) ->
        timedtext_loop videoId (lang :: rest) w0 = timedtext_loop videoId rest w1)
  /\ (forall s w',
        tryFetchYouTubeTranscript JSON_parse numberToString url_ w = (Returns s, w') ->
        s = []
        \/ (exists videoId w1,
              caption_tracks_attempt JSON_parse numberToString videoId w
              = (Returns (Some s), w1))
        \/ (exists videoId lang w0 w1,
              In lang langs
              /\ timedtext_attempt videoId lang w0 = (Returns (Some s), w1)))
  /\ (forall videoId,
        match_first video_id_here url_ = Some videoId ->
        silent w ->
        exists w',
          tryFetchYouTubeTranscript JSON_parse numberToString url_ w = (Returns [], w')
          /\ log w'
             = log w
               ++ {| req_url := watch_url videoId; accept_language := Some (u16 "en") |}
                  :: List.map (fun lang => plain (timedtext_url lang videoId))
                       (List.map u16 ["en"; "en-US"; "en-GB"; "es"; "es-419"]%string)).
Proof.
  split; [|split; [|split; [|split; [|split]]]].
  - unfold tryFetchYouTubeTranscript.
    destruct (match_first video_id_here url_) as [videoId|]; [|exists [], w; reflexivity].
    unfold bind.
    destruct (try_catch_returns (caption_tracks_attempt JSON_parse numberToString videoId) w)
      as (r & w' & ->).
    destruct r as [s|]; [exists s, w'; reflexivity | apply timedtext_loop_returns].
  - intros Hid. unfold tryFetchYouTubeTranscript. rewrite Hid. reflexivity.
  - intros videoId w1 Hid Hthrow. unfold tryFetchYouTubeTranscript. rewrite Hid.
    unfold bind, try_catch. rewrite Hthrow. reflexivity.
  - intros videoId lang rest w0 w1. apply timedtext_loop_after_throw.
  - intros s w' H. unfold tryFetchYouTubeTranscript in H.
    destruct (match_first video_id_here url_) as [videoId|];
      [|injection H as <- _; left; reflexivity].
    unfold bind, try_catch in H.
    destruct (caption_tracks_attempt JSON_parse numberToString videoId w)
      as [[[s0|]|] w1] eqn:E.
    + injection H as <- _. right. left. exists videoId, w1. exact E.
    + destruct (timedtext_loop_origin _ _ _ _ _ H) as [-> | (l & w0 & w2 & Hin & Ha)];
        [left; reflexivity|].
      right. right. exists videoId, l, w0, w2. split; assumption.
    + destruct (timedtext_loop_origin _ _ _ _ _ H) as [-> | (l & w0 & w2 & Hin & Ha)];
        [left; reflexivity|].
      right. right. exists videoId, l, w0, w2. split; assumption.
  - intros videoId Hid Hw. unfold tryFetchYouTubeTranscript. rewrite Hid.
    set (watch := {| req_url := watch_url videoId; accept_language := Some (u16 "en") |}).
    destruct (fetch_rejected watch w Hw) as [Hf Hw'].
    destruct (timedtext_loop_silent videoId langs _ Hw') as (w' & Hloop & Hlog).
    exists w'. split.
    + unfold bind at 1. unfold try_catch, caption_tracks_attempt, bind.
      fold watch. rewrite Hf. exact Hloop.
    + rewrite Hlog. cbn [advance log]. rewrite <- app_assoc. reflexivity.
Qed.
End Transcript.

(** * What the orchestrator stores *)

(** C3, as stated, fails on the file path (and on the failure path alike):
    the handler stores the fixed strings [# Pending] and [Pending] next to
    the fallback recipe, and no printing of numbers makes the renderers give
    these strings on that recipe. *)
Lemma C3_placeholder_exports_are_not_renderings :
  start_job sample_store (Some (u16 "upl_1")) (u16 "8")
  = StartJobOk (u16 "job_8") (u16 "/api/jobs/job_8/events")
      (set_result (u16 "job_8") not_implemented_result sample_store) None
  /\ (forall numberToString,
        renderMarkdown numberToString (recipe_json not_implemented_result)
        <> Returns (markdown not_implemented_result))
  /\ (forall numberToString,
        renderTxt numberToString (recipe_json not_implemented_result)
        <> Returns (txt not_implemented_result))
  /\ (forall numberToString,
        renderMarkdown numberToString (recipe_json failed_result)
        <> Returns (markdown failed_result)).
Proof.
  split; [vm_compute; reflexivity|].
  repeat split; intros f H; vm_compute in H; discriminate.
Qed.

Section StoredResults.
Variable toUpperCase : jsstring -> jsstring.
Variable JSON_parse : jsstring -> option json.
Variable numberToString : Q -> jsstring.

(** The renderers return when the title prints, and only then. *)
Lemma renderers_return (r : Recipe) (title_text : jsstring) :
  to_string numberToString (title r) = Returns title_text ->
  exists md txt_,
    renderMarkdown numberToString r = Returns md
    /\ renderTxt numberToString r = Returns txt_.
Proof.
  intros H. unfold renderMarkdown, renderTxt. cbv zeta. rewrite H.
  eexists. eexists. split; reflexivity.
Qed.

Lemma synthesized_is_not_fallback (t : jsval) (description transcriptText message : jsstring) :
  synthesizeRecipe toUpperCase t description transcriptText <> fallbackRecipe message.
Proof. intros E. apply (f_equal servings) in E. discriminate. Qed.

(** What a run of the background work stores: one result under the job
    id, which is the failure result or a synthesized recipe with its two
    renderings. *)
Lemma run_job_stores (source_url_ job_id : jsstring) (st : Store) (w : World) :
  exists r w',
    run_job toUpperCase JSON_parse numberToString source_url_ job_id st w
    = (set_result job_id r st, w')
    /\ (r = failed_result
        \/ (renderMarkdown numberToString (recipe_json r) = Returns (markdown r)
            /\ renderTxt numberToString (recipe_json r) = Returns (txt r)
            /\ exists t description transcriptText,
                 recipe_json r
                 = synthesizeRecipe toUpperCase t description transcriptText)).
Proof.
  unfold run_job.
  destruct (fetchYouTubePage JSON_parse source_url_ w) as [[[t d]|] w1];
    [|exists failed_result, w1; auto].
  destruct (tryFetchYouTubeTranscript JSON_parse numberToString source_url_ w1)
    as [[transcriptText|] w2]; [|exists failed_result, w2; auto].
  destruct (description_text d) as [description|]; [|exists failed_result, w2; auto].
  cbv zeta.
  destruct (renderMarkdown numberToString _) as [md|] eqn:Emd;
    [|exists failed_result, w2; auto].
  destruct (renderTxt numberToString _) as [txt_|] eqn:Etxt;
    [|exists failed_result, w2; auto].
  eexists. exists w2. split; [reflexivity|]. right. cbn [recipe_json markdown txt].
  split; [exact Emd|]. split; [exact Etxt|]. eauto.
Qed.

(** The success path: the page and the transcript are read, the
    description is text, and the title prints. *)
Lemma run_job_success
    (source_url_ job_id : jsstring) (st : Store) (w w1 w2 : World)
    (t d : jsval) (transcriptText description title_text : jsstring) :
  fetchYouTubePage JSON_parse source_url_ w = (Returns (t, d), w1) ->
  tryFetchYouTubeTranscript JSON_parse numberToString source_url_ w1
  = (Returns transcriptText, w2) ->
  description_text d = Some description ->
  to_string numberToString (or_default t (JStr (u16 "Recipe"))) = Returns title_text ->
  exists r,
    run_job toUpperCase JSON_parse numberToString source_url_ job_id st w
    = (set_result job_id r st, w2)
    /\ recipe_json r = synthesizeRecipe toUpperCase t description transcriptText
    /\ renderMarkdown numberToString (recipe_json r) = Returns (markdown r)
    /\ renderTxt numberToString (recipe_json r) = Returns (txt r)
    /\ r <> failed_result.
Proof.
  intros Hpage Htr Hd Ht. unfold run_job. rewrite Hpage, Htr, Hd. cbv zeta.
  destruct (renderers_return (synthesizeRecipe toUpperCase t description transcriptText)
              title_text Ht) as (md & txt_ & Emd & Etxt).
  rewrite Emd, Etxt. eexists. split; [reflexivity|].
  cbn [recipe_json markdown txt]. repeat split; try assumption.
  intros E. apply (f_equal recipe_json) in E. cbn [recipe_json failed_result] in E.
  exact (synthesized_is_not_fallback _ _ _ _ E).
Qed.

(** The failure path: something inside the [try] throws. *)
Lemma run_job_failure
    (source_url_ job_id : jsstring) (st : Store) (w : World) :
  (forall w1,
      fetchYouTubePage JSON_parse source_url_ w = (Throws, w1) ->
      run_job toUpperCase JSON_parse numberToString source_url_ job_id st w
      = (set_result job_id failed_result st, w1))
  /\ (forall t d w1 transcriptText w2,
        fetchYouTubePage JSON_parse source_url_ w = (Returns (t, d), w1) ->
        tryFetchYouTubeTranscript JSON_parse numberToString source_url_ w1
        = (Returns transcriptText, w2) ->
        description_text d = None
        \/ to_string numberToString (or_default t (JStr (u16 "Recipe"))) = Throws ->
        run_job toUpperCase JSON_parse numberToString source_url_ job_id st w
        = (set_result job_id failed_result st, w2)).
Proof.
  split.
  - intros w1 H. unfold run_job. rewrite H. reflexivity.
  - intros t d w1 transcriptText w2 Hpage Htr H. unfold run_job. rewrite Hpage, Htr.
    destruct H as [H|H]; [rewrite H; reflexivity|].
    destruct (description_text d) as [description|]; [|reflexivity].
    cbv zeta. unfold renderMarkdown, renderTxt. cbv zeta.
    cbn [title synthesizeRecipe]. rewrite H. reflexivity.
Qed.
End StoredResults.

(** C3, amended: on the success path of the background work (the page and
    the transcript are read, the description is text and the title prints,
    as every title that is a string does) the stored markdown and text are
    the two renderers applied to the recipe stored with them, which is the
    synthesized one. On the failure path (the page cannot be read, or the
    description has no [split], or the title has no printing) the failure
    result is stored, whose exports are the fixed strings [# Error] and
    [Error]. The handler itself stores nothing or the not-implemented
    result, whose exports are the fixed strings [# Pending] and [Pending].
    Every run of the background work stores one of the two. *)
Theorem C3_stored_exports
    (toUpperCase : jsstring -> jsstring) (JSON_parse : jsstring -> option json)
    (numberToString : Q -> jsstring) :
  (forall source_url_ job_id st w w1 w2 t d transcriptText description title_text,
      fetchYouTubePage JSON_parse source_url_ w = (Returns (t, d), w1) ->
      tryFetchYouTubeTranscript JSON_parse numberToString source_url_ w1
      = (Returns transcriptText, w2) ->
      description_text d = Some description ->
      to_string numberToString (or_default t (JStr (u16 "Recipe"))) = Returns title_text ->
      exists r,
        run_job toUpperCase JSON_parse numberToString source_url_ job_id st w
        = (set_result job_id r st, w2)
        /\ recipe_json r = synthesizeRecipe toUpperCase t description transcriptText
        /\ renderMarkdown numberToString (recipe_json r) = Returns (markdown r)
        /\ renderTxt numberToString (recipe_json r) = Returns (txt r)
        /\ r <> failed_result)
  /\ (forall s, to_string numberToString (or_default (str s) (JStr (u16 "Recipe")))
                = Returns (or_else s (u16 "Recipe")))
  /\ (forall source_url_ job_id st w,
        (forall w1,
            fetchYouTubePage JSON_parse source_url_ w = (Throws, w1) ->
            run_job toUpperCase JSON_parse numberToString source_url_ job_id st w
            = (set_result job_id failed_result st, w1))
        /\ (forall t d w1 transcriptText w2,
              fetchYouTubePage JSON_parse source_url_ w = (Returns (t, d), w1) ->
              tryFetchYouTubeTranscript JSON_parse numberToString source_url_ w1
              = (Returns transcriptText, w2) ->
              description_text d = None
              \/ to_string numberToString (or_default t (JStr (u16 "Recipe"))) = Throws ->
              run_job toUpperCase JSON_parse numberToString source_url_ job_id st w
              = (set_result job_id failed_result st, w2)))
  /\ (forall source_url_ job_id st w,
        exists r w',
          run_job toUpperCase JSON_parse numberToString source_url_ job_id st w
          = (set_result job_id r st, w')
          /\ (r = failed_result
              \/ (renderMarkdown numberToString (recipe_json r) = Returns (markdown r)
                  /\ renderTxt numberToString (recipe_json r) = Returns (txt r))))
  /\ (forall st upload_id uuid job_id sse_url st' launched,
        start_job st upload_id uuid = StartJobOk job_id sse_url st' launched ->
        (st' = st /\ launched <> None)
        \/ (st' = set_result job_id not_implemented_result st /\ launched = None))
  /\ (markdown not_implemented_result = u16 "# Pending"
      /\ txt not_implemented_result = u16 "Pending"
      /\ markdown failed_result = u16 "# Error"
      /\ txt failed_result = u16 "Error").
Proof.
  split; [|split; [|split; [|split; [|split; [|repeat split]]]]].
  - intros source_url_ job_id st w w1 w2 t d transcriptText description title_text.
    apply run_job_success.
  - intros [|c s]; reflexivity.
  - intros source_url_ job_id st w. apply run_job_failure.
  - intros source_url_ job_id st w.
    destruct (run_job_stores toUpperCase JSON_parse numberToString source_url_ job_id st w)
      as (r & w' & Hrun & Hr).
    exists r, w'. split; [exact Hrun|].
    destruct Hr as [Hr | (Hmd & Htxt & _)]; [left; exact Hr | right; split; assumption].
  - intros st upload_id uuid job_id sse_url st' launched H.
    unfold start_job in H.
    destruct upload_id as [[|c id]|]; try discriminate.
    destruct (uploads st !! (c :: id)) as [[ty su fn sz]|];
      [destruct ty; [|destruct su as [[|c' u]|]]|];
      injection H as <- <- <- <-; (left; split; [reflexivity | discriminate])
                                  || (right; split; reflexivity).
Qed.

Lemma C3_stored_exports_witness :
  exists r w',
    run_job asciiUpperCase json_string_literal print_nothing
      (u16 "https://www.youtube.com/watch?v=dQw4w9WgXcQ") (u16 "job_9") empty_store
      cake_network
    = (set_result (u16 "job_9") r empty_store, w')
    /\ r <> failed_result
    /\ recipe_json r
       = synthesizeRecipe asciiUpperCase (str (u16 "Cake")) [] []
    /\ renderMarkdown print_nothing (recipe_json r) = Returns (markdown r)
    /\ renderTxt print_nothing (recipe_json r) = Returns (txt r)
    /\ markdown r
       = u16 "# Cake" ++ LF ++ LF ++ u16 "**Servings:** 4" ++ LF ++ LF ++ LF
         ++ u16 "## Ingredients" ++ LF ++ LF ++ LF
         ++ u16 "## Instructions" ++ LF
         ++ u16 "1. Review ingredients and steps from the video." ++ LF
    /\ txt r
       = u16 "Cake" ++ LF ++ u16 "Servings: 4" ++ LF ++ LF
         ++ u16 "Ingredients" ++ LF ++ LF ++ LF
         ++ u16 "Instructions" ++ LF
         ++ u16 "1. Review ingredients and steps from the video." ++ LF.
Proof.
  destruct (proj1 (C3_stored_exports asciiUpperCase json_string_literal print_nothing)
              (u16 "https://www.youtube.com/watch?v=dQw4w9WgXcQ") (u16 "job_9")
              empty_store cake_network
              (snd (fetchYouTubePage json_string_literal
                      (u16 "https://www.youtube.com/watch?v=dQw4w9WgXcQ") cake_network))
              (snd (tryFetchYouTubeTranscript json_string_literal print_nothing
                      (u16 "https://www.youtube.com/watch?v=dQw4w9WgXcQ")
                      (snd (fetchYouTubePage json_string_literal
                              (u16 "https://www.youtube.com/watch?v=dQw4w9WgXcQ")
                              cake_network))))
              (str (u16 "Cake")) (str []) [] [] (u16 "Cake"))
    as (r & Hrun & Hrecipe & Hmd & Htxt & Hne);
    try (vm_compute; reflexivity).
  exists r. eexists. split; [exact Hrun|]. split; [exact Hne|].
  split; [exact Hrecipe|]. split; [exact Hmd|]. split; [exact Htxt|].
  rewrite Hrecipe in Hmd, Htxt.
  split.
  - apply (f_equal (fun c => match c with Returns x => x | Throws => [] end)) in Hmd.
    cbv beta iota in Hmd. rewrite <- Hmd. vm_compute. reflexivity.
  - apply (f_equal (fun c => match c with Returns x => x | Throws => [] end)) in Htxt.
    cbv beta iota in Htxt. rewrite <- Htxt. vm_compute. reflexivity.
Defined.

Lemma C8_transcript_never_fails_witness :
  silent {| pending := []; log := [] |}
  /\ exists w',
       tryFetchYouTubeTranscript json_string_literal print_nothing
         (u16 "https://www.youtube.com/watch?v=dQw4w9WgXcQ") {| pending := []; log := [] |}
       = (Returns [], w')
       /\ List.map req_url (log w')
          = List.map u16
              ["https://www.youtube.com/watch?v=dQw4w9WgXcQ";
               "https://www.youtube.com/api/timedtext?lang=en&v=dQw4w9WgXcQ";
               "https://www.youtube.com/api/timedtext?lang=en-US&v=dQw4w9WgXcQ";
               "https://www.youtube.com/api/timedtext?lang=en-GB&v=dQw4w9WgXcQ";
               "https://www.youtube.com/api/timedtext?lang=es&v=dQw4w9WgXcQ";
               "https://www.youtube.com/api/timedtext?lang=es-419&v=dQw4w9WgXcQ"]%string.
Proof.
  split; [constructor|].
  destruct (proj2 (proj2 (proj2 (proj2 (proj2
              (C8_transcript_never_fails json_string_literal print_nothing
                 (u16 "https://www.youtube.com/watch?v=dQw4w9WgXcQ")
                 {| pending := []; log := [] |})))))
              (u16 "dQw4w9WgXcQ") eq_refl (List.Forall_nil _)) as (w' & Hrun & Hlog).
  exists w'. split; [exact Hrun|]. rewrite Hlog. reflexivity.
Defined.

(** * Further properties of the synthesizer and of the stored results *)

Lemma ingredients_loop_cap (candidates : list jsstring) (items : list Ingredient) :
  length items < 50 -> length (ingredients_loop candidates items) <= 50.
Proof.
  revert items. induction candidates as [|line rest IH]; intros items Hlen.
  - cbn. lia.
  - cbn [ingredients_loop].
    destruct (is_separator line); [apply IH, Hlen|].
    destruct (is_instructions_header line); [lia|].
    destruct (negb (has_letter line)); [apply IH, Hlen|].
    destruct (50 <=? length (items ++ [ingredient_of_line line])) eqn:Hfull.
    + rewrite length_app. simpl. lia.
    + apply Nat.leb_gt in Hfull. apply IH, Hfull.
Qed.

(** X1: whatever the description, extraction returns fifty ingredients at
    most. *)
Theorem X1_at_most_fifty_ingredients (description : jsstring) :
  length (extractIngredients description) <= 50.
Proof. unfold extractIngredients. apply ingredients_loop_cap. simpl. lia. Qed.

(** X2: whatever the title, the description and the transcript, the recipe
    has one step at least and twelve at most, and the [n] of a step is its
    1-based position. *)
Theorem X2_steps_numbered_and_bounded
    (toUpperCase : jsstring -> jsstring) (title_ : jsval)
    (description transcriptText : jsstring) :
  1 <= length (steps (synthesizeRecipe toUpperCase title_ description transcriptText)) <= 12
  /\ forall i st,
       nth_error (steps (synthesizeRecipe toUpperCase title_ description transcriptText)) i
       = Some st ->
       n st = i + 1.
Proof.
  unfold synthesizeRecipe. cbn [steps]. split.
  - rewrite number_steps_length. unfold extractSteps.
    destruct (negb (truthy (or_else transcriptText description))); [simpl; lia|].
    cbv zeta. rewrite length_map, pick_loop_firstn by (simpl; lia).
    change ([] ++ ?l) with l.
    destruct (firstn 12 _) as [|p ps] eqn:E; [simpl; lia|].
    rewrite <- E. split; [rewrite E; simpl; lia | apply firstn_le_length].
  - intros i st H. apply number_steps_n in H. lia.
Qed.

Lemma or_default_truthy (a : jsval) (b : json) :
  to_boolean (Some b) = true -> to_boolean (Some (or_default a b)) = true.
Proof.
  intros Hb. unfold or_default. destruct a as [v|]; [|exact Hb].
  destruct (to_boolean (Some v)) eqn:E; [exact E | exact Hb].
Qed.

(** X3: every run of the background work stores a result under its job id,
    and the title of the stored recipe is never falsy: it is no empty
    string, and neither [null], [false] nor zero. It need not be a string,
    and need not print as one code unit even: a page whose title is an
    empty array has that array as the title of its recipe, and the heading
    of the Markdown export is then empty. *)
Theorem X3_stored_title_truthy
    (toUpperCase : jsstring -> jsstring) (JSON_parse : jsstring -> option json)
    (numberToString : Q -> jsstring)
    (source_url_ job_id : jsstring) (st : Store) (w : World) :
  (exists r,
      jobResults (fst (run_job toUpperCase JSON_parse numberToString
                         source_url_ job_id st w)) !! job_id = Some r
      /\ to_boolean (Some (title (recipe_json r))) = true
      /\ forall s, title (recipe_json r) = JStr s -> s <> [])
  /\ (forall description transcriptText,
        title (synthesizeRecipe toUpperCase (Some (JArr [])) description transcriptText)
        = JArr []
        /\ exists rest,
             renderMarkdown numberToString
               (synthesizeRecipe toUpperCase (Some (JArr [])) description transcriptText)
             = Returns (u16 "# " ++ LF ++ rest)).
Proof.
  split.
  - destruct (run_job_stores toUpperCase JSON_parse numberToString source_url_ job_id st w)
      as (r & w' & -> & Hr).
    exists r. cbn [fst set_result jobResults]. split; [apply lookup_insert_eq|].
    assert (Ht : to_boolean (Some (title (recipe_json r))) = true).
    { destruct Hr as [-> | (_ & _ & t & description & transcriptText & ->)];
        [reflexivity|].
      cbn [title synthesizeRecipe]. apply or_default_truthy. reflexivity. }
    split; [exact Ht|].
    intros s E. rewrite E in Ht. intros ->. discriminate.
  - intros description transcriptText. split; [reflexivity|].
    unfold renderMarkdown. cbv zeta. cbn [title synthesizeRecipe or_default to_boolean].
    cbn [to_string]. eexists. reflexivity.
Qed.

(** * The routes together *)

Lemma jsstring_eqb_refl (a : jsstring) : jsstring_eqb a a = true.
Proof. unfold jsstring_eqb. destruct (List.list_eq_dec N.eq_dec a a); congruence. Qed.

Lemma jsstring_eqb_eq (a b : jsstring) : jsstring_eqb a b = true -> a = b.
Proof. unfold jsstring_eqb. destruct (List.list_eq_dec N.eq_dec a b); congruence. Qed.

Lemma start_job_accepted (st : Store) (id uuid : jsstring) :
  id <> [] ->
  start_job st (Some id) uuid
  = match uploads st !! id with
    | Some {| source_type := url; source_url := Some (c :: u) |} =>
        StartJobOk (u16 "job_" ++ uuid)
          (u16 "/api/jobs/" ++ (u16 "job_" ++ uuid) ++ u16 "/events") st (Some (c :: u))
    | _ =>
        StartJobOk (u16 "job_" ++ uuid)
          (u16 "/api/jobs/" ++ (u16 "job_" ++ uuid) ++ u16 "/events")
          (set_result (u16 "job_" ++ uuid) not_implemented_result st) None
    end.
Proof. intros H. destruct id; [congruence | reflexivity]. Qed.

Lemma get_recipe_accepted (st : Store) (id : jsstring) :
  id <> [] ->
  get_recipe st (Some id)
  = match jobResults st !! id with
    | None => GetRecipeNotReady
    | Some r => GetRecipeOk r
    end.
Proof. intros H. destruct id; [congruence | reflexivity]. Qed.

(** The ids that the routes issue are never empty. *)
Lemma upload_id_issued (uuid : jsstring) : u16 "upl_" ++ uuid <> [].
Proof. change (u16 "upl_" ++ uuid) with (117 :: 112 :: 108 :: 95 :: uuid)%N. discriminate. Qed.

Lemma job_id_issued (uuid : jsstring) : u16 "job_" ++ uuid <> [].
Proof. change (u16 "job_" ++ uuid) with (106 :: 111 :: 98 :: 95 :: uuid)%N. discriminate. Qed.

Section Lifecycle.
Variable is_url : jsstring -> bool.
Variable toUpperCase : jsstring -> jsstring.
Variable JSON_parse : jsstring -> option json.
Variable numberToString : Q -> jsstring.

(** X4: a file of positive size that is registered and whose job is then
    started with the upload id just issued has its result at once: the
    registration is accepted, the start launches nothing, and retrieval
    under the job id just issued answers with the not-implemented result,
    whatever the store held before and whether or not the body carried a
    [source_url]. *)
Theorem X4_file_upload_lifecycle
    (st : Store) (b : UploadBody) (uuid1 uuid2 f : jsstring) (size : Z) :
  body_filename b = Some f ->
  body_size_bytes b = Some size ->
  (0 < size)%Z ->
  body_source_type b = Some (u16 "file") ->
  exists st1 st2 sse_url,
    create_upload is_url st b uuid1
    = CreateUploadOk (u16 "upl_" ++ uuid1) (u16 "uploads/" ++ u16 "upl_" ++ uuid1) st1
    /\ uploads st1 !! (u16 "upl_" ++ uuid1)
       = Some {| source_type := file; source_url := None;
                 filename := f; size_bytes := size |}
    /\ start_job st1 (Some (u16 "upl_" ++ uuid1)) uuid2
       = StartJobOk (u16 "job_" ++ uuid2) sse_url st2 None
    /\ get_recipe st2 (Some (u16 "job_" ++ uuid2)) = GetRecipeOk not_implemented_result.
Proof.
  intros Hf Hsize Hpos Hty.
  assert (Hparse : CreateUploadReq is_url b
                   = Some {| source_type := file; source_url := None;
                             filename := f; size_bytes := size |}).
  { unfold CreateUploadReq. rewrite Hf, Hsize, Hty, jsstring_eqb_refl.
    apply Z.ltb_lt in Hpos. rewrite Hpos. reflexivity. }
  unfold create_upload. rewrite Hparse. cbv zeta.
  eexists. eexists. eexists. split; [reflexivity|].
  split; [cbn [uploads]; apply lookup_insert_eq|].
  split.
  - rewrite start_job_accepted by apply upload_id_issued.
    cbn [uploads]. rewrite lookup_insert_eq. reflexivity.
  - rewrite get_recipe_accepted by apply job_id_issued.
    unfold set_result. cbn [jobResults]. rewrite lookup_insert_eq. reflexivity.
Qed.

(** What a run of the background work writes. *)
(** X5: a URL source that is registered and whose job is then started with
    the upload id just issued launches the background work on that URL and
    stores nothing yet: as long as no result sits under the job id,
    retrieval answers not-ready; once the background work has written,
    retrieval answers with what it wrote, the failure result or a recipe
    with its two renderings. *)
Theorem X5_url_upload_lifecycle
    (st : Store) (b : UploadBody) (uuid1 uuid2 f u : jsstring) (size : Z) :
  body_filename b = Some f ->
  body_size_bytes b = Some size ->
  (0 <= size)%Z ->
  body_source_type b = Some (u16 "url") ->
  body_source_url b = Some u ->
  is_url u = true ->
  u <> [] ->
  jobResults st !! (u16 "job_" ++ uuid2) = None ->
  exists st1 sse_url,
    create_upload is_url st b uuid1
    = CreateUploadOk (u16 "upl_" ++ uuid1) (u16 "uploads/" ++ u16 "upl_" ++ uuid1) st1
    /\ start_job st1 (Some (u16 "upl_" ++ uuid1)) uuid2
       = StartJobOk (u16 "job_" ++ uuid2) sse_url st1 (Some u)
    /\ get_recipe st1 (Some (u16 "job_" ++ uuid2)) = GetRecipeNotReady
    /\ forall w st2 w',
         run_job toUpperCase JSON_parse numberToString u (u16 "job_" ++ uuid2) st1 w
         = (st2, w') ->
         exists r,
           get_recipe st2 (Some (u16 "job_" ++ uuid2)) = GetRecipeOk r
           /\ (r = failed_result
               \/ (renderMarkdown numberToString (recipe_json r) = Returns (markdown r)
                   /\ renderTxt numberToString (recipe_json r) = Returns (txt r))).
Proof.
  intros Hf Hsize Hpos Hty Hu Hok Hne Hfresh.
  assert (Hparse : CreateUploadReq is_url b
                   = Some {| source_type := url; source_url := Some u;
                             filename := f; size_bytes := size |}).
  { unfold CreateUploadReq. rewrite Hf, Hsize, Hty, Hu, Hok, jsstring_eqb_refl.
    replace (jsstring_eqb (u16 "url") (u16 "file")) with false by reflexivity.
    apply Z.leb_le in Hpos. rewrite Hpos. reflexivity. }
  unfold create_upload. rewrite Hparse. cbv zeta.
  eexists. eexists. split; [reflexivity|]. split; [|split].
  - rewrite start_job_accepted by apply upload_id_issued.
    cbn [uploads]. rewrite lookup_insert_eq.
    destruct u as [|c u']; [congruence | reflexivity].
  - rewrite get_recipe_accepted by apply job_id_issued.
    cbn [jobResults]. rewrite Hfresh. reflexivity.
  - intros w st2 w' Hrun.
    match type of Hrun with
    | run_job _ _ _ _ _ ?st1 _ = _ =>
        destruct (run_job_stores toUpperCase JSON_parse numberToString
                    u (u16 "job_" ++ uuid2) st1 w) as (r & w0 & Hstored & Hr)
    end.
    rewrite Hstored in Hrun. injection Hrun as <- _.
    exists r. split;
      [|destruct Hr as [Hr | (Hmd & Htxt & _)]; [left; exact Hr | right; split; assumption]].
    rewrite get_recipe_accepted by apply job_id_issued.
    unfold set_result. cbn [jobResults]. rewrite lookup_insert_eq. reflexivity.
Qed.

(** X6: every write goes to its own key. Registering an upload leaves the
    results and the other uploads as they are; starting a job and finishing
    its background work leave the uploads and the results of the other job
    ids as they are. *)
Theorem X6_writes_touch_one_key :
  (forall st b uuid upload_id key st',
      create_upload is_url st b uuid = CreateUploadOk upload_id key st' ->
      jobResults st' = jobResults st
      /\ forall other, other <> upload_id -> uploads st' !! other = uploads st !! other)
  /\ (forall st upload_id uuid job_id sse_url st' launched,
        start_job st upload_id uuid = StartJobOk job_id sse_url st' launched ->
        uploads st' = uploads st
        /\ forall other, other <> job_id ->
             jobResults st' !! other = jobResults st !! other)
  /\ (forall source_url_ job_id st w st' w',
        run_job toUpperCase JSON_parse numberToString source_url_ job_id st w
        = (st', w') ->
        uploads st' = uploads st
        /\ forall other, other <> job_id ->
             jobResults st' !! other = jobResults st !! other).
Proof.
  split; [|split].
  - intros st b uuid upload_id key st' H. unfold create_upload in H.
    destruct (CreateUploadReq is_url b) as [r|]; [|discriminate].
    injection H as <- _ <-. split; [reflexivity|].
    intros other Hother. cbn [uploads]. apply lookup_insert_ne. congruence.
  - intros st upload_id uuid job_id sse_url st' launched H.
    destruct upload_id as [id|]; [|discriminate].
    destruct id as [|c id]; [discriminate|].
    rewrite start_job_accepted in H by discriminate.
    destruct (uploads st !! (c :: id)) as [[ty su fn sz]|];
      [destruct ty; [|destruct su as [[|c' u]|]]|];
      injection H as <- _ <- _;
      (split; [reflexivity|]; intros other Hother;
       (reflexivity
        || (unfold set_result; cbn [jobResults]; apply lookup_insert_ne; congruence))).
  - intros source_url_ job_id st w st' w' H.
    destruct (run_job_stores toUpperCase JSON_parse numberToString
                source_url_ job_id st w) as (r & w0 & Hstored & _).
    rewrite Hstored in H. injection H as <- _.
    split; [reflexivity|]. intros other Hother.
    unfold set_result. cbn [jobResults]. apply lookup_insert_ne. congruence.
Qed.
End Lifecycle.

Lemma X4_file_upload_lifecycle_witness :
  exists st1 st2 sse_url,
    create_upload sample_is_url empty_store sample_file_body (u16 "1")
    = CreateUploadOk (u16 "upl_" ++ u16 "1") (u16 "uploads/" ++ u16 "upl_" ++ u16 "1") st1
    /\ uploads st1 !! (u16 "upl_" ++ u16 "1")
       = Some {| source_type := file; source_url := None;
                 filename := u16 "cake.mp4"; size_bytes := 1024 |}
    /\ start_job st1 (Some (u16 "upl_" ++ u16 "1")) (u16 "2")
       = StartJobOk (u16 "job_" ++ u16 "2") sse_url st2 None
    /\ get_recipe st2 (Some (u16 "job_" ++ u16 "2")) = GetRecipeOk not_implemented_result.
Proof.
  apply (X4_file_upload_lifecycle sample_is_url empty_store sample_file_body
           (u16 "1") (u16 "2") (u16 "cake.mp4") 1024%Z); reflexivity.
Defined.

Lemma X5_url_upload_lifecycle_witness :
  exists st1 sse_url,
    create_upload sample_is_url empty_store sample_url_body (u16 "1")
    = CreateUploadOk (u16 "upl_" ++ u16 "1") (u16 "uploads/" ++ u16 "upl_" ++ u16 "1") st1
    /\ start_job st1 (Some (u16 "upl_" ++ u16 "1")) (u16 "2")
       = StartJobOk (u16 "job_" ++ u16 "2") sse_url st1
           (Some (u16 "https://www.youtube.com/watch?v=dQw4w9WgXcQ"))
    /\ get_recipe st1 (Some (u16 "job_" ++ u16 "2")) = GetRecipeNotReady.
Proof.
  destruct (X5_url_upload_lifecycle sample_is_url asciiUpperCase json_string_literal
              print_nothing empty_store sample_url_body (u16 "1") (u16 "2")
              (u16 "url.mp4") (u16 "https://www.youtube.com/watch?v=dQw4w9WgXcQ") 0%Z
              eq_refl eq_refl (Z.le_refl 0) eq_refl eq_refl eq_refl
              ltac:(discriminate) eq_refl)
    as (st1 & sse_url & H1 & H2 & H3 & _).
  exists st1, sse_url. auto.
Defined.

(** * The event stream *)

Lemma next_cleared (s : Stream) :
  interval s = None ->
  chunks (next s) = chunks s /\ interval (next s) = None.
Proof.
  intros H. unfold next. rewrite H.
  destruct (end_timer s); split; try reflexivity; exact H.
Qed.

Lemma nexts_cleared (j : nat) (s : Stream) :
  interval s = None ->
  chunks (Nat.iter j next s) = chunks s /\ interval (Nat.iter j next s) = None.
Proof.
  intros H. induction j as [|j [IH1 IH2]]; [split; [reflexivity | exact H]|].
  rewrite Nat.iter_succ. destruct (next_cleared _ IH2) as [H1 H2].
  split; [congruence | exact H2].
Qed.

Lemma next_idle (s : Stream) :
  interval s = None -> end_timer s = None -> next s = s.
Proof. intros H1 H2. unfold next. rewrite H1, H2. reflexivity. Qed.

Lemma nexts_idle (j : nat) (s : Stream) :
  interval s = None -> end_timer s = None -> Nat.iter j next s = s.
Proof.
  intros H1 H2. induction j as [|j IH]; [reflexivity|].
  rewrite Nat.iter_succ, IH. apply next_idle; assumption.
Qed.

(** X7: a subscriber that stays connected is written the events of the
    seven states [queued], [extracting], [transcribing], [understanding],
    [synthesizing], [validating], [completed], in this order and one every
    600 ms: after [k] timer callbacks it has the events of the first [k]
    states, seven at most. The seventh callback sets the timeout that ends
    the response 300 ms later, at 4500 ms; ending the response clears the
    interval before its eighth callback would come due, and from then on
    nothing happens. After the subscriber has gone, at whatever time,
    nothing more is written. *)
Theorem X7_stream_events (k : nat) :
  chunks (Nat.iter k next open_stream) = List.concat (List.map frame (firstn k states))
  /\ sent (Nat.iter k next open_stream) = Nat.min k 7
  /\ clock (Nat.iter k next open_stream) = (if k <=? 7 then 600 * k else 4500)
  /\ ended (Nat.iter k next open_stream) = (8 <=? k)
  /\ interval (Nat.iter k next open_stream) = (if k <? 8 then Some 600 else None)
  /\ end_timer (Nat.iter k next open_stream) = (if k =? 7 then Some 300 else None)
  /\ forall j,
       chunks (Nat.iter j next (close (Nat.iter k next open_stream)))
       = chunks (Nat.iter k next open_stream).
Proof.
  assert (Hlate : forall j, Nat.iter (j + 8) next open_stream = Nat.iter 8 next open_stream).
  { intros j. rewrite Nat.iter_add. apply nexts_idle; reflexivity. }
  assert (Hsmall : k <= 8 \/ exists j, k = j + 8 /\ 0 < j).
  { destruct (le_lt_dec k 8) as [Hk|Hk]; [left; exact Hk|].
    right. exists (k - 8). lia. }
  repeat split.
  1-6: destruct Hsmall as [Hk | (j & -> & Hj)];
    [do 9 (destruct k as [|k]; [vm_compute; reflexivity|]); lia
    |rewrite Hlate].
  - rewrite firstn_all2 by (simpl; lia). vm_compute. reflexivity.
  - rewrite Nat.min_r by lia. reflexivity.
  - replace (j + 8 <=? 7) with false by (symmetry; apply Nat.leb_gt; lia). reflexivity.
  - replace (8 <=? j + 8) with true by (symmetry; apply Nat.leb_le; lia). reflexivity.
  - replace (j + 8 <? 8) with false by (symmetry; apply Nat.ltb_ge; lia). reflexivity.
  - replace (j + 8 =? 7) with false by (symmetry; apply Nat.eqb_neq; lia). reflexivity.
  - intros j. exact (proj1 (nexts_cleared j (close (Nat.iter k next open_stream)) eq_refl)).
Qed.

(** * Ingredient extraction on every description *)

Lemma ingredients_loop_pipeline (candidates : list jsstring) (items : list Ingredient) :
  length items < 50 ->
  ingredients_loop candidates items
  = firstn 50 (items ++ List.map ingredient_of_line
                          (List.filter kept_line
                             (before_first is_instructions_header candidates))).
Proof.
  revert items. induction candidates as [|line rest IH]; intros items Hlen.
  - cbn. rewrite app_nil_r. symmetry. apply firstn_all2. lia.
  - cbn [ingredients_loop before_first].
    destruct (is_separator line) eqn:Hsep.
    + destruct (is_instructions_header line) eqn:Hhdr.
      { apply instructions_header_not_separator in Hhdr. congruence. }
      cbn [List.filter]. unfold kept_line at 1. rewrite Hsep. cbn [negb andb].
      apply IH, Hlen.
    + destruct (is_instructions_header line) eqn:Hhdr.
      { cbn. rewrite app_nil_r. symmetry. apply firstn_all2. lia. }
      cbn [List.filter]. unfold kept_line at 1. rewrite Hsep, Hhdr. cbn [negb andb].
      destruct (has_letter line) eqn:Hlet; cbn [negb]; [|apply IH, Hlen].
      cbn [List.map].
      set (x := ingredient_of_line line). set (tl := List.map ingredient_of_line _).
      destruct (50 <=? length (items ++ [x])) eqn:Hfull.
      * apply Nat.leb_le in Hfull. rewrite length_app in Hfull. simpl in Hfull.
        change (items ++ x :: tl) with (items ++ [x] ++ tl).
        rewrite app_assoc, firstn_app.
        replace (50 - length (items ++ [x])) with 0
          by (rewrite length_app; simpl; lia).
        rewrite firstn_O, app_nil_r. symmetry. apply firstn_all2.
        rewrite length_app. simpl. lia.
      * apply Nat.leb_gt in Hfull. subst tl. rewrite IH by exact Hfull.
        rewrite <- app_assoc. reflexivity.
Qed.

(** X8: on every description, extraction is a pipeline over the trimmed,
    non-empty lines after the first ingredients header (all of them when
    there is no such header): cut at the first instructions header, drop the
    separator lines and the lines without a letter, keep the first fifty,
    and turn each into an ingredient. Nothing after the instructions header
    counts, and the order of the lines is the order of the ingredients. *)
Theorem X8_extractIngredients_pipeline (description : jsstring) :
  extractIngredients description
  = List.map ingredient_of_line
      (firstn 50
         (List.filter (fun l => negb (is_separator l) && has_letter l)
            (before_first is_instructions_header (candidates_of description)))).
Proof.
  unfold extractIngredients. fold (candidates_of description).
  rewrite ingredients_loop_pipeline by (simpl; lia).
  cbn [app]. rewrite firstn_map. f_equal. f_equal.
  induction (candidates_of description) as [|l ls IH]; [reflexivity|].
  cbn [before_first]. destruct (is_instructions_header l) eqn:Hhdr; [reflexivity|].
  cbn [List.filter]. unfold kept_line at 1. rewrite Hhdr, IH.
  cbn [negb]. rewrite andb_true_r. reflexivity.
Qed.

(** * The quantity-unit-item pattern and its language *)

Lemma try_desc_Some {A} (k : nat) (f : nat -> option A) (x : A) :
  try_desc k f = Some x -> exists j, 1 <= j <= k /\ f j = Some x.
Proof.
  induction k as [|k IH]; [discriminate|]. cbn [try_desc].
  destruct (f (S k)) as [y|] eqn:E.
  - intros [= <-]. exists (S k). split; [lia | exact E].
  - intros H. destruct (IH H) as (j & Hj & Hf). exists j. split; [lia | exact Hf].
Qed.

Lemma try_star_Some {A} (k : nat) (f : nat -> option A) (x : A) :
  try_star k f = Some x -> exists j, j <= k /\ f j = Some x.
Proof.
  unfold try_star. destruct (try_desc k f) as [y|] eqn:E.
  - intros [= <-]. destruct (try_desc_Some k f y E) as (j & Hj & Hf).
    exists j. split; [lia | exact Hf].
  - intros H. exists 0. split; [lia | exact H].
Qed.

Lemma try_desc_finds {A} (k j : nat) (f : nat -> option A) :
  1 <= j <= k -> f j <> None -> try_desc k f <> None.
Proof.
  intros Hj Hf. induction k as [|k IH]; [lia|]. cbn [try_desc].
  destruct (f (S k)) as [y|] eqn:E; [discriminate|].
  apply IH. destruct (Nat.eq_dec j (S k)) as [->|]; [congruence | lia].
Qed.

Lemma try_star_finds {A} (k j : nat) (f : nat -> option A) :
  j <= k -> f j <> None -> try_star k f <> None.
Proof.
  intros Hj Hf. unfold try_star.
  destruct (try_desc k f) as [y|] eqn:E; [discriminate|].
  destruct j as [|j]; [exact Hf|].
  exfalso. apply (try_desc_finds k (S j) f); [lia | exact Hf | exact E].
Qed.

(** A prefix within the run of [p] is made of [p]. *)
Lemma firstn_in_run (p : N -> bool) (s : jsstring) (j : nat) :
  j <= length (takeWhile p s) ->
  all_of p (firstn j s) /\ length (firstn j s) = j.
Proof.
  revert j. induction s as [|c s IH]; intros j Hj.
  - cbn in Hj. replace j with 0 by lia. split; [constructor | reflexivity].
  - destruct j as [|j]; [split; [constructor | reflexivity]|].
    cbn [takeWhile] in Hj. destruct (p c) eqn:Hc; [|cbn in Hj; lia].
    cbn [length] in Hj. destruct (IH j ltac:(lia)) as [Ha Hl].
    cbn [firstn length]. split; [constructor; assumption | lia].
Qed.

Lemma run_covers (p : N -> bool) (a b : jsstring) :
  all_of p a -> length a <= length (takeWhile p (a ++ b)).
Proof.
  induction 1 as [|c a Hc Ha IH]; cbn [app takeWhile length]; [lia|].
  rewrite Hc. cbn [length]. lia.
Qed.

Lemma match_item_Some (s it : jsstring) :
  match_item s = Some it ->
  it = s /\ it <> [] /\ all_of (fun c => negb (is_line_terminator c)) it.
Proof.
  unfold match_item. destruct s as [|c s]; [discriminate|].
  destruct (forallb _ (c :: s)) eqn:E; [|discriminate].
  intros [= <-]. split; [reflexivity|]. split; [discriminate|].
  apply List.Forall_forall. intros x Hx.
  rewrite forallb_forall in E. apply E, Hx.
Qed.

Lemma match_item_ok (it : jsstring) :
  it <> [] -> all_of (fun c => negb (is_line_terminator c)) it ->
  match_item it = Some it.
Proof.
  intros Hne Hall. unfold match_item. destruct it as [|c it]; [congruence|].
  replace (forallb _ (c :: it)) with true; [reflexivity|].
  symmetry. apply forallb_forall. intros x Hx.
  exact (proj1 (List.Forall_forall _ _) Hall x Hx).
Qed.

Lemma match_ws_item_Some (s it : jsstring) :
  match_ws_item s = Some it ->
  exists w, s = w ++ it /\ all_of is_ws w /\ it <> []
            /\ all_of (fun c => negb (is_line_terminator c)) it.
Proof.
  unfold match_ws_item. intros H.
  apply try_star_Some in H as (j & Hj & H).
  apply match_item_Some in H as (-> & Hne & Hlt).
  exists (firstn j s). split; [symmetry; apply firstn_skipn|].
  split; [apply (firstn_in_run is_ws s j Hj)|]. split; assumption.
Qed.

Lemma match_ws_item_finds (w it : jsstring) :
  all_of is_ws w -> it <> [] -> all_of (fun c => negb (is_line_terminator c)) it ->
  match_ws_item (w ++ it) <> None.
Proof.
  intros Hw Hne Hlt. unfold match_ws_item.
  apply (try_star_finds _ (length w)); [apply run_covers, Hw|].
  rewrite skipn_length_app, match_item_ok by assumption. discriminate.
Qed.

Lemma match_unit_item_Some (s : jsstring) (u : option jsstring) (it : jsstring) :
  match_unit_item s = Some (u, it) ->
  exists w,
    s = unit_text u ++ w ++ it /\ all_of is_ws w
    /\ match u with Some x => x <> [] /\ all_of is_unit_char x | None => True end
    /\ it <> [] /\ all_of (fun c => negb (is_line_terminator c)) it.
Proof.
  unfold match_unit_item.
  destruct (try_desc _ _) as [r|] eqn:E.
  - intros [= ->]. apply try_desc_Some in E as (j & Hj & E).
    destruct (match_ws_item (skipn j s)) as [it'|] eqn:Hi; [|discriminate].
    cbn [option_map] in E. injection E as <- <-.
    apply match_ws_item_Some in Hi as (w & Hs & Hw & Hne & Hlt).
    destruct (firstn_in_run is_unit_char s j ltac:(lia)) as [Hu Hl].
    exists w. cbn [unit_text]. split; [rewrite <- Hs; symmetry; apply firstn_skipn|].
    split; [exact Hw|]. split; [|split; assumption].
    split; [|exact Hu]. intros Hnil. rewrite Hnil in Hl. cbn in Hl. lia.
  - destruct (match_ws_item s) as [it'|] eqn:Hi; [|discriminate].
    cbn [option_map]. intros [= <- <-].
    apply match_ws_item_Some in Hi as (w & Hs & Hw & Hne & Hlt).
    exists w. cbn [unit_text app]. repeat split; assumption.
Qed.

Lemma match_unit_item_finds (u : option jsstring) (w it : jsstring) :
  match u with Some x => x <> [] /\ all_of is_unit_char x | None => True end ->
  all_of is_ws w -> it <> [] -> all_of (fun c => negb (is_line_terminator c)) it ->
  match_unit_item (unit_text u ++ w ++ it) <> None.
Proof.
  intros Hu Hw Hne Hlt. unfold match_unit_item.
  destruct (try_desc _ _) as [r|] eqn:E; [discriminate|].
  destruct u as [x|]; cbn [unit_text] in *.
  - destruct Hu as [Hx Hall]. exfalso.
    refine (try_desc_finds _ (length x) _ _ _ E).
    + split; [destruct x; [congruence | cbn; lia] | apply run_covers, Hall].
    + rewrite skipn_length_app.
      destruct (match_ws_item (w ++ it)) eqn:Hi; [discriminate|].
      exfalso. exact (match_ws_item_finds w it Hw Hne Hlt Hi).
  - cbn [app]. destruct (match_ws_item (w ++ it)) eqn:Hi; [discriminate|].
    exfalso. exact (match_ws_item_finds w it Hw Hne Hlt Hi).
Qed.

Lemma match_ws_unit_item_Some (s : jsstring) (u : option jsstring) (it : jsstring) :
  match_ws_unit_item s = Some (u, it) ->
  exists w1 w2,
    s = w1 ++ unit_text u ++ w2 ++ it /\ all_of is_ws w1 /\ all_of is_ws w2
    /\ match u with Some x => x <> [] /\ all_of is_unit_char x | None => True end
    /\ it <> [] /\ all_of (fun c => negb (is_line_terminator c)) it.
Proof.
  unfold match_ws_unit_item. intros H.
  apply try_star_Some in H as (j & Hj & H).
  apply match_unit_item_Some in H as (w2 & Hs & Hw2 & Hu & Hne & Hlt).
  exists (firstn j s), w2. split; [rewrite <- Hs; symmetry; apply firstn_skipn|].
  split; [apply (firstn_in_run is_ws s j Hj)|]. repeat split; assumption.
Qed.

Lemma match_ws_unit_item_finds (w1 : jsstring) (u : option jsstring) (w2 it : jsstring) :
  all_of is_ws w1 ->
  match u with Some x => x <> [] /\ all_of is_unit_char x | None => True end ->
  all_of is_ws w2 -> it <> [] -> all_of (fun c => negb (is_line_terminator c)) it ->
  match_ws_unit_item (w1 ++ unit_text u ++ w2 ++ it) <> None.
Proof.
  intros Hw1 Hu Hw2 Hne Hlt. unfold match_ws_unit_item.
  apply (try_star_finds _ (length w1)); [apply run_covers, Hw1|].
  rewrite skipn_length_app. apply match_unit_item_finds; assumption.
Qed.

Lemma firstn_past (a : jsstring) (k : nat) (b : jsstring) :
  firstn (length a + k) (a ++ b) = a ++ firstn k b.
Proof. induction a as [|c a IH]; cbn; [reflexivity | now rewrite IH]. Qed.

Lemma match_line_body_Some (s : jsstring) (d : nat) r :
  d <= length (takeWhile is_digit s) -> 1 <= d ->
  (let rest := skipn d s in
   let no_fraction :=
     option_map (fun ui => (firstn d s, fst ui, snd ui)) (match_ws_unit_item rest) in
   match rest with
   | c :: rest' =>
       if N.eqb c 46 then
         match
           try_desc (length (takeWhile is_digit rest')) (fun f =>
             option_map (fun ui => (firstn (d + 1 + f) s, fst ui, snd ui))
               (match_ws_unit_item (skipn f rest')))
         with
         | Some r => Some r
         | None => no_fraction
         end
       else no_fraction
   | [] => no_fraction
   end) = Some r ->
  decomposes s (fst (fst r)) (snd (fst r)) (snd r).
Proof.
  intros Hd H1. cbv zeta.
  destruct (firstn_in_run is_digit s d Hd) as [Hip Hlen].
  assert (Hne : firstn d s <> []).
  { intros E. rewrite E in Hlen. cbn in Hlen. lia. }
  assert (Hplain :
    option_map (fun ui => (firstn d s, fst ui, snd ui)) (match_ws_unit_item (skipn d s))
    = Some r -> decomposes s (fst (fst r)) (snd (fst r)) (snd r)).
  { destruct (match_ws_unit_item (skipn d s)) as [[u it]|] eqn:E; [|discriminate].
    cbn [option_map fst snd]. intros [= <-]. cbn [fst snd].
    apply match_ws_unit_item_Some in E as (w1 & w2 & Hs & Hw1 & Hw2 & Hu & Hi & Hlt).
    exists (firstn d s), [], w1, w2. rewrite app_nil_r.
    split; [reflexivity|]. split; [split; [assumption | split; [assumption | now left]]|].
    repeat (split; [assumption|]).
    rewrite <- Hs. symmetry. apply firstn_skipn. }
  destruct (skipn d s) as [|c rest'] eqn:Hrest; [exact Hplain|].
  destruct (N.eqb c 46) eqn:Hc; [|exact Hplain].
  apply N.eqb_eq in Hc. subst c.
  destruct (try_desc _ _) as [r'|] eqn:E; [|exact Hplain].
  intros [= ->]. apply try_desc_Some in E as (f & Hf & E).
  destruct (match_ws_unit_item (skipn f rest')) as [[u it]|] eqn:Em; [|discriminate].
  cbn [option_map fst snd] in E. injection E as <-. cbn [fst snd].
  apply match_ws_unit_item_Some in Em as (w1 & w2 & Hs & Hw1 & Hw2 & Hu & Hi & Hlt).
  destruct (firstn_in_run is_digit rest' f ltac:(lia)) as [Hfp Hflen].
  assert (Hsplit : s = firstn d s ++ 46%N :: firstn f rest' ++ skipn f rest').
  { rewrite firstn_skipn, <- Hrest. symmetry. apply firstn_skipn. }
  assert (Hq : firstn (d + 1 + f) s = firstn d s ++ 46%N :: firstn f rest').
  { rewrite Hsplit at 1. rewrite <- Hlen at 1. rewrite <- Nat.add_assoc, firstn_past.
    f_equal. cbn [Nat.add firstn]. f_equal.
    rewrite <- Hflen at 1. rewrite <- (Nat.add_0_r (length _)), firstn_past.
    cbn. apply app_nil_r. }
  exists (firstn d s), (46%N :: firstn f rest'), w1, w2.
  split; [exact Hq|].
  split.
  { split; [assumption|]. split; [assumption|]. right. exists (firstn f rest').
    split; [reflexivity|]. split; [|assumption].
    intros E. rewrite E in Hflen. cbn in Hflen. lia. }
  repeat (split; [assumption|]).
  rewrite Hq, <- Hs, <- app_assoc. exact Hsplit.
Qed.

Lemma match_line_Some (line q : jsstring) (u : option jsstring) (it : jsstring) :
  match_line line = Some (q, u, it) -> decomposes line q u it.
Proof.
  unfold match_line. intros H.
  apply try_desc_Some in H as (d & Hd & H).
  exact (match_line_body_Some line d (q, u, it) ltac:(lia) ltac:(lia) H).
Qed.

(** X9. A line that the quantity-unit-item pattern accepts has the shape it
    describes, and its captures are the parts of that shape: the quantity is
    a run of digits, alone or followed by a point and more digits; white
    space may follow; then the unit, when there is one, one letter or micro
    sign at least; white space again; then the item, at least one code unit
    long and without a line terminator, up to the end of the line. *)
Theorem X9_match_line_sound (line q : jsstring) (u : option jsstring) (it : jsstring) :
  match_line line = Some (q, u, it) -> decomposes line q u it.
Proof.
  unfold match_line. intros H.
  apply try_desc_Some in H as (d & Hd & H).
  destruct Hd as [Hd1 Hd2].
  exact (match_line_body_Some line d (q, u, it) Hd2 Hd1 H).
Qed.

Lemma X9_match_line_sound_witness :
  decomposes (u16 "2 cups flour") (u16 "2") (Some (u16 "cups")) (u16 "flour").
Proof. apply X9_match_line_sound. vm_compute. reflexivity. Defined.

Lemma match_line_accepts
    (line q : jsstring) (u : option jsstring) (it : jsstring) :
  decomposes line q u it -> match_line line <> None.
Proof.
  intros (ip & fr & w1 & w2 & -> & (Hne & Hip & Hfr) & Hw1 & Hw2 & Hu & Hi & Hlt & ->).
  { unfold match_line. rewrite <- app_assoc.
    apply (try_desc_finds _ (length ip)).
    - split; [destruct ip; [congruence | cbn; lia] | apply run_covers, Hip].
    - rewrite skipn_length_app.
      pose proof (match_ws_unit_item_finds w1 u w2 it Hw1 Hu Hw2 Hi Hlt) as Hplain.
      destruct Hfr as [-> | (fp & -> & Hfpne & Hfp)].
      + cbn [app]. destruct (w1 ++ unit_text u ++ w2 ++ it) as [|c rest'] eqn:E.
        * destruct (match_ws_unit_item []); [discriminate | congruence].
        * destruct (N.eqb c 46).
          -- destruct (try_desc _ _); [discriminate|].
             destruct (match_ws_unit_item (c :: rest')); [discriminate | congruence].
          -- destruct (match_ws_unit_item (c :: rest')); [discriminate | congruence].
      + cbn [app N.eqb Pos.eqb].
        destruct (try_desc _ _) eqn:E; [discriminate|]. exfalso.
        refine (try_desc_finds _ (length fp) _ _ _ E).
        * split; [destruct fp; [congruence | cbn; lia] | apply run_covers, Hfp].
        * rewrite skipn_length_app.
          destruct (match_ws_unit_item (w1 ++ unit_text u ++ w2 ++ it));
            [discriminate | congruence]. }
Qed.

(** X10. The pattern accepts every line of that shape, whatever way the line
    is cut into number, white space, unit and item; the captures it reports
    are again a cut of the line of that shape (the greedy one, which may
    differ from the cut given). *)
Theorem X10_match_line_complete
    (line q : jsstring) (u : option jsstring) (it : jsstring) :
  decomposes line q u it ->
  exists q' u' it',
    match_line line = Some (q', u', it') /\ decomposes line q' u' it'.
Proof.
  intros H. apply match_line_accepts in H.
  destruct (match_line line) as [[[q' u'] it']|] eqn:E; [|congruence].
  exists q', u', it'. split; [reflexivity|].
  apply match_line_Some, E.
Qed.

Lemma X10_match_line_complete_witness :
  exists q' u' it',
    match_line (u16 "2 cups flour") = Some (q', u', it')
    /\ decomposes (u16 "2 cups flour") q' u' it'.
Proof.
  apply (X10_match_line_complete _ (u16 "2") None (u16 "cups flour")).
  exists (u16 "2"), [], (u16 " "), [].
  split; [reflexivity|].
  split; [split; [discriminate | split; [repeat constructor | now left]]|].
  split; [repeat constructor|]. split; [constructor|]. split; [exact I|].
  split; [discriminate|]. split; [repeat constructor | reflexivity].
Defined.

Lemma match_line_needs_digit (line : jsstring) :
  stops is_digit line -> match_line line = None.
Proof.
  intros H. unfold match_line.
  destruct line as [|c r]; [reflexivity|]. cbn in H. cbn [takeWhile].
  rewrite H. reflexivity.
Qed.

(** X11. The pattern is tried on the line as it stands, before the bullet is
    removed: a line that does not begin with a digit, a bulleted one among
    them, gets neither quantity nor unit, and its item is the whole line
    with the leading bullet and the white space after it removed. *)
Theorem X11_no_leading_digit_no_quantity (line : jsstring) :
  stops is_digit line ->
  ingredient_of_line line
  = {| quantity := None; unit := None; item := strip_bullet line |}.
Proof.
  intros H. unfold ingredient_of_line.
  rewrite (match_line_needs_digit line H). reflexivity.
Qed.

Lemma X11_no_leading_digit_no_quantity_witness :
  ingredient_of_line (u16 "- 2 cups flour")
  = {| quantity := None; unit := None; item := u16 "2 cups flour" |}.
Proof.
  apply (X11_no_leading_digit_no_quantity (u16 "- 2 cups flour")).
  reflexivity.
Defined.

(** * How many requests the Transcript Retriever makes *)

Lemma quiet_requests {A} (k : nat) (m : Js A) :
  (forall w, snd (m w) = w) -> requests_at_most k m.
Proof.
  intros H w. exists []. rewrite H, app_nil_r. cbn. repeat split; lia.
Qed.

Lemma ret_requests {A} (k : nat) (a : A) : requests_at_most k (ret a).
Proof. apply quiet_requests. reflexivity. Qed.

Lemma lift_requests {A} (k : nat) (c : completion A) : requests_at_most k (lift c).
Proof. apply quiet_requests. reflexivity. Qed.

Lemma text_of_requests (k : nat) (resp : Response) : requests_at_most k (text_of resp).
Proof. apply quiet_requests. intros w. unfold text_of. destruct (body resp); reflexivity. Qed.

Lemma fetch_requests (k : nat) (r : Request) : requests_at_most (S k) (fetch r).
Proof.
  intros w. exists [r]. unfold fetch.
  destruct (pending w) as [|[resp|] rest] eqn:E; cbn [snd advance log pending length];
    rewrite ?E; cbn [tl skipn]; repeat split; lia.
Qed.

Lemma bind_requests {A B} (a b c : nat) (m : Js A) (f : A -> Js B) :
  requests_at_most a m -> (forall x, requests_at_most b (f x)) -> a + b <= c ->
  requests_at_most c (bind m f).
Proof.
  intros Hm Hf Hc w. destruct (Hm w) as (e1 & Hl1 & Hn1 & Hp1).
  unfold bind. destruct (m w) as [[x|] w1]; cbn [snd] in *.
  - destruct (Hf x w1) as (e2 & Hl2 & Hn2 & Hp2).
    exists (e1 ++ e2). rewrite Hl2, Hl1, Hp2, Hp1, <- app_assoc, length_app, skipn_skipn.
    repeat split; [lia | f_equal; lia].
  - exists e1. repeat split; [assumption | lia | assumption].
Qed.

Lemma try_catch_requests {A} (a b c : nat) (m h : Js A) :
  requests_at_most a m -> requests_at_most b h -> a + b <= c ->
  requests_at_most c (try_catch m h).
Proof.
  intros Hm Hh Hc w. destruct (Hm w) as (e1 & Hl1 & Hn1 & Hp1).
  unfold try_catch. destruct (m w) as [[x|] w1]; cbn [snd] in *.
  - exists e1. repeat split; [assumption | lia | assumption].
  - destruct (Hh w1) as (e2 & Hl2 & Hn2 & Hp2).
    exists (e1 ++ e2). rewrite Hl2, Hl1, Hp2, Hp1, <- app_assoc, length_app, skipn_skipn.
    repeat split; [lia | f_equal; lia].
Qed.

Section Requests.
Variable JSON_parse : jsstring -> option json.
Variable numberToString : Q -> jsstring.

Lemma caption_tracks_attempt_requests (videoId : jsstring) :
  requests_at_most 3 (caption_tracks_attempt JSON_parse numberToString videoId).
Proof.
  unfold caption_tracks_attempt.
  apply (bind_requests 1 2); [apply fetch_requests | intros resp | lia].
  apply (bind_requests 0 2); [apply text_of_requests | intros watchHtml | lia].
  cbv zeta.
  destruct (opt_get _ (u16 "captionTracks")) as [[| | | |[|t0 ts]|]|]; try apply ret_requests.
  apply (bind_requests 0 2); [apply lift_requests | intros en | lia].
  apply (bind_requests 0 2); [ | intros preferred | lia].
  { destruct (to_boolean en); [apply ret_requests|].
    apply (bind_requests 0 0); [apply lift_requests | intros es; apply ret_requests | lia]. }
  destruct (to_boolean (opt_get preferred (u16 "baseUrl"))); [|apply ret_requests].
  apply (bind_requests 0 2); [apply lift_requests | intros has_query | lia].
  apply (bind_requests 0 2); [apply lift_requests | intros base | lia].
  apply (bind_requests 1 1); [apply fetch_requests | intros vttResp | lia].
  apply (bind_requests 0 1); [ | intros from_vtt | lia].
  { destruct (ok vttResp); [|apply ret_requests].
    apply (bind_requests 0 0); [apply text_of_requests | intros vtt; apply ret_requests | lia]. }
  destruct from_vtt as [merged|]; [apply ret_requests|].
  apply (bind_requests 1 0); [apply fetch_requests | intros xmlResp | lia].
  destruct (ok xmlResp); [|apply ret_requests].
  apply (bind_requests 0 0); [apply text_of_requests | intros xml; apply ret_requests | lia].
Qed.

Lemma timedtext_attempt_requests (videoId lang : jsstring) :
  requests_at_most 1 (timedtext_attempt videoId lang).
Proof.
  unfold timedtext_attempt.
  apply (bind_requests 1 0); [apply fetch_requests | intros r | lia].
  destruct (negb (ok r)); [apply ret_requests|].
  apply (bind_requests 0 0); [apply text_of_requests | intros xml | lia].
  destruct (negb _); apply ret_requests.
Qed.

Lemma timedtext_loop_requests (videoId : jsstring) (codes : list jsstring) :
  requests_at_most (length codes) (timedtext_loop videoId codes).
Proof.
  induction codes as [|lang rest IH]; [apply ret_requests|].
  cbn [timedtext_loop length].
  apply (bind_requests 1 (length rest)); [ | intros [s|] | lia].
  - apply (try_catch_requests 1 0);
      [apply timedtext_attempt_requests | apply ret_requests | lia].
  - apply ret_requests.
  - exact IH.
Qed.

(** X13. Whatever the URL and whatever the network answers, one call of
    the Transcript Retriever makes eight requests at most (three for the
    caption tracks of the watch page, one for each of the five language
    codes of the legacy endpoint), only adds to the log of requests, and
    uses up exactly one scripted outcome for each request made. *)
Theorem X13_transcript_at_most_eight_requests (url_ : jsstring) (w : World) :
  exists extra,
    log (snd (tryFetchYouTubeTranscript JSON_parse numberToString url_ w))
    = log w ++ extra
    /\ length extra <= 8
    /\ pending (snd (tryFetchYouTubeTranscript JSON_parse numberToString url_ w))
       = skipn (length extra) (pending w).
Proof.
  revert w. change (requests_at_most 8
                      (tryFetchYouTubeTranscript JSON_parse numberToString url_)).
  unfold tryFetchYouTubeTranscript.
  destruct (match_first video_id_here url_) as [videoId|]; [|apply ret_requests].
  apply (bind_requests 3 5); [ | intros [s|] | lia].
  - apply (try_catch_requests 3 0);
      [apply caption_tracks_attempt_requests | apply ret_requests | lia].
  - apply ret_requests.
  - apply (timedtext_loop_requests videoId langs).
Qed.
End Requests.

(** * Where a pattern matches *)

(** The match that [match_first] reports is at a position of the text, and
    no position before it has one. *)
Lemma match_first_Some {A} (m : jsstring -> option A) (s : jsstring) (x : A) :
  match_first m s = Some x ->
  exists pre post,
    s = pre ++ post /\ m post = Some x
    /\ forall i, i < length pre -> m (skipn i s) = None.
Proof.
  induction s as [|c r IH]; cbn [match_first].
  - destruct (m []) eqn:E; [|discriminate]. intros [= ->].
    exists [], []. repeat split; [exact E | cbn; lia].
  - destruct (m (c :: r)) eqn:E.
    + intros [= ->]. exists [], (c :: r). repeat split; [exact E | cbn; lia].
    + intros H. destruct (IH H) as (pre & post & -> & Hm & Hbefore).
      exists (c :: pre), post. repeat split; [exact Hm|].
      intros [|i] Hi; [exact E|]. cbn [skipn]. apply Hbefore. cbn in Hi. lia.
Qed.

Lemma match_first_None {A} (m : jsstring -> option A) (s : jsstring) :
  match_first m s = None -> forall i, m (skipn i s) = None.
Proof.
  induction s as [|c r IH]; cbn [match_first].
  - destruct (m []) eqn:E; [discriminate|]. intros _ [|i]; exact E.
  - destruct (m (c :: r)) eqn:E; [discriminate|].
    intros H [|i]; [exact E | apply (IH H)].
Qed.

Lemma starts_with_prefix (p s : jsstring) :
  starts_with p s = true -> s = p ++ skipn (length p) s.
Proof.
  revert s. induction p as [|a p IH]; intros s H; [reflexivity|].
  destruct s as [|b s]; [discriminate|]. cbn [starts_with] in H.
  apply andb_true_iff in H as [Hab H]. apply N.eqb_eq in Hab. subst b.
  cbn [length skipn app]. f_equal. apply IH, H.
Qed.

(** X15. The video id that the Transcript Retriever reads off a URL is a
    run of six or more of the characters [a-z A-Z 0-9 _ -] that stands
    right after [?v=] or [&v=] and ends where the URL ends or another
    character follows; it is the first such place of the URL. *)
Theorem X15_video_id_shape (url_ videoId : jsstring) :
  match_first video_id_here url_ = Some videoId ->
  exists pre c post,
    url_ = pre ++ c :: u16 "v=" ++ videoId ++ post
    /\ (c = 63%N \/ c = 38%N)
    /\ 6 <= length videoId
    /\ all_of is_id_char videoId
    /\ stops is_id_char post
    /\ forall i, i < length pre -> video_id_here (skipn i url_) = None.
Proof.
  intros H. apply match_first_Some in H as (pre & rest & -> & Hm & Hbefore).
  unfold video_id_here in Hm. destruct rest as [|c r]; [discriminate|].
  destruct ((N.eqb c 63 || N.eqb c 38) && starts_with (u16 "v=") r) eqn:Hhead;
    [|discriminate].
  apply andb_true_iff in Hhead as [Hc Hv].
  destruct (6 <=? length (takeWhile is_id_char (skipn 2 r))) eqn:Hlen; [|discriminate].
  injection Hm as <-. apply Nat.leb_le in Hlen.
  destruct (run_split is_id_char (skipn 2 r)) as (Hsplit & Hall & Hstop).
  exists pre, c, (dropWhile is_id_char (skipn 2 r)).
  split.
  { f_equal. f_equal. rewrite <- Hsplit. exact (starts_with_prefix (u16 "v=") r Hv). }
  split.
  { apply orb_true_iff in Hc as [Hc|Hc]; apply N.eqb_eq in Hc; auto. }
  repeat split; assumption.
Qed.

Lemma X15_video_id_shape_witness :
  exists pre c post,
    u16 "https://youtu.be/watch?t=1&v=dQw4w9WgXcQ#top"
    = pre ++ c :: u16 "v=" ++ u16 "dQw4w9WgXcQ" ++ post
    /\ (c = 63%N \/ c = 38%N)
    /\ 6 <= length (u16 "dQw4w9WgXcQ")
    /\ all_of is_id_char (u16 "dQw4w9WgXcQ")
    /\ stops is_id_char post
    /\ forall i, i < length pre ->
         video_id_here (skipn i (u16 "https://youtu.be/watch?t=1&v=dQw4w9WgXcQ#top")) = None.
Proof.
  apply (X15_video_id_shape (u16 "https://youtu.be/watch?t=1&v=dQw4w9WgXcQ#top")).
  vm_compute. reflexivity.
Defined.

(** * What the Source Resolver returns *)

Lemma og_title_here_not_empty (s g : jsstring) :
  og_title_here s = Some g -> g <> [].
Proof.
  unfold og_title_here.
  destruct (starts_with_ci _ s); [|discriminate].
  destruct (_ && _); [|discriminate].
  destruct (_ && _); [|discriminate].
  destruct (takeWhile not_quote _) as [|c t]; [discriminate|].
  destruct (dropWhile not_quote _); [discriminate|].
  intros [= <-]. discriminate.
Qed.

Section Page.
Variable JSON_parse : jsstring -> option json.

Lemma page_details_title (html : jsstring) (t d : jsval) :
  page_details JSON_parse html = Returns (t, d) -> to_boolean t = true.
Proof.
  unfold page_details. cbv zeta.
  set (pr := Some (player_response JSON_parse html)).
  set (title0 := or_val (opt_get (opt_get pr (u16 "videoDetails")) (u16 "title"))
                   (Some (JStr []))).
  set (description0 :=
         or_val (opt_get (opt_get pr (u16 "videoDetails")) (u16 "shortDescription"))
           (Some (JStr []))).
  set (title1 := if negb (to_boolean title0) then _ else title0).
  assert (Ht : to_boolean title1 = true).
  { subst title1. destruct (to_boolean title0) eqn:E; [exact E|]. cbn [negb].
    destruct (match_first og_title_here html) as [g|] eqn:Eg; [|reflexivity].
    apply match_first_Some in Eg as (pre & post & _ & Hg & _).
    apply og_title_here_not_empty in Hg. destruct g; [congruence | reflexivity]. }
  clearbody title1 description0.
  destruct (negb (to_boolean description0)).
  - destruct (match_first short_description_here html) as [g|].
    + destruct (truthy g).
      * destruct (JSON_parse _); [|discriminate]. intros [= <- _]. exact Ht.
      * intros [= <- _]. exact Ht.
    + intros [= <- _]. exact Ht.
  - intros [= <- _]. exact Ht.
Qed.

(** X14. The Source Resolver makes one request, to the URL it is given and
    with the header [accept-language: en], whether it returns or throws;
    and a title that it returns is never falsy: it is the title of the
    player response, or else the [og:title] of the page, which the pattern
    takes with one code unit at least, or else the word Recipe. *)
Theorem X14_page_one_request_and_title (url_ : jsstring) (w : World) :
  log (snd (fetchYouTubePage JSON_parse url_ w))
  = log w ++ [ {| req_url := url_; accept_language := Some (u16 "en") |} ]
  /\ pending (snd (fetchYouTubePage JSON_parse url_ w)) = tl (pending w)
  /\ forall t d w',
       fetchYouTubePage JSON_parse url_ w = (Returns (t, d), w') ->
       to_boolean t = true.
Proof.
  unfold fetchYouTubePage, bind, fetch, text_of, lift, ret, throw.
  destruct (pending w) as [|[resp|] rest] eqn:E; cbn [snd advance log pending];
    rewrite ?E; cbn [tl]; try (repeat split; discriminate).
  destruct (body resp); cbn [snd advance log pending]; rewrite ?E;
    repeat split; try discriminate.
  intros t d w' H. injection H as H _. exact (page_details_title _ t d H).
Qed.
End Page.

(** * Decoding of the character references *)

Lemma all_of_forallb (f : N -> bool) (s : jsstring) :
  forallb f s = true -> all_of f s.
Proof.
  intros H. apply List.Forall_forall. intros c Hc.
  rewrite forallb_forall in H. apply H, Hc.
Qed.

Lemma all_of_app (f : N -> bool) (a b : jsstring) :
  all_of f a -> all_of f b -> all_of f (a ++ b).
Proof. intros Ha Hb. apply List.Forall_app. split; assumption. Qed.

Lemma replace_all_past (m : jsstring -> option nat) (by_ a s : jsstring) :
  replace_all m by_ (length a) (a ++ s) = replace_all m by_ 0 s.
Proof.
  induction a as [|c a IH]; [reflexivity|]. cbn [length app replace_all]. exact IH.
Qed.

(** A pattern that begins with an ampersand passes over text without one. *)
Lemma replace_all_no_amp (p' by_ a s : jsstring) :
  all_of no_amp a ->
  replace_all (literal (38%N :: p')) by_ 0 (a ++ s)
  = a ++ replace_all (literal (38%N :: p')) by_ 0 s.
Proof.
  induction 1 as [|c a Hc Ha IH]; [reflexivity|].
  cbn [app replace_all]. unfold literal at 1. cbn [starts_with].
  unfold no_amp in Hc. apply negb_true_iff in Hc.
  rewrite N.eqb_sym, Hc. cbn [andb]. f_equal. exact IH.
Qed.

Lemma replace_all_no_amp_id (p' by_ a : jsstring) :
  all_of no_amp a -> replace_all (literal (38%N :: p')) by_ 0 a = a.
Proof.
  intros Ha. rewrite <- (app_nil_r a) at 1.
  rewrite replace_all_no_amp by exact Ha. cbn. apply app_nil_r.
Qed.

(** At an ampersand with none after it: the reference is there or not. *)
Lemma replace_all_at_amp (p' by_ t : jsstring) :
  all_of no_amp t ->
  replace_all (literal (38%N :: p')) by_ 0 (38%N :: t)
  = if starts_with p' t then by_ ++ skipn (length p') t else 38%N :: t.
Proof.
  intros Ht. cbn [replace_all]. unfold literal at 1. cbn [starts_with N.eqb Pos.eqb andb].
  destruct (starts_with p' t) eqn:E.
  - f_equal. cbn [length Nat.sub]. rewrite Nat.sub_0_r.
    rewrite (starts_with_prefix p' t E) at 1 2.
    rewrite replace_all_past, skipn_length_app.
    apply replace_all_no_amp_id.
    rewrite (starts_with_prefix p' t E) in Ht.
    apply List.Forall_app in Ht. apply Ht.
  - f_equal. apply replace_all_no_amp_id, Ht.
Qed.

Lemma decodeHtml_past (a s : jsstring) :
  all_of no_amp a -> decodeHtml (a ++ s) = a ++ decodeHtml s.
Proof.
  intros Ha. unfold decodeHtml. cbv zeta.
  change (u16 "&amp;") with (38%N :: u16 "amp;").
  change (u16 "&lt;") with (38%N :: u16 "lt;").
  change (u16 "&gt;") with (38%N :: u16 "gt;").
  change (u16 "&quot;") with (38%N :: u16 "quot;").
  change (u16 "&#39;") with (38%N :: u16 "#39;").
  rewrite !replace_all_no_amp by exact Ha. reflexivity.
Qed.

(** X16. [decodeHtml] leaves text without an ampersand as it is, and
    decodes what follows such text as if the text were not there. *)
Theorem X16_decodeHtml_without_ampersand (a s : jsstring) :
  all_of no_amp a ->
  decodeHtml a = a /\ decodeHtml (a ++ s) = a ++ decodeHtml s.
Proof.
  intros Ha. split; [|apply decodeHtml_past, Ha].
  rewrite <- (app_nil_r a) at 1. rewrite decodeHtml_past by exact Ha.
  cbn. apply app_nil_r.
Qed.

Lemma X16_decodeHtml_without_ampersand_witness :
  decodeHtml (u16 "2 < 3, ") = u16 "2 < 3, "
  /\ decodeHtml (u16 "2 < 3, " ++ u16 "salt &amp; pepper")
     = u16 "2 < 3, " ++ decodeHtml (u16 "salt &amp; pepper").
Proof.
  apply (X16_decodeHtml_without_ampersand (u16 "2 < 3, ") (u16 "salt &amp; pepper")).
  apply all_of_forallb. vm_compute. reflexivity.
Defined.

(** X17. The ampersand is decoded first, and what it yields is decoded
    again: an escaped reference, as in the text of a caption that shows
    markup, comes out as the character and not as the reference. *)
Theorem X17_decodeHtml_decodes_twice (a b : jsstring) :
  all_of no_amp a -> all_of no_amp b ->
  decodeHtml (a ++ u16 "&amp;lt;" ++ b) = a ++ u16 "<" ++ b
  /\ decodeHtml (a ++ u16 "&amp;gt;" ++ b) = a ++ u16 ">" ++ b
  /\ decodeHtml (a ++ u16 "&amp;quot;" ++ b) = a ++ quote ++ b
  /\ decodeHtml (a ++ u16 "&amp;#39;" ++ b) = a ++ u16 "'" ++ b.
Proof.
  intros Ha Hb.
  assert (Hfree : forall e, forallb no_amp e = true -> all_of no_amp (e ++ b)).
  { intros e He. apply all_of_app; [apply all_of_forallb, He | exact Hb]. }
  assert (Hamp : forall e, forallb no_amp e = true ->
            replace_all (literal (38%N :: u16 "amp;")) (u16 "&") 0
              (38%N :: (u16 "amp;" ++ e ++ b))
            = 38%N :: (e ++ b)).
  { intros e He. rewrite replace_all_at_amp.
    - change (starts_with (u16 "amp;") (u16 "amp;" ++ e ++ b)) with true. cbv iota.
      rewrite skipn_length_app. reflexivity.
    - rewrite app_assoc. apply Hfree. rewrite forallb_app, He. reflexivity. }
  repeat split; rewrite decodeHtml_past by exact Ha; f_equal;
    unfold decodeHtml; cbv zeta;
    change (u16 "&amp;") with (38%N :: u16 "amp;");
    change (u16 "&lt;") with (38%N :: u16 "lt;");
    change (u16 "&gt;") with (38%N :: u16 "gt;");
    change (u16 "&quot;") with (38%N :: u16 "quot;");
    change (u16 "&#39;") with (38%N :: u16 "#39;").
  - change (u16 "&amp;lt;" ++ b) with (38%N :: (u16 "amp;" ++ u16 "lt;" ++ b)).
    rewrite Hamp by reflexivity.
    rewrite (replace_all_at_amp (u16 "lt;")) by (apply Hfree; reflexivity).
    change (starts_with (u16 "lt;") (u16 "lt;" ++ b)) with true. cbv iota.
    rewrite skipn_length_app.
    rewrite !(replace_all_no_amp_id _ _ (u16 "<" ++ b)) by (apply (Hfree (u16 "<")); reflexivity).
    reflexivity.
  - change (u16 "&amp;gt;" ++ b) with (38%N :: (u16 "amp;" ++ u16 "gt;" ++ b)).
    rewrite Hamp by reflexivity.
    rewrite (replace_all_at_amp (u16 "lt;")) by (apply Hfree; reflexivity).
    change (starts_with (u16 "lt;") (u16 "gt;" ++ b)) with false. cbv iota.
    rewrite (replace_all_at_amp (u16 "gt;")) by (apply Hfree; reflexivity).
    change (starts_with (u16 "gt;") (u16 "gt;" ++ b)) with true. cbv iota.
    rewrite skipn_length_app.
    rewrite !(replace_all_no_amp_id _ _ (u16 ">" ++ b)) by (apply (Hfree (u16 ">")); reflexivity).
    reflexivity.
  - change (u16 "&amp;quot;" ++ b) with (38%N :: (u16 "amp;" ++ u16 "quot;" ++ b)).
    rewrite Hamp by reflexivity.
    rewrite (replace_all_at_amp (u16 "lt;")) by (apply Hfree; reflexivity).
    change (starts_with (u16 "lt;") (u16 "quot;" ++ b)) with false. cbv iota.
    rewrite (replace_all_at_amp (u16 "gt;")) by (apply Hfree; reflexivity).
    change (starts_with (u16 "gt;") (u16 "quot;" ++ b)) with false. cbv iota.
    rewrite (replace_all_at_amp (u16 "quot;")) by (apply Hfree; reflexivity).
    change (starts_with (u16 "quot;") (u16 "quot;" ++ b)) with true. cbv iota.
    rewrite skipn_length_app.
    rewrite !(replace_all_no_amp_id _ _ (quote ++ b)) by (apply (Hfree quote); reflexivity).
    reflexivity.
  - change (u16 "&amp;#39;" ++ b) with (38%N :: (u16 "amp;" ++ u16 "#39;" ++ b)).
    rewrite Hamp by reflexivity.
    rewrite (replace_all_at_amp (u16 "lt;")) by (apply Hfree; reflexivity).
    change (starts_with (u16 "lt;") (u16 "#39;" ++ b)) with false. cbv iota.
    rewrite (replace_all_at_amp (u16 "gt;")) by (apply Hfree; reflexivity).
    change (starts_with (u16 "gt;") (u16 "#39;" ++ b)) with false. cbv iota.
    rewrite (replace_all_at_amp (u16 "quot;")) by (apply Hfree; reflexivity).
    change (starts_with (u16 "quot;") (u16 "#39;" ++ b)) with false. cbv iota.
    rewrite (replace_all_at_amp (u16 "#39;")) by (apply Hfree; reflexivity).
    change (starts_with (u16 "#39;") (u16 "#39;" ++ b)) with true. cbv iota.
    rewrite skipn_length_app. reflexivity.
Qed.

Lemma X17_decodeHtml_decodes_twice_witness :
  decodeHtml (u16 "use " ++ u16 "&amp;lt;" ++ u16 "b>") = u16 "use " ++ u16 "<" ++ u16 "b>"
  /\ decodeHtml (u16 "use " ++ u16 "&amp;gt;" ++ u16 "b>") = u16 "use " ++ u16 ">" ++ u16 "b>"
  /\ decodeHtml (u16 "use " ++ u16 "&amp;quot;" ++ u16 "b>") = u16 "use " ++ quote ++ u16 "b>"
  /\ decodeHtml (u16 "use " ++ u16 "&amp;#39;" ++ u16 "b>") = u16 "use " ++ u16 "'" ++ u16 "b>".
Proof.
  apply (X17_decodeHtml_decodes_twice (u16 "use ") (u16 "b>"));
    apply all_of_forallb; vm_compute; reflexivity.
Defined.

(** * White space in what the scrapers return *)

Lemma trimStart_id (s : jsstring) : stops is_ws s -> trimStart s = s.
Proof. destruct s as [|c r]; [reflexivity|]. cbn. intros ->. reflexivity. Qed.

Lemma trimEnd_prefix (s : jsstring) :
  exists w, s = trimEnd s ++ w /\ all_of is_ws w.
Proof.
  unfold trimEnd. destruct (trimStart_suffix (rev s)) as (w & Hw & Hall).
  exists (rev w). split.
  - rewrite <- rev_app_distr, <- Hw. symmetry. apply rev_involutive.
  - apply List.Forall_rev, Hall.
Qed.

Lemma trim_trimmed (s : jsstring) : trimmed (trim s).
Proof.
  unfold trimmed, trim. split.
  - pose proof (trimStart_stops s) as H.
    destruct (trimEnd_prefix (trimStart s)) as (w & Hw & _).
    destruct (trimEnd (trimStart s)) as [|c t]; [exact I|].
    rewrite Hw in H. exact H.
  - unfold trimEnd. rewrite rev_involutive. apply trimStart_stops.
Qed.

Lemma trim_id (s : jsstring) : trimmed s -> trim s = s.
Proof.
  intros [H1 H2]. unfold trim, trimEnd.
  rewrite (trimStart_id s H1), (trimStart_id (rev s) H2). apply rev_involutive.
Qed.

Lemma single_spaced_from_weaken (prev : bool) (s : jsstring) :
  single_spaced_from prev s = true -> single_spaced_from false s = true.
Proof.
  destruct s as [|c r]; [reflexivity|]. cbn [single_spaced_from].
  destruct (is_ws c); [|exact (fun H => H)].
  destruct prev; [|exact (fun H => H)].
  rewrite andb_false_r. discriminate.
Qed.

Lemma single_spaced_from_suffix (prev : bool) (a b : jsstring) :
  single_spaced_from prev (a ++ b) = true -> single_spaced_from false b = true.
Proof.
  revert prev. induction a as [|c a IH]; intros prev; [apply single_spaced_from_weaken|].
  cbn [app single_spaced_from]. destruct (is_ws c).
  - intros H. apply andb_true_iff in H as [_ H]. exact (IH _ H).
  - apply IH.
Qed.

Lemma single_spaced_from_prefix (prev : bool) (a b : jsstring) :
  single_spaced_from prev (a ++ b) = true -> single_spaced_from prev a = true.
Proof.
  revert prev. induction a as [|c a IH]; intros prev; [reflexivity|].
  cbn [app single_spaced_from]. destruct (is_ws c).
  - intros H. apply andb_true_iff in H as [H1 H]. rewrite H1. exact (IH _ H).
  - apply IH.
Qed.

Lemma single_spaced_from_sound (prev : bool) (s : jsstring) :
  single_spaced_from prev s = true -> single_spaced s.
Proof.
  intros H. split.
  - revert prev H. induction s as [|c r IH]; intros prev H x Hx Hws; [destruct Hx|].
    cbn [single_spaced_from] in H. destruct Hx as [<-|Hx].
    + rewrite Hws in H. apply andb_true_iff in H as [H _].
      apply andb_true_iff in H as [H _]. apply N.eqb_eq, H.
    + destruct (is_ws c).
      * apply andb_true_iff in H as [_ H]. exact (IH _ H x Hx Hws).
      * exact (IH _ H x Hx Hws).
  - intros a x y b -> Hx.
    apply single_spaced_from_suffix in H. cbn [single_spaced_from] in H.
    rewrite Hx in H. apply andb_true_iff in H as [_ H].
    destruct (is_ws y); [|reflexivity].
    rewrite andb_false_r in H. discriminate.
Qed.

Lemma replace_ws_runs_single_spaced (in_run : bool) (s : jsstring) :
  single_spaced_from in_run (replace_ws_runs in_run s) = true.
Proof.
  revert in_run. induction s as [|c r IH]; intros in_run; [reflexivity|].
  cbn [replace_ws_runs]. destruct (is_ws c) eqn:E.
  - destruct in_run; [apply IH|].
    cbn [single_spaced_from]. change (is_ws 32) with true. cbv iota.
    rewrite IH. reflexivity.
  - cbn [single_spaced_from]. rewrite E. apply IH.
Qed.

Lemma trim_single_spaced (s : jsstring) :
  single_spaced_from false s = true -> single_spaced_from false (trim s) = true.
Proof.
  intros H. unfold trim.
  destruct (trimStart_suffix s) as (w & Hw & _).
  destruct (trimEnd_prefix (trimStart s)) as (w' & Hw' & _).
  rewrite Hw in H. apply single_spaced_from_suffix in H.
  rewrite Hw' in H. apply single_spaced_from_prefix in H. exact H.
Qed.

Lemma join_items_normal (items : list jsstring) :
  single_spaced_from false (join_items items) = true /\ trimmed (join_items items).
Proof.
  unfold join_items. split; [|apply trim_trimmed].
  apply trim_single_spaced, replace_ws_runs_single_spaced.
Qed.

(** X18. The text that the Transcript Retriever makes of the items of an
    XML caption file has its white space normalised, whatever the items
    hold: every white-space code unit of it is a plain space, no two of
    them are neighbours, and the text neither begins nor ends with one. *)
Theorem X18_join_items_normalised (items : list jsstring) :
  single_spaced (join_items items) /\ trimmed (join_items items).
Proof.
  destruct (join_items_normal items) as [H1 H2].
  split; [exact (single_spaced_from_sound false _ H1) | exact H2].
Qed.

(** * No line feed in a transcript *)

Lemma split_lines_no_LF (cur s : jsstring) :
  no_LF (rev cur) -> List.Forall no_LF (split_lines cur s).
Proof.
  revert cur. induction s as [|c r IH]; intros cur Hcur; [repeat constructor; exact Hcur|].
  assert (Hnil : no_LF (rev [])) by constructor.
  cbn [split_lines]. destruct (N.eqb c 10) eqn:Ec.
  - constructor; [exact Hcur | apply IH, Hnil].
  - assert (Hpush : no_LF (rev (c :: cur))).
    { cbn [rev]. apply List.Forall_app. split; [exact Hcur|].
      constructor; [|constructor]. apply N.eqb_neq, Ec. }
    destruct r as [|c' r']; [apply IH, Hpush|].
    destruct (N.eqb c 13 && N.eqb c' 10) eqn:E; [|apply IH, Hpush].
    constructor; [exact Hcur|].
    apply andb_true_iff in E as [_ E].
    specialize (IH [] Hnil). cbn [split_lines] in IH. rewrite E in IH.
    inversion IH; assumption.
Qed.

Lemma replace_all_erase_Forall (P : N -> Prop) (m : jsstring -> option nat)
    (skip : nat) (s : jsstring) :
  List.Forall P s -> List.Forall P (replace_all m [] skip s).
Proof.
  intros H. revert skip. induction H as [|c r Hc Hr IH]; intros skip; [constructor|].
  cbn [replace_all]. destruct skip as [|k]; [|apply IH].
  destruct (m (c :: r)); [apply IH | constructor; [exact Hc | apply IH]].
Qed.

Lemma join_no_LF (sep : jsstring) (l : list jsstring) :
  no_LF sep -> List.Forall no_LF l -> no_LF (join sep l).
Proof.
  intros Hsep H. induction H as [|x r Hx Hr IH]; [constructor|].
  cbn [join]. destruct r as [|y r']; [exact Hx|].
  apply List.Forall_app. split; [exact Hx|].
  apply List.Forall_app. split; [exact Hsep | exact IH].
Qed.

Lemma vttToPlainText_no_LF (vtt : jsstring) : no_LF (vttToPlainText vtt).
Proof.
  unfold vttToPlainText. apply join_no_LF.
  - repeat constructor. discriminate.
  - apply List.Forall_map.
    assert (H : List.Forall no_LF (split_lines [] vtt))
      by (apply split_lines_no_LF; constructor).
    induction H as [|x r Hx Hr IH]; cbn [List.filter]; [constructor|].
    destruct (negb (vtt_noise x)); [|exact IH].
    constructor; [|exact IH]. apply replace_all_erase_Forall, Hx.
Qed.

Lemma join_items_no_LF (items : list jsstring) : no_LF (join_items items).
Proof.
  destruct (join_items_normal items) as [H _].
  apply single_spaced_from_sound in H as [H _].
  apply List.Forall_forall. intros c Hc E. subst c.
  specialize (H 10%N Hc eq_refl). discriminate.
Qed.

Lemma yields_ret {A} (P : A -> Prop) (a : A) : P a -> yields P (ret a).
Proof. intros H w x w' [= <- _]. exact H. Qed.

Lemma yields_bind {A B} (Q : A -> Prop) (P : B -> Prop) (m : Js A) (f : A -> Js B) :
  yields Q m -> (forall x, Q x -> yields P (f x)) -> yields P (bind m f).
Proof.
  intros Hm Hf w b w'. unfold bind.
  destruct (m w) as [[x|] w1] eqn:E; [|discriminate].
  apply (Hf x (Hm w x w1 E)).
Qed.

Lemma yields_any {A} (m : Js A) : yields (fun _ => True) m.
Proof. intros w a w' _. exact I. Qed.

Lemma yields_try_catch {A} (P : A -> Prop) (m h : Js A) :
  yields P m -> yields P h -> yields P (try_catch m h).
Proof.
  intros Hm Hh w a w'. unfold try_catch.
  destruct (m w) as [[x|] w1] eqn:E.
  - intros [= <- _]. exact (Hm w x w1 E).
  - apply Hh.
Qed.

Section OneLine.
Variable JSON_parse : jsstring -> option json.
Variable numberToString : Q -> jsstring.

Lemma items_one_line (xml : jsstring) :
  one_line (match text_items xml with [] => None | _ => Some (join_items (text_items xml)) end).
Proof. destruct (text_items xml); [exact I | apply join_items_no_LF]. Qed.

Lemma caption_tracks_attempt_one_line (videoId : jsstring) :
  yields one_line (caption_tracks_attempt JSON_parse numberToString videoId).
Proof.
  unfold caption_tracks_attempt.
  apply (yields_bind (fun _ => True)); [apply yields_any | intros resp _].
  apply (yields_bind (fun _ => True)); [apply yields_any | intros watchHtml _].
  cbv zeta.
  destruct (opt_get _ (u16 "captionTracks")) as [[| | | |[|t0 ts]|]|];
    try (apply yields_ret; exact I).
  apply (yields_bind (fun _ => True)); [apply yields_any | intros en _].
  apply (yields_bind (fun _ => True)); [apply yields_any | intros preferred _].
  destruct (to_boolean (opt_get preferred (u16 "baseUrl"))); [|apply yields_ret; exact I].
  apply (yields_bind (fun _ => True)); [apply yields_any | intros has_query _].
  apply (yields_bind (fun _ => True)); [apply yields_any | intros base _].
  apply (yields_bind (fun _ => True)); [apply yields_any | intros vttResp _].
  apply (yields_bind one_line); [ | intros from_vtt Hvtt].
  { destruct (ok vttResp); [|apply yields_ret; exact I].
    apply (yields_bind (fun _ => True)); [apply yields_any | intros vtt _].
    apply yields_ret. destruct (truthy _); [apply vttToPlainText_no_LF | exact I]. }
  destruct from_vtt as [merged|]; [apply yields_ret; exact Hvtt|].
  apply (yields_bind (fun _ => True)); [apply yields_any | intros xmlResp _].
  destruct (ok xmlResp); [|apply yields_ret; exact I].
  apply (yields_bind (fun _ => True)); [apply yields_any | intros xml _].
  apply yields_ret. cbv zeta. apply items_one_line.
Qed.

Lemma timedtext_attempt_one_line (videoId lang : jsstring) :
  yields one_line (timedtext_attempt videoId lang).
Proof.
  unfold timedtext_attempt.
  apply (yields_bind (fun _ => True)); [apply yields_any | intros r _].
  destruct (negb (ok r)); [apply yields_ret; exact I|].
  apply (yields_bind (fun _ => True)); [apply yields_any | intros xml _].
  destruct (negb _); [apply yields_ret; exact I|].
  apply yields_ret. cbv zeta. apply items_one_line.
Qed.

Lemma timedtext_loop_one_line (videoId : jsstring) (codes : list jsstring) :
  yields no_LF (timedtext_loop videoId codes).
Proof.
  induction codes as [|lang rest IH]; [apply yields_ret; constructor|].
  cbn [timedtext_loop].
  apply (yields_bind one_line); [ | intros [s|] Hs].
  - apply yields_try_catch; [apply timedtext_attempt_one_line | apply yields_ret; exact I].
  - apply yields_ret, Hs.
  - exact IH.
Qed.

(** X19. A transcript that the Transcript Retriever returns holds no line
    feed, whichever of its sources it comes from: the lines of a WebVTT
    file are joined by spaces, and the items of an XML file are joined by
    spaces with every run of white space turned into one space. *)
Theorem X19_transcript_one_line (url_ : jsstring) (w w' : World) (s : jsstring) :
  tryFetchYouTubeTranscript JSON_parse numberToString url_ w = (Returns s, w') ->
  no_LF s.
Proof.
  revert w s w'.
  change (yields no_LF (tryFetchYouTubeTranscript JSON_parse numberToString url_)).
  unfold tryFetchYouTubeTranscript.
  destruct (match_first video_id_here url_) as [videoId|];
    [|apply yields_ret; constructor].
  apply (yields_bind one_line); [ | intros [s|] Hs].
  - apply yields_try_catch;
      [apply caption_tracks_attempt_one_line | apply yields_ret; exact I].
  - apply yields_ret, Hs.
  - apply timedtext_loop_one_line.
Qed.
End OneLine.

Lemma X19_transcript_one_line_witness : no_LF (u16 "Add salt").
Proof.
  apply (X19_transcript_one_line json_string_literal print_nothing
           (u16 "https://www.youtube.com/watch?v=dQw4w9WgXcQ")
           captions_on_second_request
           (snd (tryFetchYouTubeTranscript json_string_literal print_nothing
                   (u16 "https://www.youtube.com/watch?v=dQw4w9WgXcQ")
                   captions_on_second_request))).
  vm_compute. reflexivity.
Defined.

(** * No empty step *)

Section StepsNotEmpty.
Variable toUpperCase : jsstring -> jsstring.
Hypothesis rows : ascii_rows toUpperCase.

Lemma upcase_initial_not_empty (s : jsstring) :
  s <> [] -> upcase_initial toUpperCase s <> [].
Proof.
  destruct s as [|c r]; [congruence|]. intros _. unfold upcase_initial.
  destruct (is_lower c) eqn:Hl; [|discriminate].
  rewrite rows by (apply alpha_is_ascii; unfold is_alpha; rewrite Hl; reflexivity).
  discriminate.
Qed.

Lemma extractSteps_not_empty (text_ : jsstring) :
  List.Forall (fun t => t <> []) (extractSteps toUpperCase text_).
Proof.
  unfold extractSteps. destruct (negb (truthy text_)).
  { constructor; [|constructor]. intros E. vm_compute in E. discriminate. }
  cbv zeta. rewrite pick_loop_firstn by (simpl; lia).
  change ([] ++ ?l) with l. rewrite firstn_map.
  pose proof (firstn_filter_Forall cues_test 12 (sentences_of text_)) as Hkept.
  destruct (firstn 12 (List.filter cues_test (sentences_of text_))) as [|k ks].
  - cbn [List.map]. constructor; [|constructor].
    apply upcase_initial_not_empty. unfold or_else.
    destruct (hd [] (sentences_of text_)) as [|c r]; cbn [truthy]; [|discriminate].
    intros E. vm_compute in E. discriminate.
  - change (List.Forall (fun t => t <> [])
              (List.map (upcase_initial toUpperCase)
                 (List.map (fun s => capitalize toUpperCase (strip_numbering s)) (k :: ks)))).
    rewrite map_map. apply List.Forall_map.
    eapply List.Forall_impl; [|exact Hkept].
    intros s Hs E. cbv beta in *.
    assert (Hcue : cues_test
                     (upcase_initial toUpperCase (capitalize toUpperCase (strip_numbering s)))
                   = true).
    { apply cues_test_upcase_initial; [exact rows|].
      apply cues_test_capitalize; [exact rows|].
      rewrite cues_test_strip_numbering. exact Hs. }
    rewrite E in Hcue. vm_compute in Hcue. discriminate.
Qed.
End StepsNotEmpty.

(** X20. No step of a synthesized recipe is empty, whatever the title, the
    description and the transcript, when upper-casing does on ASCII what
    the table of the platform says. *)
Theorem X20_no_empty_step
    (toUpperCase : jsstring -> jsstring) (title_ : jsval)
    (description transcriptText : jsstring) :
  ascii_rows toUpperCase ->
  List.Forall (fun st => text st <> [])
    (steps (synthesizeRecipe toUpperCase title_ description transcriptText)).
Proof.
  intros rows. unfold synthesizeRecipe. cbn [steps].
  apply (number_steps_Forall (fun t => t <> [])).
  apply extractSteps_not_empty, rows.
Qed.

Lemma X20_no_empty_step_witness :
  List.Forall (fun st => text st <> [])
    (steps (synthesizeRecipe asciiUpperCase (str []) [] (u16 "a. 2) stir well."))).
Proof.
  apply (X20_no_empty_step asciiUpperCase (str []) [] (u16 "a. 2) stir well.")).
  exact asciiUpperCase_rows.
Defined.

(** * How an extracted ingredient renders *)

Lemma In_firstn_inv {A} (k : nat) (l : list A) (x : A) :
  List.In x (firstn k l) -> List.In x l.
Proof.
  revert k. induction l as [|y l IH]; intros [|k]; cbn; try tauto.
  intros [H|H]; [left; exact H | right; exact (IH k H)].
Qed.

Lemma In_skipn_inv {A} (k : nat) (l : list A) (x : A) :
  List.In x (skipn k l) -> List.In x l.
Proof.
  revert k. induction l as [|y l IH]; intros [|k]; cbn; try tauto.
  intros H. right. exact (IH k H).
Qed.

Lemma In_before_first {A} (p : A -> bool) (l : list A) (x : A) :
  List.In x (before_first p l) -> List.In x l.
Proof.
  induction l as [|y l IH]; cbn; [tauto|].
  destruct (p y); cbn; [tauto|]. intros [H|H]; [left; exact H | right; exact (IH H)].
Qed.

Lemma extracted_from_line (description : jsstring) (i : Ingredient) :
  List.In i (extractIngredients description) ->
  exists line,
    List.In line (lines_of description) /\ has_letter line = true
    /\ i = ingredient_of_line line.
Proof.
  unfold extractIngredients. cbv zeta. rewrite ingredients_loop_pipeline by (cbn; lia).
  cbn [app]. intros H. apply In_firstn_inv in H.
  apply List.in_map_iff in H as (line & <- & H).
  apply List.filter_In in H as [H Hkept].
  apply In_before_first in H.
  exists line. split; [|split; [|reflexivity]].
  - destruct (findIndex is_ingredients_header (lines_of description));
      [exact (In_skipn_inv _ _ _ H) | exact H].
  - unfold kept_line in Hkept. apply andb_true_iff in Hkept as [_ Hkept]. exact Hkept.
Qed.

Lemma lines_of_trimmed (description line : jsstring) :
  List.In line (lines_of description) -> line <> [] /\ trimmed line.
Proof.
  unfold lines_of. intros H. apply List.filter_In in H as [H Hne].
  apply List.in_map_iff in H as (l & <- & _).
  split; [intros E; rewrite E in Hne; discriminate | apply trim_trimmed].
Qed.

(** A non-empty end of a text ends as the text does. *)
Lemma stops_rev_suffix (pre s : jsstring) :
  s <> [] -> stops is_ws (rev (pre ++ s)) -> stops is_ws (rev s).
Proof.
  intros Hne. rewrite rev_app_distr.
  destruct (rev s) as [|c t] eqn:E; [|exact (fun H => H)].
  apply (f_equal (@rev N)) in E. rewrite rev_involutive in E. cbn in E. congruence.
Qed.

Lemma stops_rev_extend (pre s : jsstring) :
  s <> [] -> stops is_ws (rev s) -> stops is_ws (rev (pre ++ s)).
Proof.
  intros Hne H. rewrite rev_app_distr.
  destruct (rev s) as [|c t] eqn:E; [|exact H].
  apply (f_equal (@rev N)) in E. rewrite rev_involutive in E. cbn in E. congruence.
Qed.

Lemma has_letter_app_ws (w s : jsstring) :
  all_of is_ws w -> has_letter (w ++ s) = has_letter s.
Proof.
  induction 1 as [|c w Hc Hw IH]; [reflexivity|].
  cbn [app]. unfold has_letter in *. cbn [existsb].
  rewrite (ws_not_alpha c Hc). exact IH.
Qed.

Lemma item_of_trimmed_line (line : jsstring) :
  has_letter line = true -> stops is_ws (rev line) ->
  item (ingredient_of_line line) <> []
  /\ stops is_ws (rev (item (ingredient_of_line line))).
Proof.
  intros Hlet Hend. unfold ingredient_of_line.
  destruct (match_line line) as [[[q u] it]|] eqn:E; cbn [item].
  - apply match_line_Some in E
      as (ip & fr & w1 & w2 & _ & _ & _ & _ & _ & Hit & _ & Hline).
    split; [exact Hit|].
    apply (stops_rev_suffix (q ++ w1 ++ unit_text u ++ w2)); [exact Hit|].
    rewrite <- !app_assoc, <- Hline. exact Hend.
  - unfold strip_bullet. destruct line as [|c r]; [discriminate|].
    destruct (N.eqb c 45 || N.eqb c 8226 || N.eqb c 42) eqn:Hb.
    + assert (Hc : is_alpha c = false).
      { apply orb_true_iff in Hb as [Hb|Hb]; [apply orb_true_iff in Hb as [Hb|Hb]|];
          apply N.eqb_eq in Hb; subst c; reflexivity. }
      destruct (trimStart_suffix r) as (w & Hw & Hall).
      assert (Hne : trimStart r <> []).
      { intros Hnil. unfold has_letter in Hlet. cbn [existsb] in Hlet.
        rewrite Hc in Hlet. cbn [orb] in Hlet.
        change (has_letter r = true) in Hlet.
        rewrite Hw, (has_letter_app_ws w _ Hall), Hnil in Hlet. discriminate. }
      split; [exact Hne|].
      apply (stops_rev_suffix (c :: w)); [exact Hne|].
      cbn [app]. rewrite <- Hw. exact Hend.
    + split; [discriminate | exact Hend].
Qed.

(** X21. For an ingredient that [extractIngredients] yields, the [trim] of
    the renderers removes nothing: the line is the dash, a space, the
    quantity, a space, the unit, a space, and the item, with the blanks of
    an absent quantity or unit left in (three spaces between the dash and
    the item when both are absent). The item is never empty and never ends
    in white space. *)
Theorem X21_rendered_ingredient
    (numberToString : Q -> jsstring) (description : jsstring) (i : Ingredient) :
  List.In i (extractIngredients description) ->
  render_ingredient numberToString i
  = u16 "- "
    ++ match quantity i with Some q => print_number numberToString q | None => [] end
    ++ u16 " " ++ unit_text (unit i) ++ u16 " " ++ item i
  /\ item i <> []
  /\ stops is_ws (rev (item i)).
Proof.
  intros H. apply extracted_from_line in H as (line & Hin & Hlet & ->).
  apply lines_of_trimmed in Hin as [_ [_ Hend]].
  destruct (item_of_trimmed_line line Hlet Hend) as [Hne Hstop].
  split; [|split; assumption].
  unfold render_ingredient.
  change (match unit (ingredient_of_line line) with Some u => u | None => [] end)
    with (unit_text (unit (ingredient_of_line line))).
  apply trim_id. split; [reflexivity|].
  set (q := match quantity _ with Some q => print_number numberToString q | None => [] end).
  rewrite !app_assoc. apply stops_rev_extend; assumption.
Qed.

Lemma X21_rendered_ingredient_witness :
  render_ingredient print_nothing
    {| quantity := None; unit := None; item := u16 "salt" |}
  = u16 "-   salt"
  /\ u16 "salt" <> []
  /\ stops is_ws (rev (u16 "salt")).
Proof.
  apply (X21_rendered_ingredient print_nothing
           (u16 "Ingredients" ++ LF ++ u16 "- salt" ++ LF ++ u16 "2 eggs")
           {| quantity := None; unit := None; item := u16 "salt" |}).
  vm_compute. left. reflexivity.
Defined.

(** * The quantity as a number *)




(** [Number] on some numerals: integers and halves are exact, a tenth is
    not, 2^53 + 1 rounds to 2^53, and 400 digits are past the range. *)
Lemma Number_examples :
  Number (u16 "2") = Finite 2
  /\ Number (u16 "1.5") = Finite (3 # 2)
  /\ Number (u16 "0.1") = Finite (3602879701896397 # 36028797018963968)
  /\ Number (u16 "9007199254740993") = Finite 9007199254740992
  /\ Number (49%N :: repeat 48%N 400) = Infinity.
Proof. repeat split; vm_compute; reflexivity. Qed.

(** * A number and one word *)



Lemma unit_char_ends_number (c : N) : is_unit_char c = true -> ends_number c = false.
Proof.
  unfold is_unit_char, ends_number. intros H.
  apply orb_true_iff in H as [H|H]; [apply orb_true_iff in H as [H|H]|].
  - rewrite (alpha_not_digit c H). cbn [orb]. apply N.eqb_neq. intros ->. discriminate.
  - apply N.eqb_eq in H. subst c. reflexivity.
  - apply N.eqb_eq in H. subst c. reflexivity.
Qed.







(** Every word has its parts. *)
Lemma word_parts_total (word : jsstring) :
  word <> [] -> all_of not_ws word -> exists u it, word_parts word u it.
Proof.
  intros Hne Hfree.
  destruct (run_split is_unit_char word) as (Hsplit & Hall & Hstop).
  destruct (dropWhile is_unit_char word) as [|c r] eqn:Hdrop.
  - rewrite app_nil_r in Hsplit. rewrite <- Hsplit in Hall.
    destruct (exists_last Hne) as (w & z & ->).
    destruct w as [|a w].
    + exists None, [z]. apply one_letter. inversion Hall; assumption.
    + exists (Some (a :: w)), [z]. apply letters_at_least_two; [discriminate | exact Hall].
  - assert (Hr : all_of not_ws (c :: r)).
    { rewrite Hsplit in Hfree. apply List.Forall_app in Hfree. apply Hfree. }
    destruct (takeWhile is_unit_char word) as [|a u] eqn:Htake.
    + cbn [app] in Hsplit. subst word. exists None, (c :: r).
      apply no_letter_first; [discriminate | exact Hstop | exact Hr].
    + rewrite Hsplit. exists (Some (a :: u)), (c :: r).
      apply letters_and_more; [discriminate | exact Hall | discriminate | exact Hstop
                              | exact Hr].
Qed.

Lemma ws_ends_number (c : N) : is_ws c = true -> ends_number c = false.
Proof.
  intros H. unfold ends_number. rewrite (ws_not_digit c H). cbn [orb].
  apply N.eqb_neq. intros ->. discriminate.
Qed.

Section NumberThen.
Variables (ws word : jsstring) (u : option jsstring) (it : jsstring).
Hypothesis Hws : all_of is_ws ws.
Hypothesis Hword : word_parts word u it.
Hypothesis Hends : stops ends_number (ws ++ word).




End NumberThen.

(** ** A line that begins with a digit, as the loop meets it *)

Lemma digit_line_not_separator (d : N) (rest : jsstring) :
  is_digit d = true -> is_separator (d :: rest) = false.
Proof.
  intros Hd. unfold is_separator. cbn [dropWhile].
  rewrite (digit_not_ws d Hd). cbn [takeWhile].
  replace (N.eqb 45 d) with false; [reflexivity|].
  symmetry. apply N.eqb_neq. intros <-. discriminate.
Qed.

Lemma digit_line_not_instructions (d : N) (rest : jsstring) :
  is_digit d = true -> is_instructions_header (d :: rest) = false.
Proof.
  intros Hd. unfold is_instructions_header. cbn [dropWhile].
  rewrite (digit_not_ws d Hd). unfold instruction_words. cbn [List.map existsb].
  rewrite !word_here_digit; try exact Hd; try reflexivity;
    eexists; eexists; split; reflexivity.
Qed.


Lemma digit_line_kept (d : N) (rest : jsstring) :
  is_digit d = true -> kept_line (d :: rest) = has_letter (d :: rest).
Proof.
  intros Hd. unfold kept_line.
  rewrite (digit_line_not_separator d rest Hd), (digit_line_not_instructions d rest Hd).
  reflexivity.
Qed.








(** X12. A line that begins with a digit, holds an ASCII letter and no
    line terminator is a line that the loop keeps, and the ingredient it
    becomes always has a quantity, and an item that is not empty. *)
Theorem X12_leading_digit_quantity (c : N) (rest : jsstring) :
  is_digit c = true ->
  has_letter (c :: rest) = true ->
  all_of (fun x => negb (is_line_terminator x)) rest ->
  kept_line (c :: rest) = true
  /\ exists q, quantity (ingredient_of_line (c :: rest)) = Some q
               /\ item (ingredient_of_line (c :: rest)) <> [].
Proof.
  intros Hc Hlet Hlt.
  split; [rewrite (digit_line_kept c rest Hc); exact Hlet|].
  assert (Hne : rest <> []).
  { intros ->. unfold has_letter in Hlet. cbn [existsb] in Hlet.
    rewrite (digit_not_alpha c Hc) in Hlet. discriminate. }
  assert (Hacc : match_line (c :: rest) <> None).
  { apply (match_line_accepts (c :: rest) [c] None rest).
    exists [c], [], [], []. cbn [app unit_text].
    split; [reflexivity|].
    split; [split; [discriminate | split; [repeat constructor; exact Hc | now left]]|].
    split; [constructor|]. split; [constructor|]. split; [exact I|].
    split; [exact Hne|]. split; [exact Hlt | reflexivity]. }
  destruct (match_line (c :: rest)) as [[[q' u'] it']|] eqn:E; [|congruence].
  pose proof (match_line_Some _ _ _ _ E) as D.
  unfold ingredient_of_line. rewrite E. cbn [quantity item].
  exists (Number q'). split; [reflexivity|].
  destruct D as (? & ? & ? & ? & _ & _ & _ & _ & _ & Hit & _). exact Hit.
Qed.

Lemma X12_leading_digit_quantity_witness :
  kept_line (u16 "2 eggs") = true
  /\ exists q, quantity (ingredient_of_line (u16 "2 eggs")) = Some q
               /\ item (ingredient_of_line (u16 "2 eggs")) <> [].
Proof.
  apply (X12_leading_digit_quantity 50%N (u16 " eggs"));
    [reflexivity | reflexivity | repeat constructor].
Defined.
